(** * Statistics core of the compute-node agent

    A shallow embedding of [src/ai/backend/agent/stats.py]: the running
    accumulator [MovingStatistics], the per-metric record [Metric] and the
    merge phases of [StatContext.collect_node_stat] and
    [StatContext.collect_container_stat], together with the part of Python's
    [decimal] arithmetic (default context) these functions rely on.

    Conventions.
    - A Python call that may raise returns a [result]; a method that mutates
      [self] before raising returns the mutated object next to the [result].
    - [time.perf_counter()] is an input: the accumulator takes the reading as
      an argument, the collection rounds draw readings from a clock oracle.
    - Readings are binary64 floats, as in Python. *)

From Stdlib Require Import ZArith NArith QArith Qpower Lia List Bool String Ascii.
From Stdlib Require Import Floats DecimalString.
From stdpp Require Import gmap strings.

Local Open Scope Z_scope.

(** ** Exceptions and results *)

(** Why [decimal.InvalidOperation] was signalled. *)
Inductive invalid_cause : Type :=
| SignalingNaN          (* an operand is sNaN *)
| NaNComparison         (* ordering comparison with a NaN operand *)
| InfMinusInf           (* -INF + INF *)
| InfDivInf             (* (+-)INF / (+-)INF *)
| InfTimesZero          (* (+-)INF * 0 *)
| DivisionUndefined     (* 0 / 0 *)
| QuantizeInf           (* quantize with one INF *)
| QuantizeRange         (* target or result exponent out of bounds *)
| QuantizePrecision.    (* quantize result has too many digits *)

(** The exceptions that can leave the modelled functions.  The decimal
    signals are the three trapped by the default context. *)
Inductive exn : Type :=
| InvalidOperation (why : invalid_cause)
| DivisionByZero
| Overflow
| KeyError
| AssertionError
| PluginError.          (* whatever a measurement source or a hook raises *)

Inductive result (A : Type) : Type :=
| Ok (a : A)
| Raise (e : exn).
Arguments Ok {A} a.
Arguments Raise {A} e.

(** [result] is a monad; [x ← r; k] propagates an exception of [r]. *)
#[global] Instance result_ret : MRet result := fun A a => Ok a.
#[global] Instance result_bind : MBind result := fun A B k r =>
  match r with
  | Ok a => k a
  | Raise e => Raise e
  end.

Definition is_ok {A} (r : result A) : bool :=
  match r with Ok _ => true | Raise _ => false end.

(** ** Python's [decimal.Decimal] under the default context *)

(** A finite number is [(-1)^sign * coef * 10^exp]; the coefficient is the
    integer that Python keeps as the digit string [_int]. *)
Inductive Decimal : Type :=
| Fin (sign : bool) (coef : N) (exp : Z)
| Inf (sign : bool)
| NaN (sign : bool) (signaling : bool) (payload : N).

(** [getcontext()] defaults: prec=28, ROUND_HALF_EVEN, Emin=-999999,
    Emax=999999, clamp=0, traps InvalidOperation, DivisionByZero, Overflow.
    Untrapped signals only set flags, which the agent never reads. *)
Definition prec : Z := 28.
Definition Emax : Z := 999999.
Definition Emin : Z := -999999.
Definition Etiny : Z := Emin - prec + 1.
Definition Etop : Z := Emax - prec + 1.

Fixpoint ndigits_fuel (fuel : nat) (n : N) : Z :=
  match fuel with
  | O => 1
  | S f => if (n <? 10)%N then 1 else 1 + ndigits_fuel f (n / 10)%N
  end.

(** [len(self._int)]: the number of decimal digits of the coefficient,
    1 for zero. *)
Definition ndigits (n : N) : Z := ndigits_fuel (N.to_nat (N.size n)) n.

(** [10 ** k] for a non-negative exponent taken from [Z]. *)
Definition pow10 (k : Z) : N := (10 ^ Z.to_N k)%N.

(** [self.adjusted()]. *)
Definition adjusted (c : N) (e : Z) : Z := e + ndigits c - 1.

Definition of_int (z : Z) : Decimal := Fin (z <? 0) (Z.abs_N z) 0.

Definition is_special (d : Decimal) : bool :=
  match d with Fin _ _ _ => false | _ => true end.

Definition is_nan (d : Decimal) : bool :=
  match d with NaN _ _ _ => true | _ => false end.

Definition is_snan (d : Decimal) : bool :=
  match d with NaN _ true _ => true | _ => false end.

Definition is_finite (d : Decimal) : bool :=
  match d with Fin _ _ _ => true | _ => false end.

(** [self._isinfinity()]: 1, -1 or 0. *)
Definition isinfinity (d : Decimal) : Z :=
  match d with
  | Inf false => 1
  | Inf true => -1
  | _ => 0
  end.

(** [not self]: a finite zero of either sign. *)
Definition is_zero (d : Decimal) : bool :=
  match d with Fin _ c _ => (c =? 0)%N | _ => false end.

Definition copy_negate (d : Decimal) : Decimal :=
  match d with
  | Fin s c e => Fin (negb s) c e
  | Inf s => Inf (negb s)
  | NaN s sg p => NaN (negb s) sg p
  end.

(** [_fix_nan]: a payload longer than [prec] digits keeps its low digits. *)
Definition fix_nan (d : Decimal) : Decimal :=
  match d with
  | NaN s sg p => if ndigits p >? prec then NaN s sg (p mod pow10 prec)%N else d
  | _ => d
  end.

(** [_check_nans]: [Some] outcome when an operand is a NaN. *)
Definition check_nans (a b : Decimal) : option (result Decimal) :=
  if is_snan a then Some (Raise (InvalidOperation SignalingNaN))
  else if is_snan b then Some (Raise (InvalidOperation SignalingNaN))
  else if is_nan a then Some (Ok (fix_nan a))
  else if is_nan b then Some (Ok (fix_nan b))
  else None.

Definition check_nans1 (a : Decimal) : option (result Decimal) :=
  if is_snan a then Some (Raise (InvalidOperation SignalingNaN))
  else if is_nan a then Some (Ok (fix_nan a))
  else None.

(** ROUND_HALF_EVEN applied to a coefficient that loses its [drop] low
    digits. *)
Definition round_half_even (c : N) (drop : Z) : N :=
  let p := pow10 drop in
  let q := (c / p)%N in
  let r := (c mod p)%N in
  if (2 * r <? p)%N then q
  else if (p <? 2 * r)%N then (q + 1)%N
  else if N.even q then q else (q + 1)%N.

(** The rounding step shared by [_fix] and [_rescale]: the coefficient of
    [c * 10^e] rounded to the exponent [exp].  With [digits] the number of
    digits that remain, a number with [digits < 0] is first replaced by
    [1 * 10^(exp-1)], which rounds to 0 like every number that small. *)
Definition round_to (c : N) (e exp : Z) : N :=
  let digits := ndigits c + e - exp in
  if digits <? 0 then round_half_even 1 1 else round_half_even c (exp - e).

(** [Decimal._fix]: round to the context precision and exponent range. *)
Definition dec_fix (d : Decimal) : result Decimal :=
  match d with
  | NaN _ _ _ => Ok (fix_nan d)
  | Inf _ => Ok d
  | Fin s c e =>
      if (c =? 0)%N then Ok (Fin s 0 (Z.min (Z.max e Etiny) Emax))
      else
        let exp_min := ndigits c + e - prec in
        if exp_min >? Etop then Raise Overflow
        else
          let exp_min := Z.max exp_min Etiny in
          if e <? exp_min then
            let c1 := round_to c e exp_min in
            let '(c2, e2) :=
              if ndigits c1 >? prec then ((c1 / 10)%N, exp_min + 1)
              else (c1, exp_min) in
            if e2 >? Etop then Raise Overflow else Ok (Fin s c2 e2)
          else Ok d
  end.

(** [Decimal._rescale] with ROUND_HALF_EVEN, on a finite number. *)
Definition rescale (s : bool) (c : N) (e : Z) (exp : Z) : Decimal :=
  if (c =? 0)%N then Fin s 0 exp
  else if e >=? exp then Fin s (c * pow10 (e - exp))%N exp
  else Fin s (round_to c e exp) exp.

(** The value of a finite number as a rational; 0 for the special values. *)
Definition dec_Q (d : Decimal) : Q :=
  match d with
  | Fin s c e =>
      (inject_Z (if s then - Z.of_N c else Z.of_N c) * Qpower (10 # 1) e)%Q
  | _ => 0%Q
  end.

(** [Decimal._cmp]: numerical comparison; infinities sit at the two ends. *)
Definition dec_cmp (a b : Decimal) : comparison :=
  if is_special a || is_special b
  then Z.compare (isinfinity a) (isinfinity b)
  else Qcompare (dec_Q a) (dec_Q b).

(** [_compare_check_nans] followed by [_cmp]: the ordering operators raise
    on any NaN. *)
Definition compare_checked (a b : Decimal) : result comparison :=
  if is_nan a || is_nan b then Raise (InvalidOperation NaNComparison)
  else Ok (dec_cmp a b).

Definition dec_ltb (a b : Decimal) : result bool :=
  c ← compare_checked a b; Ok (match c with Lt => true | _ => false end).

Definition dec_gtb (a b : Decimal) : result bool :=
  c ← compare_checked a b; Ok (match c with Gt => true | _ => false end).

(** [Decimal.__eq__]: a quiet NaN is unequal to everything, sNaN raises. *)
Definition dec_eqb (a b : Decimal) : result bool :=
  match check_nans a b with
  | Some (Raise e) => Raise e
  | Some (Ok _) => Ok false
  | None => Ok (match dec_cmp a b with Eq => true | _ => false end)
  end.

(** [_normalize(op1, op2, prec)] of the addition: both coefficients at one
    exponent; an operand far below the other is replaced by a sticky 1. *)
Definition normalize_ops (c1 : N) (e1 : Z) (c2 : N) (e2 : Z)
  : (N * N) * Z :=
  let swap := e1 <? e2 in
  let '(tc, te, oc, oe) := if swap then (c2, e2, c1, e1) else (c1, e1, c2, e2) in
  let exp := te + Z.min (-1) (ndigits tc - prec - 2) in
  let '(oc, oe) := if ndigits oc + oe - 1 <? exp then (1%N, exp) else (oc, oe) in
  let tc := (tc * pow10 (te - oe))%N in
  if swap then ((oc, tc), oe) else ((tc, oc), oe).

(** [Decimal.__add__]. *)
Definition dec_add (a b : Decimal) : result Decimal :=
  match check_nans a b with
  | Some r => r
  | None =>
      match a, b with
      | Inf sa, Inf sb =>
          if Bool.eqb sa sb then Ok a else Raise (InvalidOperation InfMinusInf)
      | Inf _, _ => Ok a
      | _, Inf _ => Ok b
      | Fin s1 c1 e1, Fin s2 c2 e2 =>
          let exp := Z.min e1 e2 in
          if (c1 =? 0)%N && (c2 =? 0)%N then dec_fix (Fin (s1 && s2) 0 exp)
          else if (c1 =? 0)%N
          then dec_fix (rescale s2 c2 e2 (Z.max exp (e2 - prec - 1)))
          else if (c2 =? 0)%N
          then dec_fix (rescale s1 c1 e1 (Z.max exp (e1 - prec - 1)))
          else
            let '((n1, n2), e) := normalize_ops c1 e1 c2 e2 in
            if Bool.eqb s1 s2 then dec_fix (Fin s1 (n1 + n2)%N e)
            else if (n1 =? n2)%N then dec_fix (Fin false 0 exp)
            else if (n1 <? n2)%N then dec_fix (Fin s2 (n2 - n1)%N e)
            else dec_fix (Fin s1 (n1 - n2)%N e)
      | _, _ => Ok a
      end
  end.

(** [Decimal.__sub__]. *)
Definition dec_sub (a b : Decimal) : result Decimal :=
  match check_nans a b with
  | Some r => r
  | None => dec_add a (copy_negate b)
  end.

(** [Decimal.__mul__]. *)
Definition dec_mul (a b : Decimal) : result Decimal :=
  match check_nans a b with
  | Some r => r
  | None =>
      match a, b with
      | Inf sa, Inf sb => Ok (Inf (xorb sa sb))
      | Inf sa, Fin sb cb _ =>
          if (cb =? 0)%N then Raise (InvalidOperation InfTimesZero)
          else Ok (Inf (xorb sa sb))
      | Fin sa ca _, Inf sb =>
          if (ca =? 0)%N then Raise (InvalidOperation InfTimesZero)
          else Ok (Inf (xorb sa sb))
      | Fin s1 c1 e1, Fin s2 c2 e2 =>
          dec_fix (Fin (xorb s1 s2) (c1 * c2)%N (e1 + e2))
      | _, _ => Ok a
      end
  end.

(** The exact-quotient loop of [__truediv__]: strip trailing zeros while the
    exponent is below the ideal one. *)
Fixpoint div_reduce (fuel : nat) (coeff : N) (exp : Z) : N * Z :=
  match fuel with
  | O => (coeff, exp)
  | S f =>
      if (coeff mod 10 =? 0)%N then div_reduce f (coeff / 10)%N (exp + 1)
      else (coeff, exp)
  end.

(** [Decimal.__truediv__]. *)
Definition dec_div (a b : Decimal) : result Decimal :=
  match check_nans a b with
  | Some r => r
  | None =>
      match a, b with
      | Inf _, Inf _ => Raise (InvalidOperation InfDivInf)
      | Inf sa, Fin sb _ _ => Ok (Inf (xorb sa sb))
      | Fin sa _ _, Inf sb => Ok (Fin (xorb sa sb) 0 Etiny)
      | Fin s1 c1 e1, Fin s2 c2 e2 =>
          let sign := xorb s1 s2 in
          if (c2 =? 0)%N then
            if (c1 =? 0)%N then Raise (InvalidOperation DivisionUndefined)
            else Raise DivisionByZero
          else if (c1 =? 0)%N then dec_fix (Fin sign 0 (e1 - e2))
          else
            let shift := ndigits c2 - ndigits c1 + prec + 1 in
            let exp := e1 - e2 - shift in
            let '(coeff, remainder) :=
              if 0 <=? shift
              then ((c1 * pow10 shift) / c2, (c1 * pow10 shift) mod c2)%N
              else (c1 / (c2 * pow10 (- shift)), c1 mod (c2 * pow10 (- shift)))%N in
            if (remainder =? 0)%N then
              let '(coeff, exp) := div_reduce (Z.to_nat (e1 - e2 - exp)) coeff exp in
              dec_fix (Fin sign coeff exp)
            else
              let coeff := if (coeff mod 5 =? 0)%N then (coeff + 1)%N else coeff in
              dec_fix (Fin sign coeff exp)
      | _, _ => Ok a
      end
  end.

(** [Decimal.quantize(exp)] with the context rounding. *)
Definition quantize (a q : Decimal) : result Decimal :=
  match check_nans a q with
  | Some r => r
  | None =>
      match a, q with
      | Inf _, Inf _ => Ok a
      | Inf _, _ | _, Inf _ => Raise (InvalidOperation QuantizeInf)
      | Fin s c e, Fin _ _ qe =>
          if negb ((Etiny <=? qe) && (qe <=? Emax))
          then Raise (InvalidOperation QuantizeRange)
          else if (c =? 0)%N then dec_fix (Fin s 0 qe)
          else if adjusted c e >? Emax then Raise (InvalidOperation QuantizeRange)
          else if adjusted c e - qe + 1 >? prec
          then Raise (InvalidOperation QuantizePrecision)
          else
            match rescale s c e qe with
            | Fin s' c' e' =>
                if adjusted c' e' >? Emax then Raise (InvalidOperation QuantizeRange)
                else if ndigits c' >? prec
                then Raise (InvalidOperation QuantizePrecision)
                else dec_fix (Fin s' c' e')
            | other => Ok other
            end
      | _, _ => Ok a
      end
  end.

(** [Decimal.to_integral_value()]. *)
Definition to_integral (a : Decimal) : result Decimal :=
  match check_nans1 a with
  | Some r => r
  | None =>
      match a with
      | Fin s c e => if 0 <=? e then Ok a else Ok (rescale s c e 0)
      | _ => Ok a
      end
  end.

(** The loop of [normalize]: drop trailing zeros of the coefficient while
    the exponent stays below [Emax]. *)
Fixpoint strip_zeros (fuel : nat) (c : N) (e : Z) : N * Z :=
  match fuel with
  | O => (c, e)
  | S f =>
      if (c mod 10 =? 0)%N && (e <? Emax) then strip_zeros f (c / 10)%N (e + 1)
      else (c, e)
  end.

(** [Decimal.normalize()]. *)
Definition normalize (a : Decimal) : result Decimal :=
  match check_nans1 a with
  | Some r => r
  | None =>
      dup ← dec_fix a;
      match dup with
      | Fin s c e =>
          if (c =? 0)%N then Ok (Fin s 0 0)
          else let '(c', e') := strip_zeros (Z.to_nat (ndigits c)) c e in
               Ok (Fin s c' e')
      | _ => Ok dup
      end
  end.

(** [Decimal.is_normal()]. *)
Definition is_normal (a : Decimal) : bool :=
  match a with
  | Fin _ c e => negb (c =? 0)%N && (Emin <=? adjusted c e)
  | _ => false
  end.

(** *** Text form *)

Definition digits (n : N) : string := NilEmpty.string_of_uint (N.to_uint n).

Fixpoint zeros (k : nat) : string :=
  match k with
  | O => EmptyString
  | S k' => String "0"%char (zeros k')
  end.

Definition sign_str (s : bool) : string := if s then "-"%string else ""%string.

(** ["%+d" % z]. *)
Definition signed_str (z : Z) : string :=
  let mark := if z <? 0 then "-"%string else "+"%string in
  (mark ++ digits (Z.abs_N z))%string.

(** [Decimal.__str__]: scientific notation only for a positive exponent or
    more than six leading fractional zeros. *)
Definition dec_str (d : Decimal) : string :=
  match d with
  | Inf s => (sign_str s ++ "Infinity")%string
  | NaN s sg p =>
      (sign_str s ++ (if sg then "sNaN" else "NaN")
                  ++ (if (p =? 0)%N then "" else digits p))%string
  | Fin s c e =>
      let int_ := digits c in
      let len := Z.of_nat (String.length int_) in
      let leftdigits := e + len in
      let dotplace := if (e <=? 0) && (-6 <? leftdigits) then leftdigits else 1 in
      let intpart :=
        if dotplace <=? 0 then "0"%string
        else if len <=? dotplace
        then (int_ ++ zeros (Z.to_nat (dotplace - len)))%string
        else substring 0 (Z.to_nat dotplace) int_ in
      let fracpart :=
        if dotplace <=? 0 then ("." ++ zeros (Z.to_nat (- dotplace)) ++ int_)%string
        else if len <=? dotplace then ""%string
        else ("." ++ substring (Z.to_nat dotplace) (Z.to_nat (len - dotplace)) int_)%string in
      let exp :=
        if leftdigits =? dotplace then ""%string
        else ("E" ++ signed_str (leftdigits - dotplace))%string in
      (sign_str s ++ intpart ++ fracpart ++ exp)%string
  end.

(** *** Conversion of a float *)

(** Divide [m] by two up to [k] times; the count left over is returned. *)
Fixpoint halve (m : positive) (k : nat) : positive * nat :=
  match k, m with
  | S k', xO p => halve p k'
  | _, _ => (m, k)
  end.

(** [Decimal(f)] for a binary64 float: exact, through
    [f.as_integer_ratio()] = n / 2^k in lowest terms. *)
Definition from_float (f : float) : Decimal :=
  match Prim2SF f with
  | S754_zero s => Fin s 0 0
  | S754_infinity s => Inf s
  | S754_nan => NaN false false 0
  | S754_finite s m e =>
      if 0 <=? e then Fin s (Npos m * 2 ^ Z.to_N e)%N 0
      else
        let '(n, k) := halve m (Z.to_nat (- e)) in
        Fin s (Npos n * 5 ^ N.of_nat k)%N (- Z.of_nat k)
  end.

(** ** Formatting helper *)

(** Modelled from the spec: [remove_exponent] of the agent's [utils] module,
    which is imported by [stats.py] and is not among the sources.  The spec
    describes its effect as stripping trailing zeros while never producing
    exponent notation; this is the standard recipe of the [decimal]
    documentation: an integral value is quantized to exponent 0, any other
    value is normalized. *)
Definition remove_exponent (num : Decimal) : result Decimal :=
  i ← to_integral num;
  same ← dec_eqb num i;
  if same : bool then quantize num (of_int 1) else normalize num.

(** [remove_exponent(d.quantize(q))]: quantize to the places of [q], then
    strip the exponent. *)
Definition formatted (q d : Decimal) : result Decimal :=
  y ← quantize d q; remove_exponent y.

(** [str(remove_exponent(d.quantize(q)))], the formatting applied to every
    serialized number. *)
Definition format_decimal (q d : Decimal) : result string :=
  z ← formatted q d; Ok (dec_str z).

(** [Decimal('0.000')] and [Decimal('0.00')]. *)
Definition q_000 : Decimal := Fin false 0 (-3).
Definition q_00 : Decimal := Fin false 0 (-2).

(** ** The monotonic clock *)

(** [time.perf_counter()] is an oracle: the [ticks]-th call returns
    [reading ticks]. *)
Record Clock : Type := { ticks : nat; reading : nat -> float }.

Definition perf_counter (c : Clock) : float * Clock :=
  (reading c (ticks c), {| ticks := S (ticks c); reading := reading c |}).

(** ** Builtins *)

(** [min(a, b)]: the second argument wins only if it is smaller. *)
Definition py_min (a b : Decimal) : result Decimal :=
  lt ← dec_ltb b a; Ok (if lt : bool then b else a).

(** [max(a, b)]: the second argument wins only if it is greater. *)
Definition py_max (a b : Decimal) : result Decimal :=
  gt ← dec_gtb b a; Ok (if gt : bool then b else a).

(** Values of the serialized dictionaries. *)
Inductive pyval : Type :=
| PStr (s : string)
| PInt (z : Z)
| PNone.

(** A dictionary literal in insertion order. *)
Definition pydict : Type := list (string * pyval).

Fixpoint dict_get (k : string) (d : pydict) : option pyval :=
  match d with
  | [] => None
  | (k', v) :: rest => if String.eqb k k' then Some v else dict_get k rest
  end.

(** ** Measurements *)

Inductive MetricTypes : Type := USAGE | RATE | UTILIZATION | ACCUMULATED.

Module Measurement.
Record t : Type := mk { value : Decimal; capacity : option Decimal }.
End Measurement.

(** ** MovingStatistics *)

Module MovingStatistics.

Record t : Type := mk {
  _sum : Decimal;
  _count : Z;
  _min : Decimal;
  _max : Decimal;
  _last : list (Decimal * float)
}.

(** [__init__(initial_value)]; the clock is read only for a seeded
    accumulator. *)
Definition init (initial_value : option Decimal) (clk : Clock) : t * Clock :=
  match initial_value with
  | None => (mk (of_int 0) 0 (Inf false) (Inf true) [], clk)
  | Some v =>
      let '(now, clk') := perf_counter clk in
      (mk v 1 v v [(v, now)], clk')
  end.

(** [update(value)].  The fields are assigned one after the other, so an
    exception leaves the earlier assignments in place. *)
Definition update (self : t) (value : Decimal) (clk : Clock)
  : (t * Clock) * result unit :=
  match dec_add (_sum self) value with
  | Raise e => ((self, clk), Raise e)
  | Ok s =>
      let self1 := mk s (_count self) (_min self) (_max self) (_last self) in
      match py_min (_min self1) value with
      | Raise e => ((self1, clk), Raise e)
      | Ok mn =>
          let self2 := mk s (_count self) mn (_max self) (_last self) in
          match py_max (_max self2) value with
          | Raise e => ((self2, clk), Raise e)
          | Ok mx =>
              let '(now, clk') := perf_counter clk in
              let last := _last self ++ [(value, now)] in
              let last := if (2 <? length last)%nat then tail last else last in
              ((mk s (_count self + 1) mn mx last, clk'), Ok tt)
          end
      end
  end.

Definition min (self : t) : Decimal := _min self.
Definition max (self : t) : Decimal := _max self.
Definition sum (self : t) : Decimal := _sum self.

(** [self._sum / self._count], unguarded. *)
Definition avg (self : t) : result Decimal :=
  dec_div (_sum self) (of_int (_count self)).

Definition diff (self : t) : result Decimal :=
  match _last self with
  | [p1; p2] => dec_sub (fst p2) (fst p1)
  | _ => Ok (of_int 0)
  end.

Definition rate (self : t) : result Decimal :=
  match _last self with
  | [p1; p2] =>
      d ← dec_sub (fst p2) (fst p1);
      dec_div d (from_float (PrimFloat.sub (snd p2) (snd p1)))
  | _ => Ok (of_int 0)
  end.

Definition to_serializable_dict (self : t) : result pydict :=
  let q := q_000 in
  mn ← format_decimal q (min self);
  mx ← format_decimal q (max self);
  sm ← format_decimal q (sum self);
  a ← avg self;
  av ← format_decimal q a;
  d ← diff self;
  df ← format_decimal q d;
  r ← rate self;
  rt ← format_decimal q r;
  Ok [("min", PStr mn); ("max", PStr mx); ("sum", PStr sm);
      ("avg", PStr av); ("diff", PStr df); ("rate", PStr rt);
      ("version", PInt 2)]%string.

End MovingStatistics.

(** ** Metric *)

Module Metric.

(** What a [current_hook] can read of the metric it is called on: every
    field but the hook itself. *)
Record view : Type := mk_view {
  v_key : string;
  v_type : MetricTypes;
  v_stats : MovingStatistics.t;
  v_stats_filter : gset string;
  v_current : Decimal;
  v_capacity : option Decimal;
  v_unit_hint : option string
}.

Record t : Type := mk {
  key : string;
  type : MetricTypes;
  stats : MovingStatistics.t;
  stats_filter : gset string;
  current : Decimal;
  capacity : option Decimal;
  unit_hint : option string;
  current_hook : option (view -> result Decimal)
}.

Definition view_of (self : t) : view :=
  mk_view (key self) (type self) (stats self) (stats_filter self)
          (current self) (capacity self) (unit_hint self).

(** [update(value)]: capacity, then the statistics, then [current], then
    the hook; an exception keeps what was assigned before it. *)
Definition update (self : t) (value : Measurement.t) (clk : Clock)
  : (t * Clock) * result unit :=
  let cap :=
    match Measurement.capacity value with
    | Some c => Some c
    | None => capacity self
    end in
  let '((st, clk'), r) :=
    MovingStatistics.update (stats self) (Measurement.value value) clk in
  let self1 := mk (key self) (type self) st (stats_filter self)
                  (current self) cap (unit_hint self) (current_hook self) in
  match r with
  | Raise e => ((self1, clk'), Raise e)
  | Ok _ =>
      let self2 := mk (key self) (type self) st (stats_filter self)
                      (Measurement.value value) cap (unit_hint self)
                      (current_hook self) in
      match current_hook self with
      | None => ((self2, clk'), Ok tt)
      | Some hook =>
          match hook (view_of self2) with
          | Raise e => ((self2, clk'), Raise e)
          | Ok c =>
              ((mk (key self) (type self) st (stats_filter self) c cap
                   (unit_hint self) (current_hook self), clk'), Ok tt)
          end
      end
  end.

(** The ['capacity'] entry. *)
Definition capacity_field (self : t) : result pyval :=
  match capacity self with
  | Some c => s ← format_decimal q_000 c; Ok (PStr s)
  | None => Ok PNone
  end.

(** The guard of the ['pct'] entry: [capacity is not None and
    capacity.is_normal() and capacity > 0], evaluated left to right. *)
Definition pct_guard (self : t) : result bool :=
  match capacity self with
  | None => Ok false
  | Some c => if is_normal c then dec_gtb c (of_int 0) else Ok false
  end.

(** [(Decimal(current) / Decimal(capacity) * 100).quantize(q_pct)],
    formatted. *)
Definition pct_value (cur cap : Decimal) : result string :=
  x ← dec_div cur cap;
  y ← dec_mul x (of_int 100);
  format_decimal q_00 y.

(** The ['pct'] entry. *)
Definition pct_field (self : t) : result pyval :=
  g ← pct_guard self;
  if g : bool then
    match capacity self with
    | Some c => s ← pct_value (current self) c; Ok (PStr s)
    | None => Ok PNone
    end
  else Ok PNone.

Definition opt_str (o : option string) : pyval :=
  match o with Some s => PStr s | None => PNone end.

(** The entries of the statistics that pass [stats_filter], renamed
    [stats.<field>]. *)
Definition filtered_stats (filter : gset string) (d : pydict) : pydict :=
  map (fun '(k, v) => (("stats." ++ k)%string, v))
      (List.filter (fun '(k, _) => bool_decide (k ∈ filter)) d).

Definition to_serializable_dict (self : t) : result pydict :=
  cur ← format_decimal q_000 (current self);
  cap ← capacity_field self;
  pct ← pct_field self;
  st ← MovingStatistics.to_serializable_dict (stats self);
  Ok ([("current", PStr cur); ("capacity", cap); ("pct", pct);
       ("unit_hint", opt_str (unit_hint self))]%string
      ++ filtered_stats (stats_filter self) st).

End Metric.

(** ** Batches returned by the measurement sources *)

(** Identifiers are strings: [MetricKey], [DeviceId] (after [str(dev_id)]),
    [ContainerId] and [KernelId]. *)
Abbreviation MetricKey := string.
Abbreviation DeviceId := string.
Abbreviation ContainerId := string.
Abbreviation KernelId := string.

Module NodeMeasurement.
Record t : Type := mk {
  key : MetricKey;
  type : MetricTypes;
  per_node : Measurement.t;
  per_device : list (DeviceId * Measurement.t);   (* in [items()] order *)
  unit_hint : option string;
  stats_filter : gset string;
  current_hook : option (Metric.view -> result Decimal)
}.
End NodeMeasurement.

Module ContainerMeasurement.
Record t : Type := mk {
  key : MetricKey;
  type : MetricTypes;
  per_container : list (ContainerId * Measurement.t);   (* in [items()] order *)
  unit_hint : option string;
  stats_filter : gset string;
  current_hook : option (Metric.view -> result Decimal)
}.
End ContainerMeasurement.

(** What [asyncio.gather(..., return_exceptions=True)] yields, one outcome
    per compute plugin; the container operation is asked about a list of
    container ids. *)
Record Sources : Type := {
  gather_node_measures : list (result (list NodeMeasurement.t));
  gather_container_measures :
    list ContainerId -> list (result (list ContainerMeasurement.t))
}.

(** [agent.kernel_registry.items()], each kernel object reduced to its
    ['container_id']. *)
Definition Registry : Type := list (KernelId * ContainerId).

(** A [for] loop whose body may raise: the exception leaves the loop with
    the state reached so far. *)
Fixpoint for_each {S A : Type} (body : A -> S -> S * result unit)
         (l : list A) (s : S) : S * result unit :=
  match l with
  | [] => (s, Ok tt)
  | x :: rest =>
      match body x s with
      | (s', Ok _) => for_each body rest s'
      | (s', Raise e) => (s', Raise e)
      end
  end.

(** The fan-in loop: an outcome that is an exception is logged and
    skipped. *)
Definition for_each_gathered {S A : Type} (body : A -> S -> S * result unit)
           (outcomes : list (result (list A))) (s : S) : S * result unit :=
  for_each (fun outcome s =>
              match outcome with
              | Raise _ => (s, Ok tt)
              | Ok measures => for_each body measures s
              end) outcomes s.

(** ** StatContext *)

Module StatContext.

Record t : Type := mk {
  node_metrics : gmap MetricKey Metric.t;
  device_metrics : gmap MetricKey (gmap DeviceId Metric.t);
  kernel_metrics : gmap KernelId (gmap MetricKey Metric.t)
}.

(** The tables after [__init__]. *)
Definition init : t := mk ∅ ∅ ∅.

(** The context together with the clock it reads. *)
Definition state : Type := t * Clock.

(** Lines 288-299: create or update [node_metrics[metric_key]]. *)
Definition update_node_metric (node_measure : NodeMeasurement.t)
  : state -> state * result unit := fun '(ctx, clk) =>
  let metric_key := NodeMeasurement.key node_measure in
  let per_node := NodeMeasurement.per_node node_measure in
  match node_metrics ctx !! metric_key with
  | None =>
      let '(st, clk') :=
        MovingStatistics.init (Some (Measurement.value per_node)) clk in
      let m := Metric.mk metric_key (NodeMeasurement.type node_measure) st
                 (NodeMeasurement.stats_filter node_measure)
                 (Measurement.value per_node)
                 (Measurement.capacity per_node)
                 (NodeMeasurement.unit_hint node_measure)
                 (NodeMeasurement.current_hook node_measure) in
      ((mk (<[metric_key := m]> (node_metrics ctx))
           (device_metrics ctx) (kernel_metrics ctx), clk'), Ok tt)
  | Some m =>
      let '((m', clk'), r) := Metric.update m per_node clk in
      ((mk (<[metric_key := m']> (node_metrics ctx))
           (device_metrics ctx) (kernel_metrics ctx), clk'), r)
  end.

(** Lines 303-317: create or update
    [device_metrics[metric_key][dev_id]]. *)
Definition update_device_metric (node_measure : NodeMeasurement.t)
           (item : DeviceId * Measurement.t)
  : state -> state * result unit := fun '(ctx, clk) =>
  let metric_key := NodeMeasurement.key node_measure in
  let '(dev_id, measure) := item in
  let per_device := default ∅ (device_metrics ctx !! metric_key) in
  match per_device !! dev_id with
  | None =>
      let '(st, clk') :=
        MovingStatistics.init (Some (Measurement.value measure)) clk in
      let m := Metric.mk metric_key (NodeMeasurement.type node_measure) st
                 (NodeMeasurement.stats_filter node_measure)
                 (Measurement.value measure)
                 (Measurement.capacity measure)
                 (NodeMeasurement.unit_hint node_measure)
                 (NodeMeasurement.current_hook node_measure) in
      ((mk (node_metrics ctx)
           (<[metric_key := <[dev_id := m]> per_device]> (device_metrics ctx))
           (kernel_metrics ctx), clk'), Ok tt)
  | Some m =>
      let '((m', clk'), r) := Metric.update m measure clk in
      ((mk (node_metrics ctx)
           (<[metric_key := <[dev_id := m']> per_device]> (device_metrics ctx))
           (kernel_metrics ctx), clk'), r)
  end.

(** Lines 286-317: the body of [for node_measure in node_measures]. *)
Definition merge_node_measure (node_measure : NodeMeasurement.t)
  : state -> state * result unit := fun s =>
  match update_node_metric node_measure s with
  | (s', Raise e) => (s', Raise e)
  | (s', Ok _) =>
      for_each (update_device_metric node_measure)
               (NodeMeasurement.per_device node_measure) s'
  end.

(** Lines 345-358 and, word for word, 422-435: create or update
    [kernel_metrics[kernel_id][metric_key]].  A new metric takes the
    measured value as its capacity. *)
Definition update_kernel_metric (ctnr_measure : ContainerMeasurement.t)
           (kernel_id : KernelId) (measure : Measurement.t)
  : state -> state * result unit := fun '(ctx, clk) =>
  let metric_key := ContainerMeasurement.key ctnr_measure in
  let metrics := default ∅ (kernel_metrics ctx !! kernel_id) in
  match metrics !! metric_key with
  | None =>
      let '(st, clk') :=
        MovingStatistics.init (Some (Measurement.value measure)) clk in
      let m := Metric.mk metric_key (ContainerMeasurement.type ctnr_measure) st
                 (ContainerMeasurement.stats_filter ctnr_measure)
                 (Measurement.value measure)
                 (Some (Measurement.value measure))
                 (ContainerMeasurement.unit_hint ctnr_measure)
                 (ContainerMeasurement.current_hook ctnr_measure) in
      ((mk (node_metrics ctx) (device_metrics ctx)
           (<[kernel_id := <[metric_key := m]> metrics]> (kernel_metrics ctx)),
        clk'), Ok tt)
  | Some m =>
      let '((m', clk'), r) := Metric.update m measure clk in
      ((mk (node_metrics ctx) (device_metrics ctx)
           (<[kernel_id := <[metric_key := m']> metrics]> (kernel_metrics ctx)),
        clk'), r)
  end.

(** Lines 323-327: [kernel_id_map]; a later registry entry overwrites an
    earlier one with the same container id. *)
Definition build_kernel_id_map (registry : Registry) : gmap ContainerId KernelId :=
  foldl (fun m '(kid, cid) => <[cid := kid]> m) ∅ registry.

Definition container_ids_of (registry : Registry) : list ContainerId :=
  map snd registry.

Definition used_kernel_ids_of (registry : Registry) : gset KernelId :=
  list_to_set (map fst registry).

(** Lines 328-331: pop every kernel id that is not in the registry. *)
Definition prune (registry : Registry) (ctx : t) : t :=
  let unused_kernel_ids := dom (kernel_metrics ctx) ∖ used_kernel_ids_of registry in
  mk (node_metrics ctx) (device_metrics ctx)
     (foldr delete (kernel_metrics ctx) (elements unused_kernel_ids)).

(** Lines 343-358: one item of [per_container] in the full round.  The
    lookup [kernel_id_map[cid]] is not guarded. *)
Definition merge_container_item_full (kernel_id_map : gmap ContainerId KernelId)
           (ctnr_measure : ContainerMeasurement.t)
           (item : ContainerId * Measurement.t)
  : state -> state * result unit := fun s =>
  let '(cid, measure) := item in
  match kernel_id_map !! cid with
  | None => (s, Raise KeyError)
  | Some kernel_id => update_kernel_metric ctnr_measure kernel_id measure s
  end.

(** Lines 276-317: the node and device phase. *)
Definition merge_node_phase (src : Sources) : state -> state * result unit :=
  for_each_gathered merge_node_measure (gather_node_measures src).

(** Lines 332-358: the container phase of the full round. *)
Definition merge_container_phase (src : Sources) (registry : Registry)
  : state -> state * result unit :=
  let kernel_id_map := build_kernel_id_map registry in
  for_each_gathered
    (fun ctnr_measure =>
       for_each (merge_container_item_full kernel_id_map ctnr_measure)
                (ContainerMeasurement.per_container ctnr_measure))
    (gather_container_measures src (container_ids_of registry)).

(** [collect_node_stat], the block under [self._lock] (lines 275-358).
    The publication to the cache that follows does not touch the
    tables. *)
Definition collect_node_stat (src : Sources) (registry : Registry)
  : state -> state * result unit := fun s =>
  match merge_node_phase src s with
  | (s1, Raise e) => (s1, Raise e)
  | ((ctx1, clk1), Ok _) =>
      merge_container_phase src registry (prune registry ctx1, clk1)
  end.

(** The state of the single-container round: the tables, the clock and
    the local variable [kernel_id]. *)
Definition single_state : Type := state * option KernelId.

(** Lines 416-435: one item of [per_container] in the single-container
    round; [KeyError] is caught and the item skipped. *)
Definition merge_container_item_single (kernel_id_map : gmap ContainerId KernelId)
           (container_id : ContainerId)
           (ctnr_measure : ContainerMeasurement.t)
           (item : ContainerId * Measurement.t)
  : single_state -> single_state * result unit := fun '(s, kernel_id) =>
  let '(cid, measure) := item in
  if negb (String.eqb cid container_id) then ((s, kernel_id), Raise AssertionError)
  else
    match kernel_id_map !! cid with
    | None => ((s, kernel_id), Ok tt)
    | Some kid =>
        let '(s', r) := update_kernel_metric ctnr_measure kid measure s in
        ((s', Some kid), r)
    end.

(** [collect_container_stat], the block under [self._lock]
    (lines 397-435); the result is the final value of [kernel_id]. *)
Definition collect_container_stat (src : Sources) (registry : Registry)
           (container_id : ContainerId)
  : state -> state * result (option KernelId) := fun s =>
  let kernel_id_map := build_kernel_id_map registry in
  let '((s', kernel_id), r) :=
    for_each_gathered
      (fun ctnr_measure =>
         for_each (merge_container_item_single kernel_id_map container_id
                                               ctnr_measure)
                  (ContainerMeasurement.per_container ctnr_measure))
      (gather_container_measures src [container_id])
      (s, None) in
  (s', _ ← r; Ok kernel_id).

(** Lines 437-455: what [collect_container_stat] returns once the payload
    is written: the kernel's table, or an empty mapping. *)
Definition returned_metrics (ctx : t) (kernel_id : option KernelId)
  : gmap MetricKey Metric.t :=
  match kernel_id with
  | Some kid => default ∅ (kernel_metrics ctx !! kid)
  | None => ∅
  end.

(** [update_timestamp(timestamp_key)] (lines 253-267), on the dictionary
    [self._timestamps] and the clock: the reading and the interval since
    the reading recorded for the key, NaN when there is none. *)
Definition update_timestamp (timestamps : gmap string float)
           (timestamp_key : string) (clk : Clock)
  : (gmap string float * Clock) * (float * float) :=
  let '(now, clk') := perf_counter clk in
  let last := timestamps !! timestamp_key in
  let timestamps' := <[timestamp_key := now]> timestamps in
  match last with
  | None => ((timestamps', clk'), (now, PrimFloat.nan))
  | Some last => ((timestamps', clk'), (now, PrimFloat.sub now last))
  end.

(** Lines 437-438 and 455: the mapping [collect_container_stat] goes on
    with, [self.kernel_metrics[kernel_id]] (a lookup that raises [KeyError]
    for a missing key), or an empty mapping when there is no kernel id. *)
Definition kernel_table (ctx : t) (kernel_id : option KernelId)
  : result (gmap MetricKey Metric.t) :=
  match kernel_id with
  | Some kid =>
      match kernel_metrics ctx !! kid with
      | Some metrics => Ok metrics
      | None => Raise KeyError
      end
  | None => Ok ∅
  end.

End StatContext.

(** * Vocabulary of the properties and example inputs *)

(** The metric stored for a kernel id and metric key, if any. *)
Definition kernel_metric (ctx : StatContext.t) (kernel_id : KernelId)
           (metric_key : MetricKey) : option Metric.t :=
  default ∅ (StatContext.kernel_metrics ctx !! kernel_id) !! metric_key.

(** The metric stored for a metric key and device id, if any. *)
Definition device_metric (ctx : StatContext.t) (metric_key : MetricKey)
           (dev_id : DeviceId) : option Metric.t :=
  default ∅ (StatContext.device_metrics ctx !! metric_key) !! dev_id.

(** A clock for the examples: the n-th reading is n seconds. *)
Definition example_clock : Clock :=
  {| ticks := 0; reading := fun n => PrimFloat.of_uint63 (Uint63.of_Z (Z.of_nat n)) |}.

(** A container batch for the examples: one metric, given samples. *)
Definition example_batch (items : list (ContainerId * Measurement.t))
  : ContainerMeasurement.t :=
  ContainerMeasurement.mk "mem" USAGE items (Some "bytes"%string) ∅ None.

(** Feed a sequence of values, each at the next clock reading. *)
Definition feed (self : MovingStatistics.t) (values : list Decimal) (clk : Clock)
  : (MovingStatistics.t * Clock) * result unit :=
  for_each (fun v '(s, c) => MovingStatistics.update s v c) values (self, clk).

(** The metric a step stores is either new, seeded with the measured value,
    or the stored one after [Metric.update]. *)
Definition stored_by (old : option Metric.t) (measure : Measurement.t)
           (clk : Clock) (m' : Metric.t) : Prop :=
  match old with
  | None =>
      Metric.stats m'
      = fst (MovingStatistics.init (Some (Measurement.value measure)) clk)
  | Some m => m' = fst (fst (Metric.update m measure clk))
  end.


(** A source for the examples: no node batch, one container batch with the
    given samples whatever ids it is asked about. *)
Definition example_source (items : list (ContainerId * Measurement.t)) : Sources :=
  {| gather_node_measures := [];
     gather_container_measures := fun _ => [Ok [example_batch items]] |}.

(** The tables after a first full round in which kernel k0 ran container
    c0. *)
Definition tables_with_k0 : StatContext.state :=
  fst (StatContext.collect_node_stat
         (example_source [("c0"%string, Measurement.mk (of_int 1) None)])
         [("k0"%string, "c0"%string)]
         (StatContext.init, example_clock)).

Definition counted (m : Metric.t) : Prop :=
  1 <= MovingStatistics._count (Metric.stats m).

(** [m] is stored in one of the three tables. *)
Definition resident (ctx : StatContext.t) (m : Metric.t) : Prop :=
  (exists k, StatContext.node_metrics ctx !! k = Some m) \/
  (exists k d, device_metric ctx k d = Some m) \/
  (exists kid k, kernel_metric ctx kid k = Some m).

Definition all_counted (ctx : StatContext.t) : Prop :=
  forall m, resident ctx m -> counted m.

(** The tables a context can hold: empty at construction, then changed by
    rounds of either kind, with any sources, registry and clock, whether the
    round returns or raises. *)
Inductive reachable : StatContext.t -> Prop :=
| reachable_init : reachable StatContext.init
| reachable_node_round (src : Sources) (registry : Registry)
                       (ctx : StatContext.t) (clk : Clock) :
    reachable ctx ->
    reachable (fst (fst (StatContext.collect_node_stat src registry (ctx, clk))))
| reachable_container_round (src : Sources) (registry : Registry)
                            (container_id : ContainerId)
                            (ctx : StatContext.t) (clk : Clock) :
    reachable ctx ->
    reachable (fst (fst (StatContext.collect_container_stat
                           src registry container_id (ctx, clk)))).

(** The guard of the [pct] entry: a capacity that is present, normal and
    greater than zero. *)
Definition usable_capacity (m : Metric.t) : Prop :=
  exists c, Metric.capacity m = Some c /\ is_normal c = true /\
            dec_cmp c (of_int 0) = Gt.

(** A seeded metric for the examples. *)
Definition example_metric (cur : Decimal) (cap : option Decimal) : Metric.t :=
  Metric.mk "mem" USAGE
            (fst (MovingStatistics.init (Some cur) example_clock))
            ∅ cur cap (Some "bytes"%string) None.


Definition number (d : Decimal) : Prop := is_nan d = false.




(** The values submitted to an accumulator: the seed, if any, then the
    updates. *)
Definition submitted (seed : option Decimal) (vs : list Decimal) : list Decimal :=
  match seed with
  | Some v => v :: vs
  | None => vs
  end.

(** Construct an accumulator and feed it. *)
Definition run_stats (seed : option Decimal) (vs : list Decimal) (clk : Clock)
  : (MovingStatistics.t * Clock) * result unit :=
  let '(s0, c0) := MovingStatistics.init seed clk in feed s0 vs c0.

(** The exact sum of finite values. *)
Definition sum_Q (values : list Decimal) : Q :=
  fold_right (fun v acc => (dec_Q v + acc)%Q) 0%Q values.


(** Expose the constants of the context to [lia]. *)
Ltac ctx_consts := unfold Etiny, Etop, Emax, Emin, prec in *.

(** Name every digit count, so that [lia] sees it as a variable. *)
Ltac name_ndigits :=
  repeat match goal with
         | H : context [ndigits ?x] |- _ =>
             let d := fresh "d" in set (d := ndigits x) in *; clearbody d
         | |- context [ndigits ?x] =>
             let d := fresh "d" in set (d := ndigits x) in *; clearbody d
         end.

(** ** Vocabulary of the further properties *)

(** A number that [quantize] accepts for [places] decimal places: a finite
    number that is zero or keeps its integer digits within the precision, or
    a quiet NaN. *)
Definition quantizable (places : Z) (d : Decimal) : Prop :=
  match d with
  | Fin _ c e => c = 0%N \/ adjusted c e + places < prec
  | Inf _ => False
  | NaN _ sg _ => sg = false
  end.

(** A finite number written with the exponent [e]. *)
Definition aligned (e : Z) (d : Decimal) : Prop :=
  exists s c, d = Fin s c e.

Definition coefficient (d : Decimal) : N :=
  match d with Fin _ c _ => c | _ => 0%N end.

(** The sum of the coefficients, signs left aside. *)
Definition total_coefficient (values : list Decimal) : N :=
  fold_right (fun v acc => (coefficient v + acc)%N) 0%N values.

(** The coefficient with its sign. *)
Definition signed (s : bool) (c : N) : Z := if s then - Z.of_N c else Z.of_N c.

(** The value of the newest retained point. *)
Definition newest (s : MovingStatistics.t) : option Decimal :=
  fst <$> last (MovingStatistics._last s).

(** The keys of the statistics dictionary, in the order of the literal. *)
Definition stat_names : list string :=
  ["min"; "max"; "sum"; "avg"; "diff"; "rate"; "version"]%string.

(** The keys every serialized metric starts with. *)
Definition metric_names : list string :=
  ["current"; "capacity"; "pct"; "unit_hint"]%string.

(** The fields of a metric that [Metric.update] never assigns. *)
Definition same_static (m m' : Metric.t) : Prop :=
  Metric.key m' = Metric.key m /\
  Metric.type m' = Metric.type m /\
  Metric.stats_filter m' = Metric.stats_filter m /\
  Metric.unit_hint m' = Metric.unit_hint m /\
  Metric.current_hook m' = Metric.current_hook m.



(** The metrics the three merge steps create for a key they meet for the
    first time (lines 289-297, 307-315 and 348-356). *)
Definition new_node_metric (nm : NodeMeasurement.t) (clk : Clock) : Metric.t :=
  let per_node := NodeMeasurement.per_node nm in
  Metric.mk (NodeMeasurement.key nm) (NodeMeasurement.type nm)
            (fst (MovingStatistics.init (Some (Measurement.value per_node)) clk))
            (NodeMeasurement.stats_filter nm)
            (Measurement.value per_node) (Measurement.capacity per_node)
            (NodeMeasurement.unit_hint nm) (NodeMeasurement.current_hook nm).

Definition new_device_metric (nm : NodeMeasurement.t) (measure : Measurement.t)
           (clk : Clock) : Metric.t :=
  Metric.mk (NodeMeasurement.key nm) (NodeMeasurement.type nm)
            (fst (MovingStatistics.init (Some (Measurement.value measure)) clk))
            (NodeMeasurement.stats_filter nm)
            (Measurement.value measure) (Measurement.capacity measure)
            (NodeMeasurement.unit_hint nm) (NodeMeasurement.current_hook nm).

Definition new_kernel_metric (cm : ContainerMeasurement.t) (measure : Measurement.t)
           (clk : Clock) : Metric.t :=
  Metric.mk (ContainerMeasurement.key cm) (ContainerMeasurement.type cm)
            (fst (MovingStatistics.init (Some (Measurement.value measure)) clk))
            (ContainerMeasurement.stats_filter cm)
            (Measurement.value measure) (Some (Measurement.value measure))
            (ContainerMeasurement.unit_hint cm)
            (ContainerMeasurement.current_hook cm).

(** What a merge step stores: the metric held so far after [update], or the
    new one. *)
Definition merged (old : option Metric.t) (fresh : Metric.t)
           (measure : Measurement.t) (clk : Clock) : Metric.t :=
  match old with
  | Some m => fst (fst (Metric.update m measure clk))
  | None => fresh
  end.

(** The three tables of a context. *)
Inductive table : Type := NodeTable | DeviceTable | KernelTable.

(** A property of every stored metric, given its table and the metric key
    it is stored under. *)
Definition all_resident (Q : table -> MetricKey -> Metric.t -> Prop)
           (ctx : StatContext.t) : Prop :=
  (forall k m, StatContext.node_metrics ctx !! k = Some m -> Q NodeTable k m) /\
  (forall k d m, device_metric ctx k d = Some m -> Q DeviceTable k m) /\
  (forall kid k m, kernel_metric ctx kid k = Some m -> Q KernelTable k m).

(** Every metric of the first context is still stored in the second, under
    the same keys and with the same static fields; for the kernel table
    this is asked of the kernels in [keep] only. *)
Definition persists (keep : KernelId -> Prop) (ctx0 ctx : StatContext.t) : Prop :=
  (forall k m, StatContext.node_metrics ctx0 !! k = Some m ->
               exists m', StatContext.node_metrics ctx !! k = Some m' /\
                          same_static m m') /\
  (forall k d m, device_metric ctx0 k d = Some m ->
                 exists m', device_metric ctx k d = Some m' /\ same_static m m') /\
  (forall kid k m, keep kid -> kernel_metric ctx0 kid k = Some m ->
                   exists m', kernel_metric ctx kid k = Some m' /\
                              same_static m m').

(** The measures the fan-in loop goes through: those of the outcomes that
    are not exceptions, in order. *)
Definition gathered {A : Type} (outcomes : list (result (list A))) : list A :=
  concat (map (fun outcome => match outcome with
                              | Ok measures => measures
                              | Raise _ => []
                              end) outcomes).


(** The samples of a list of container batches, each with its batch, in the
    order the nested loops meet them. *)
Definition samples (batches : list ContainerMeasurement.t)
  : list (ContainerMeasurement.t * (ContainerId * Measurement.t)) :=
  flat_map (fun cm => map (pair cm) (ContainerMeasurement.per_container cm)) batches.

(** A sequence of [update_timestamp] calls whose results are dropped. *)
Definition touch_timestamps (keys : list string)
           (st : gmap string float * Clock) : gmap string float * Clock :=
  foldl (fun st k => fst (StatContext.update_timestamp (fst st) k (snd st))) st keys.

(** A node batch for the examples: one metric, no device, the given hook. *)
Definition example_node_batch (v : Z) (hook : option (Metric.view -> result Decimal))
  : NodeMeasurement.t :=
  NodeMeasurement.mk "cpu" USAGE (Measurement.mk (of_int v) None) [] None ∅ hook.

(** * Properties *)

(** ** Loops *)

(** A property kept by every run of the body, whatever its outcome, holds
    for the state a loop ends in. *)
Lemma for_each_invariant {S A : Type} (P : S -> Prop)
      (body : A -> S -> S * result unit) (l : list A) :
  (forall x s, P s -> P (fst (body x s))) ->
  forall s, P s -> P (fst (for_each body l s)).
Proof.
  intros Hbody. induction l as [|x rest IH]; intros s Hs; simpl; [exact Hs|].
  specialize (Hbody x s Hs).
  destruct (body x s) as [s' [[]|e]]; simpl in *; auto.
Qed.

Lemma for_each_gathered_invariant {S A : Type} (P : S -> Prop)
      (body : A -> S -> S * result unit) (outcomes : list (result (list A))) :
  (forall x s, P s -> P (fst (body x s))) ->
  forall s, P s -> P (fst (for_each_gathered body outcomes s)).
Proof.
  intros Hbody. unfold for_each_gathered. apply for_each_invariant.
  intros [measures|e] s Hs; simpl; [|exact Hs].
  now apply for_each_invariant.
Qed.

(** ** Decimal arithmetic *)

(** *** Exceptions *)

Lemma dec_fix_raises (d : Decimal) (e : exn) :
  dec_fix d = Raise e -> e = Overflow.
Proof.
  destruct d as [s c x|s|s sg p]; simpl; try discriminate.
  destruct (c =? 0)%N; [discriminate|].
  destruct (_ >? Etop); [congruence|].
  destruct (x <? _); [|discriminate].
  destruct (ndigits _ >? prec); destruct (_ >? Etop); congruence.
Qed.

Lemma check_nans_raises (a b : Decimal) (e : exn) :
  check_nans a b = Some (Raise e) -> e = InvalidOperation SignalingNaN.
Proof.
  unfold check_nans.
  destruct (is_snan a); [congruence|]. destruct (is_snan b); [congruence|].
  destruct (is_nan a); [congruence|]. destruct (is_nan b); congruence.
Qed.

(** A division raises for a zero divisor only. *)
Lemma dec_div_zero_divisor (a b : Decimal) (e : exn) :
  dec_div a b = Raise e ->
  e = DivisionByZero \/ e = InvalidOperation DivisionUndefined ->
  is_zero b = true.
Proof.
  unfold dec_div. intros H He.
  destruct (check_nans a b) as [[r|e']|] eqn:Hn.
  - discriminate.
  - apply check_nans_raises in Hn. destruct He; congruence.
  - destruct a as [s1 c1 e1|s1|s1 g1 p1], b as [s2 c2 e2|s2|s2 g2 p2];
      try discriminate; try (destruct He; congruence).
    simpl. destruct (c2 =? 0)%N; [reflexivity|]. exfalso.
    assert (Hfix : forall d, dec_fix d = Raise e -> False).
    { intros d Hd. apply dec_fix_raises in Hd. destruct He; congruence. }
    destruct (c1 =? 0)%N; [now apply Hfix in H|].
    destruct (0 <=? _);
      match type of H with
      | context [(?r =? 0)%N] => destruct (r =? 0)%N
      end;
      try (destruct (div_reduce _ _ _)); now apply Hfix in H.
Qed.

(** *** Finite results *)





(** *** The numerical order *)







(** A finite number is above zero when its sign is plus and its coefficient
    is not zero. *)
Lemma dec_cmp_zero_gt (s : bool) (c : N) (e : Z) :
  dec_cmp (Fin s c e) (of_int 0) = Gt <-> s = false /\ c <> 0%N.
Proof.
  unfold dec_cmp. cbn [is_special orb of_int]. rewrite <- Qgt_alt.
  unfold dec_Q. cbn [Z.ltb Z.compare Z.abs_N Z.of_N].
  set (sc := if s then - Z.of_N c else Z.of_N c).
  assert (HP : (0 < (10 # 1) ^ e)%Q) by (apply Qpower_0_lt; reflexivity).
  assert (E : (inject_Z 0 * (10 # 1) ^ 0 == 0 * (10 # 1) ^ e)%Q) by ring.
  rewrite E, (Qmult_lt_r _ _ _ HP).
  change 0%Q with (inject_Z 0). rewrite <- Zlt_Qlt.
  subst sc. destruct s; split; intros H; lia.
Qed.




(** *** Digit counts *)

Lemma pow10_pos (k : Z) : (0 < pow10 k)%N.
Proof. unfold pow10. apply N.neq_0_lt_0, N.pow_nonzero. discriminate. Qed.

Lemma pow10_0 : pow10 0 = 1%N.
Proof. reflexivity. Qed.

Lemma pow10_succ (k : Z) : 0 <= k -> pow10 (k + 1) = (10 * pow10 k)%N.
Proof.
  intros Hk. unfold pow10. rewrite Z2N.inj_add by lia.
  rewrite N.pow_add_r. change (Z.to_N 1) with 1%N. rewrite N.pow_1_r. lia.
Qed.

Lemma pow10_add (j k : Z) : 0 <= j -> 0 <= k -> pow10 (j + k) = (pow10 j * pow10 k)%N.
Proof.
  intros Hj Hk. unfold pow10. rewrite Z2N.inj_add by lia. apply N.pow_add_r.
Qed.

Lemma pow10_le (j k : Z) : j <= k -> (pow10 j <= pow10 k)%N.
Proof.
  intros H. unfold pow10. apply N.pow_le_mono_r; [discriminate|lia].
Qed.

Lemma pow10_lt (j k : Z) : 0 <= j -> j < k -> (pow10 j < pow10 k)%N.
Proof.
  intros Hj H. unfold pow10. apply N.pow_lt_mono_r; lia.
Qed.

Lemma Z_of_pow10 (k : Z) : 0 <= k -> Z.of_N (pow10 k) = 10 ^ k.
Proof.
  intros Hk. unfold pow10. rewrite N2Z.inj_pow, Z2N.id by lia. reflexivity.
Qed.

Lemma ndigits_fuel_spec (fuel : nat) :
  forall n : N, (n < 2 ^ N.of_nat fuel)%N -> n <> 0%N ->
    1 <= ndigits_fuel fuel n /\
    (pow10 (ndigits_fuel fuel n - 1) <= n < pow10 (ndigits_fuel fuel n))%N.
Proof.
  induction fuel as [|f IH]; intros n Hlt Hnz.
  - cbn in Hlt. lia.
  - cbn [ndigits_fuel]. destruct (N.ltb_spec n 10) as [Hsmall|Hbig].
    + split; [lia|]. change (pow10 (1 - 1)) with 1%N.
      change (pow10 1) with 10%N. lia.
    + assert (Hq : (n / 10 <> 0)%N).
      { intros H0. apply N.div_small_iff in H0; lia. }
      assert (Hq2 : (n / 10 < 2 ^ N.of_nat f)%N).
      { rewrite Nat2N.inj_succ, N.pow_succ_r' in Hlt.
        apply N.Div0.div_lt_upper_bound. lia. }
      destruct (IH _ Hq2 Hq) as [Hd [Hlo Hhi]].
      set (d := ndigits_fuel f (n / 10)) in *.
      split; [lia|].
      replace (1 + d - 1) with ((d - 1) + 1) by lia.
      replace (1 + d) with (d + 1) by lia.
      rewrite !pow10_succ by lia.
      pose proof (N.div_mod n 10 ltac:(discriminate)) as Hdm.
      pose proof (N.mod_lt n 10 ltac:(discriminate)) as Hm.
      clearbody d. clear IH Hq2 Hlt.
      generalize dependent (pow10 (d - 1)). generalize dependent (pow10 d).
      generalize dependent (n / 10)%N. generalize dependent (n mod 10)%N.
      intros. lia.
Qed.

Lemma ndigits_spec (n : N) : n <> 0%N ->
  1 <= ndigits n /\ (pow10 (ndigits n - 1) <= n < pow10 (ndigits n))%N.
Proof.
  intros Hnz. unfold ndigits. apply ndigits_fuel_spec; [|exact Hnz].
  rewrite N2Nat.id. apply N.size_gt.
Qed.

Lemma ndigits_unique (n : N) (d : Z) :
  1 <= d -> (pow10 (d - 1) <= n < pow10 d)%N -> ndigits n = d.
Proof.
  intros Hd [Hlo Hhi].
  assert (Hnz : n <> 0%N) by (pose proof (pow10_pos (d - 1)); lia).
  destruct (ndigits_spec n Hnz) as [Hd' [Hlo' Hhi']].
  destruct (Z.lt_trichotomy (ndigits n) d) as [H|[H|H]]; [|exact H|].
  - assert (pow10 (ndigits n) <= pow10 (d - 1))%N by (apply pow10_le; lia). lia.
  - assert (pow10 d <= pow10 (ndigits n - 1))%N by (apply pow10_le; lia). lia.
Qed.

Lemma ndigits_0 : ndigits 0 = 1.
Proof. reflexivity. Qed.

Lemma ndigits_pos (n : N) : 1 <= ndigits n.
Proof.
  destruct (N.eq_dec n 0%N) as [->|Hnz]; [rewrite ndigits_0; lia|].
  now apply ndigits_spec.
Qed.

Lemma ndigits_shift (c : N) (j : Z) :
  c <> 0%N -> 0 <= j -> ndigits (c * pow10 j) = ndigits c + j.
Proof.
  intros Hc Hj. destruct (ndigits_spec c Hc) as [Hd [Hlo Hhi]].
  apply ndigits_unique; [lia|].
  replace (ndigits c + j - 1) with ((ndigits c - 1) + j) by lia.
  rewrite !pow10_add by lia.
  pose proof (pow10_pos j). split.
  - apply N.mul_le_mono_r. exact Hlo.
  - apply N.mul_lt_mono_pos_r; assumption.
Qed.

Lemma ndigits_below (n : N) (d : Z) :
  1 <= d -> (n < pow10 d)%N -> ndigits n <= d.
Proof.
  intros Hd Hlt. destruct (N.eq_dec n 0%N) as [->|Hnz]; [rewrite ndigits_0; lia|].
  destruct (ndigits_spec n Hnz) as [_ [Hlo _]].
  destruct (Z_le_gt_dec (ndigits n) d) as [H|H]; [exact H|].
  assert (pow10 d <= pow10 (ndigits n - 1))%N by (apply pow10_le; lia). lia.
Qed.

Lemma ndigits_mono (a b : N) : (a <= b)%N -> ndigits a <= ndigits b.
Proof.
  intros Hab. destruct (N.eq_dec b 0%N) as [->|Hb].
  - assert (a = 0%N) by lia. subst a. lia.
  - destruct (ndigits_spec b Hb) as [Hd [_ Hhi]].
    apply ndigits_below; [exact Hd|lia].
Qed.

(** A coefficient ending in 0 or 5 gains no digit when 1 is added. *)
Lemma ndigits_succ_mod5 (c : N) :
  (c mod 5 = 0)%N -> ndigits (c + 1) <= ndigits c.
Proof.
  intros Hm. destruct (N.eq_dec c 0%N) as [->|Hc];
    [change (ndigits (0 + 1)) with 1; rewrite ndigits_0; lia|].
  destruct (ndigits_spec c Hc) as [Hd [_ Hhi]].
  apply ndigits_below; [exact Hd|].
  replace (ndigits c) with ((ndigits c - 1) + 1) in * by lia.
  rewrite pow10_succ in * by lia.
  pose proof (N.div_mod c 5 ltac:(discriminate)) as Hdm. rewrite Hm in Hdm.
  generalize dependent (pow10 (ndigits c - 1)). generalize dependent (c / 5)%N.
  intros. lia.
Qed.

(** *** Rounding and quantizing *)

Lemma gtb_false_iff (n m : Z) : (n >? m) = false <-> n <= m.
Proof. rewrite Z.gtb_ltb. apply Z.ltb_ge. Qed.

Lemma dec_fix_id (s : bool) (c : N) (e : Z) :
  ndigits c <= prec -> Etiny <= e <= Etop ->
  dec_fix (Fin s c e) = Ok (Fin s c e).
Proof.
  intros Hd He. unfold dec_fix.
  destruct (c =? 0)%N eqn:Hc.
  - apply N.eqb_eq in Hc. subst c. f_equal. f_equal. ctx_consts. lia.
  - assert (H1 : (ndigits c + e - prec >? Etop) = false)
      by (apply gtb_false_iff; ctx_consts; lia).
    rewrite H1.
    assert (H2 : (e <? Z.max (ndigits c + e - prec) Etiny) = false)
      by (apply Z.ltb_ge; ctx_consts; lia).
    now rewrite H2.
Qed.

Lemma rescale_shape (s : bool) (c : N) (e x : Z) :
  exists c', rescale s c e x = Fin s c' x.
Proof.
  unfold rescale. destruct (c =? 0)%N; [|destruct (e >=? x)]; eauto.
Qed.

(** Quantizing to [k] places a number that needs padding only. *)
Lemma quantize_pad (s qs : bool) (c qc : N) (e k : Z) :
  0 <= k <= prec -> - k <= e -> (c = 0%N \/ ndigits c + e + k <= prec) ->
  quantize (Fin s c e) (Fin qs qc (- k)) = Ok (Fin s (c * pow10 (e + k)) (- k)).
Proof.
  intros Hk He Hd. unfold quantize. cbn [check_nans is_snan is_nan].
  assert (Hr : (Etiny <=? - k) && (- k <=? Emax) = true).
  { apply andb_true_intro. split; apply Z.leb_le; ctx_consts; lia. }
  rewrite Hr. cbn [negb].
  destruct (c =? 0)%N eqn:Hc.
  - apply N.eqb_eq in Hc. subst c. rewrite N.mul_0_l.
    apply dec_fix_id; [rewrite ndigits_0|]; ctx_consts; lia.
  - apply N.eqb_neq in Hc. destruct Hd as [Hd|Hd]; [contradiction|].
    pose proof (ndigits_pos c) as Hp.
    unfold adjusted.
    assert (H1 : (e + ndigits c - 1 >? Emax) = false)
      by (apply gtb_false_iff; ctx_consts; lia).
    assert (H2 : (e + ndigits c - 1 - - k + 1 >? prec) = false)
      by (apply gtb_false_iff; ctx_consts; lia).
    rewrite H1, H2. unfold rescale.
    assert (Hc' : (c =? 0)%N = false) by now apply N.eqb_neq.
    assert (H3 : (e >=? - k) = true) by (apply Z.geb_le; lia).
    rewrite Hc', H3. replace (e - - k) with (e + k) by lia.
    rewrite ndigits_shift by (auto; lia).
    assert (H4 : (- k + (ndigits c + (e + k)) - 1 >? Emax) = false)
      by (apply gtb_false_iff; ctx_consts; lia).
    assert (H5 : (ndigits c + (e + k) >? prec) = false)
      by (apply gtb_false_iff; ctx_consts; lia).
    rewrite H4, H5.
    apply dec_fix_id; [rewrite ndigits_shift by (auto; lia)|]; ctx_consts; lia.
Qed.

(** What a successful quantization of a finite number to [k] places
    returns. *)
Lemma quantize_fin_ok (s qs : bool) (c qc : N) (e k : Z) (y : Decimal) :
  0 <= k <= prec ->
  quantize (Fin s c e) (Fin qs qc (- k)) = Ok y ->
  exists c', y = Fin s c' (- k) /\ ndigits c' <= prec /\
             rescale s c e (- k) = Fin s c' (- k).
Proof.
  intros Hk. unfold quantize. cbn [check_nans is_snan is_nan].
  assert (Hr : (Etiny <=? - k) && (- k <=? Emax) = true).
  { apply andb_true_intro. split; apply Z.leb_le; ctx_consts; lia. }
  rewrite Hr. cbn [negb].
  destruct (c =? 0)%N eqn:Hc.
  - rewrite dec_fix_id by (rewrite ?ndigits_0; ctx_consts; lia).
    intros [= <-]. exists 0%N. unfold rescale. rewrite Hc.
    rewrite ndigits_0. repeat split. ctx_consts. lia.
  - destruct (adjusted c e >? Emax); [discriminate|].
    destruct (adjusted c e - - k + 1 >? prec); [discriminate|].
    destruct (rescale_shape s c e (- k)) as [c' Hc']. rewrite Hc'.
    destruct (adjusted c' (- k) >? Emax); [discriminate|].
    destruct (ndigits c' >? prec) eqn:Hd; [discriminate|].
    apply gtb_false_iff in Hd.
    rewrite dec_fix_id by (ctx_consts; lia).
    intros [= <-]. eauto.
Qed.

(** Numerically equal finite numbers of one sign have matching
    coefficients. *)
Lemma fin_eq_coef (s : bool) (c r : N) (k : Z) :
  0 <= k -> dec_cmp (Fin s c (- k)) (Fin s r 0) = Eq -> c = (r * pow10 k)%N.
Proof.
  intros Hk H. unfold dec_cmp in H. cbn [is_special orb] in H.
  apply Qeq_alt in H. unfold dec_Q in H.
  set (sc := if s then - Z.of_N c else Z.of_N c) in *.
  set (sr := if s then - Z.of_N r else Z.of_N r) in *.
  change (10 # 1) with (inject_Z 10) in H.
  rewrite Qpower_opp, <- (Zpower_Qpower 10 k Hk) in H.
  change (inject_Z 10 ^ 0)%Q with 1%Q in H.
  assert (Hpow : 0 < 10 ^ k) by (apply Z.pow_pos_nonneg; lia).
  assert (HP : ~ (inject_Z (10 ^ k) == 0)%Q).
  { change 0%Q with (inject_Z 0). rewrite inject_Z_injective. lia. }
  assert (E : (inject_Z sc == inject_Z (sr * 10 ^ k))%Q).
  { rewrite inject_Z_mult.
    transitivity (inject_Z sc * / inject_Z (10 ^ k) * inject_Z (10 ^ k))%Q.
    - field. exact HP.
    - rewrite H. ring. }
  rewrite inject_Z_injective in E.
  apply N2Z.inj. rewrite N2Z.inj_mul, Z_of_pow10 by exact Hk.
  subst sc sr. destruct s; [rewrite Z.mul_opp_l in E|]; lia.
Qed.

Lemma strip_zeros_spec (fuel : nat) :
  forall (c : N) (e : Z) (c' : N) (e' : Z),
    strip_zeros fuel c e = (c', e') ->
    exists j, 0 <= j /\ e' = e + j /\ c = (c' * pow10 j)%N.
Proof.
  induction fuel as [|f IH]; intros c e c' e' H; cbn in H.
  - injection H as <- <-. exists 0. rewrite pow10_0. repeat split; lia.
  - destruct ((c mod 10 =? 0)%N && (e <? Emax)) eqn:Hcond.
    + apply andb_prop in Hcond as [Hm _]. apply N.eqb_eq in Hm.
      destruct (IH _ _ _ _ H) as (j & Hj & -> & Hc).
      exists (j + 1). repeat split; [lia|lia|].
      rewrite pow10_succ by lia.
      pose proof (N.div_mod c 10 ltac:(discriminate)) as Hdm.
      rewrite Hm, Hc in Hdm. lia.
    + injection H as <- <-. exists 0. rewrite pow10_0. repeat split; lia.
Qed.

Lemma fix_nan_idem (d : Decimal) : fix_nan (fix_nan d) = fix_nan d.
Proof.
  destruct d as [| |s sg p]; try reflexivity. cbn.
  destruct (ndigits p >? prec) eqn:Hd; cbn; [|now rewrite Hd].
  assert (H : (ndigits (p mod pow10 prec) >? prec) = false).
  { apply gtb_false_iff. apply ndigits_below; [ctx_consts; lia|].
    apply N.mod_lt. pose proof (pow10_pos prec). lia. }
  now rewrite H.
Qed.

(** *** Division returns *)

(** [_fix] can fail by overflow only. *)
Lemma dec_fix_returns (s : bool) (c : N) (e : Z) :
  (c = 0%N \/ adjusted c e < Emax) -> exists r, dec_fix (Fin s c e) = Ok r.
Proof.
  intros H. unfold dec_fix. destruct (c =? 0)%N eqn:Hc; [eauto|].
  apply N.eqb_neq in Hc. destruct H as [H|H]; [contradiction|].
  unfold adjusted in H.
  assert (H1 : (ndigits c + e - prec >? Etop) = false)
    by (apply gtb_false_iff; ctx_consts; lia).
  rewrite H1. destruct (e <? _); [|eauto].
  destruct (ndigits _ >? prec).
  - assert (H2 : (Z.max (ndigits c + e - prec) Etiny + 1 >? Etop) = false)
      by (apply gtb_false_iff; ctx_consts; lia).
    rewrite H2. eauto.
  - assert (H2 : (Z.max (ndigits c + e - prec) Etiny >? Etop) = false)
      by (apply gtb_false_iff; ctx_consts; lia).
    rewrite H2. eauto.
Qed.

Lemma div_reduce_adjusted (fuel : nat) :
  forall (c : N) (e : Z) (c' : N) (e' : Z),
    c <> 0%N -> div_reduce fuel c e = (c', e') ->
    c' <> 0%N /\ ndigits c' + e' <= ndigits c + e.
Proof.
  induction fuel as [|f IH]; intros c e c' e' Hc H; cbn in H.
  - injection H as <- <-. split; [exact Hc|lia].
  - destruct (c mod 10 =? 0)%N eqn:Hm.
    + apply N.eqb_eq in Hm.
      pose proof (N.div_mod c 10 ltac:(discriminate)) as Hdm. rewrite Hm in Hdm.
      assert (Hq : (c / 10 <> 0)%N) by lia.
      destruct (IH _ _ _ _ Hq H) as [Hc' Hle]. split; [exact Hc'|].
      assert (ndigits (c / 10) + 1 <= ndigits c); [|lia].
      destruct (ndigits_spec c Hc) as [Hd [Hlo Hhi]].
      destruct (ndigits_spec _ Hq) as [Hd' [Hlo' _]].
      destruct (Z_le_gt_dec (ndigits (c / 10) + 1) (ndigits c)) as [Hok|Hbad];
        [exact Hok|exfalso].
      assert (Hp : (pow10 (ndigits c - 1) <= pow10 (ndigits (c / 10) - 1))%N)
        by (apply pow10_le; lia).
      replace (ndigits c) with ((ndigits c - 1) + 1) in Hhi by lia.
      rewrite pow10_succ in Hhi by lia.
      generalize dependent (pow10 (ndigits c - 1)).
      generalize dependent (pow10 (ndigits (c / 10) - 1)).
      generalize dependent (c / 10)%N. intros. lia.
    + injection H as <- <-. split; [exact Hc|lia].
Qed.

(** Dividing a finite number below the top of the exponent range by a
    non-zero integer returns. *)
Lemma dec_div_returns (s1 s2 : bool) (c1 c2 : N) (e1 : Z) :
  c2 <> 0%N -> (c1 = 0%N \/ adjusted c1 e1 < Emax) ->
  exists r, dec_div (Fin s1 c1 e1) (Fin s2 c2 0) = Ok r.
Proof.
  intros Hc2 Hrange. unfold dec_div. cbn [check_nans is_snan is_nan].
  assert (E2 : (c2 =? 0)%N = false) by now apply N.eqb_neq.
  rewrite E2. destruct (c1 =? 0)%N eqn:Hc1; [apply dec_fix_returns; now left|].
  apply N.eqb_neq in Hc1. destruct Hrange as [Hrange|Hrange]; [contradiction|].
  unfold adjusted in Hrange.
  set (shift := ndigits c2 - ndigits c1 + prec + 1).
  pose proof (ndigits_pos c2) as Hn2.
  destruct (0 <=? shift) eqn:Hs.
  - apply Z.leb_le in Hs.
    set (num := (c1 * pow10 shift)%N).
    assert (Hnum : ndigits num = ndigits c1 + shift)
      by (apply ndigits_shift; auto).
    pose proof (N.div_mod num c2 Hc2) as Hdm.
    assert (Hq : (num / c2 <= num)%N) by (apply N.Div0.div_le_upper_bound; nia).
    destruct (num mod c2 =? 0)%N eqn:Hr.
    + apply N.eqb_eq in Hr.
      assert (Hq0 : (num / c2 <> 0)%N).
      { rewrite Hr in Hdm. intros H0. rewrite H0 in Hdm.
        assert (num <> 0%N); [|lia]. subst num. pose proof (pow10_pos shift). nia. }
      destruct (div_reduce _ (num / c2) (e1 - 0 - shift)) as [c' e'] eqn:Hred.
      apply div_reduce_adjusted in Hred as [Hc' Hle]; [|exact Hq0].
      apply dec_fix_returns. right. unfold adjusted.
      pose proof (ndigits_mono _ _ Hq) as Hm.
      clear -Hle Hm Hnum Hrange. clearbody num shift. name_ndigits. lia.
    + apply N.eqb_neq in Hr.
      assert (Hq1 : (num / c2 + 1 <= num)%N).
      { assert (Hm : (1 * (num / c2) <= c2 * (num / c2))%N)
          by (apply N.mul_le_mono_r; lia).
        rewrite N.mul_1_l in Hm. clear Hq Hnum.
        generalize dependent (num / c2)%N. generalize dependent (num mod c2)%N.
        clearbody num. intros. lia. }
      apply dec_fix_returns. right. unfold adjusted.
      pose proof (ndigits_mono _ _ Hq1) as Hm1.
      pose proof (ndigits_mono _ _ Hq) as Hm.
      destruct (_ mod 5 =? 0)%N;
        clear -Hm Hm1 Hnum Hrange; clearbody num shift; name_ndigits; lia.
  - apply Z.leb_gt in Hs.
    set (den := (c2 * pow10 (- shift))%N).
    assert (Hq : (c1 / den < pow10 (ndigits c1 + shift))%N).
    { destruct (ndigits_spec c1 Hc1) as [_ [_ Hhi]].
      replace (ndigits c1) with ((ndigits c1 + shift) + (- shift)) in Hhi by lia.
      rewrite pow10_add in Hhi by (subst shift; ctx_consts; lia).
      apply N.Div0.div_lt_upper_bound. subst den.
      pose proof (pow10_pos (- shift)). pose proof (pow10_pos (ndigits c1 + shift)).
      nia. }
    assert (Hd : ndigits (c1 / den) <= ndigits c1 + shift)
      by (apply ndigits_below; [subst shift; ctx_consts; lia|exact Hq]).
    destruct (c1 mod den =? 0)%N eqn:Hr.
    + destruct (N.eq_dec (N.div c1 den) 0%N) as [H0|H0].
      * exfalso. apply N.eqb_eq in Hr.
        assert (Hden : den <> 0%N)
          by (subst den; pose proof (pow10_pos (- shift)); nia).
        pose proof (N.div_mod c1 den Hden) as Hdm. rewrite H0, Hr in Hdm. lia.
      * destruct (div_reduce _ (c1 / den) (e1 - 0 - shift)) as [c' e'] eqn:Hred.
        apply div_reduce_adjusted in Hred as [Hc' Hle]; [|exact H0].
        apply dec_fix_returns. right. unfold adjusted.
        clear -Hle Hd Hrange. clearbody den shift. name_ndigits. lia.
    + apply dec_fix_returns. right. unfold adjusted.
      destruct (_ mod 5 =? 0)%N eqn:H5.
      * apply N.eqb_eq in H5. pose proof (ndigits_succ_mod5 _ H5) as H6.
        clear -H6 Hd Hrange. clearbody den shift. name_ndigits. lia.
      * clear -Hd Hrange. clearbody den shift. name_ndigits. lia.
Qed.


(** ** Formatting (C8) *)

(** [remove_exponent] of a number with [k] decimal places moves zeros from
    the coefficient into the exponent and changes nothing else. *)
Lemma remove_exponent_shape (s : bool) (c : N) (k : Z) (z : Decimal) :
  0 < k <= prec -> ndigits c <= prec ->
  remove_exponent (Fin s c (- k)) = Ok z ->
  exists c' e', z = Fin s c' e' /\ - k <= e' /\ c = (c' * pow10 (e' + k))%N.
Proof.
  intros Hk Hd. unfold remove_exponent, to_integral.
  cbn [check_nans1 is_snan is_nan].
  assert (H0 : (0 <=? - k) = false) by (apply Z.leb_gt; lia). rewrite H0.
  cbn [mbind result_bind].
  destruct (rescale_shape s c (- k) 0) as [r Hr]. rewrite Hr.
  unfold dec_eqb. cbn [check_nans is_snan is_nan mbind result_bind].
  destruct (dec_cmp (Fin s c (- k)) (Fin s r 0)) eqn:Hcmp.
  - change (of_int 1) with (Fin false 1 (- 0)). intros Hq.
    apply quantize_fin_ok in Hq as (c' & -> & _ & Hc'); [|ctx_consts; lia].
    change (- 0) with 0 in *. rewrite Hr in Hc'. injection Hc' as <-.
    exists r, 0. repeat split; [lia|].
    exact (fin_eq_coef s c r k ltac:(lia) Hcmp).
  - unfold normalize. cbn [check_nans1 is_snan is_nan].
    rewrite dec_fix_id by (ctx_consts; lia). cbn [mbind result_bind].
    destruct (c =? 0)%N eqn:Hc.
    + intros [= <-]. apply N.eqb_eq in Hc. exists 0%N, 0. repeat split; lia.
    + destruct (strip_zeros _ c (- k)) as [c' e'] eqn:Hs. intros [= <-].
      apply strip_zeros_spec in Hs as (j & Hj & -> & ->).
      exists c', (- k + j). repeat split; [lia|]. f_equal. f_equal. lia.
  - unfold normalize. cbn [check_nans1 is_snan is_nan].
    rewrite dec_fix_id by (ctx_consts; lia). cbn [mbind result_bind].
    destruct (c =? 0)%N eqn:Hc.
    + intros [= <-]. apply N.eqb_eq in Hc. exists 0%N, 0. repeat split; lia.
    + destruct (strip_zeros _ c (- k)) as [c' e'] eqn:Hs. intros [= <-].
      apply strip_zeros_spec in Hs as (j & Hj & -> & ->).
      exists c', (- k + j). repeat split; [lia|]. f_equal. f_equal. lia.
Qed.

Lemma formatted_idem (qs : bool) (qc : N) (k : Z) (x z : Decimal) :
  0 < k <= prec ->
  formatted (Fin qs qc (- k)) x = Ok z ->
  formatted (Fin qs qc (- k)) z = Ok z.
Proof.
  intros Hk. unfold formatted.
  destruct (quantize x (Fin qs qc (- k))) as [y|] eqn:Hq; [|discriminate].
  cbn [mbind result_bind]. intros Hz.
  destruct x as [s c e|s|s sg p].
  - apply quantize_fin_ok in Hq as (c1 & -> & Hd & _); [|lia].
    pose proof Hz as Hz'.
    apply remove_exponent_shape in Hz' as (c' & e' & -> & He' & Hc); auto.
    rewrite (quantize_pad s qs c' qc e' k); [| lia | lia |].
    + cbn [mbind result_bind]. now rewrite <- Hc.
    + destruct (N.eq_dec c' 0%N) as [H0|H0]; [now left|right].
      replace (ndigits c' + e' + k) with (ndigits c' + (e' + k)) by lia.
      rewrite <- (ndigits_shift c' (e' + k)) by (auto; lia). now rewrite <- Hc.
  - unfold quantize in Hq. cbn in Hq. discriminate.
  - unfold quantize, check_nans in Hq. destruct sg; [discriminate|].
    cbn [is_snan is_nan] in Hq.
    assert (Hy : exists p', y = NaN s false p' /\
                            fix_nan (NaN s false p') = NaN s false p').
    { injection Hq as <-. pose proof (fix_nan_idem (NaN s false p)) as Hi.
      cbn in *. destruct (ndigits p >? prec); eauto. }
    destruct Hy as (p' & -> & Hidem). clear Hq.
    assert (Hz2 : z = NaN s false p').
    { unfold remove_exponent, to_integral, dec_eqb, normalize in Hz.
      cbn [check_nans1 check_nans is_snan is_nan mbind result_bind] in Hz.
      rewrite Hidem in Hz.
      cbn [check_nans1 check_nans is_snan is_nan mbind result_bind] in Hz.
      rewrite ?Hidem in Hz. congruence. }
    subst z.
    unfold quantize, check_nans. cbn [is_snan is_nan]. rewrite Hidem.
    cbn [mbind result_bind]. exact Hz.
Qed.

(** C8.  Formatting is idempotent: when a value formats to [z] (quantized
    to three places, or two for percentages, then stripped of its exponent),
    formatting [z] again returns [z], hence the same string. *)
Theorem formatting_is_idempotent :
  forall x z : Decimal,
    (formatted q_000 x = Ok z ->
     formatted q_000 z = Ok z /\
     format_decimal q_000 z = format_decimal q_000 x) /\
    (formatted q_00 x = Ok z ->
     formatted q_00 z = Ok z /\
     format_decimal q_00 z = format_decimal q_00 x).
Proof.
  intros x z. unfold format_decimal. split; intros H.
  - assert (H' : formatted q_000 z = Ok z)
      by exact (formatted_idem false 0 3 x z ltac:(unfold prec; lia) H).
    split; [exact H'|]. now rewrite H, H'.
  - assert (H' : formatted q_00 z = Ok z)
      by exact (formatted_idem false 0 2 x z ltac:(unfold prec; lia) H).
    split; [exact H'|]. now rewrite H, H'.
Qed.

(** The claim at a concrete value: 1.2345 formats to 1.234. *)
Lemma formatting_is_idempotent_witness :
  formatted q_000 (Fin false 12345 (-4)) = Ok (Fin false 1234 (-3)) /\
  formatted q_000 (Fin false 1234 (-3)) = Ok (Fin false 1234 (-3)) /\
  format_decimal q_000 (Fin false 1234 (-3)) = Ok "1.234"%string.
Proof.
  assert (H : formatted q_000 (Fin false 12345 (-4)) = Ok (Fin false 1234 (-3)))
    by (vm_compute; reflexivity).
  split; [exact H|].
  destruct (proj1 (formatting_is_idempotent _ _) H) as [H1 H2].
  split; [exact H1|]. rewrite H2. vm_compute. reflexivity.
Defined.

(** ** MovingStatistics *)

(** *** The average (C7) *)

(** C7.  With [count >= 1] the average is the quotient [sum / count] of the
    decimal arithmetic and the division is well defined: it cannot fail for
    a zero divisor (neither [DivisionByZero] nor the 0/0 error is raised),
    and it returns a value whenever the sum is a finite number below the
    top of the exponent range.  The accessor has no guard of its own: with
    [count = 0] and a finite sum it raises one of the two errors, the 0/0
    error for a fresh unseeded accumulator. *)
Theorem avg_needs_count (s : MovingStatistics.t) :
  (1 <= MovingStatistics._count s ->
   MovingStatistics.avg s
   = dec_div (MovingStatistics.sum s) (of_int (MovingStatistics._count s)) /\
   MovingStatistics.avg s <> Raise DivisionByZero /\
   MovingStatistics.avg s <> Raise (InvalidOperation DivisionUndefined) /\
   (forall (sg : bool) (c : N) (e : Z),
       MovingStatistics.sum s = Fin sg c e ->
       c = 0%N \/ adjusted c e < Emax ->
       exists a, MovingStatistics.avg s = Ok a)) /\
  (MovingStatistics._count s = 0 ->
   is_finite (MovingStatistics.sum s) = true ->
   MovingStatistics.avg s
   = if is_zero (MovingStatistics.sum s)
     then Raise (InvalidOperation DivisionUndefined) else Raise DivisionByZero).
Proof.
  split.
  - intros Hc. split; [reflexivity|].
    assert (Hnz : is_zero (of_int (MovingStatistics._count s)) = false).
    { unfold of_int, is_zero. apply N.eqb_neq. lia. }
    split; [|split].
    + intros H. eapply dec_div_zero_divisor in H; eauto. congruence.
    + intros H. eapply dec_div_zero_divisor in H; eauto. congruence.
    + intros sg c e Hsum Hrange.
      unfold MovingStatistics.avg, MovingStatistics.sum in *. rewrite Hsum.
      unfold of_int. apply dec_div_returns; [lia|exact Hrange].
  - intros Hc Hf. unfold MovingStatistics.avg, MovingStatistics.sum in *.
    rewrite Hc. destruct (MovingStatistics._sum s) as [s1 c1 e1| |]; try discriminate.
    simpl. unfold dec_div, check_nans. simpl. now destruct (c1 =? 0)%N.
Qed.

(** The claim at a concrete accumulator: seeded with 3, then updated with
    4. *)
Lemma avg_needs_count_witness :
  let s := fst (fst (run_stats (Some (of_int 3)) [of_int 4] example_clock)) in
  MovingStatistics._count s = 2 /\
  MovingStatistics.avg s <> Raise DivisionByZero /\
  MovingStatistics.avg s <> Raise (InvalidOperation DivisionUndefined) /\
  exists a, MovingStatistics.avg s = Ok a.
Proof.
  intros s. split; [reflexivity|].
  destruct (proj1 (avg_needs_count s)) as (_ & H1 & H2 & H3);
    [vm_compute; discriminate|].
  split; [exact H1|]. split; [exact H2|].
  apply (H3 false 7%N 0); [reflexivity|right; vm_compute; reflexivity].
Defined.


(** *** The two-point window (C6) *)

(** What [update] does to the retained points when it completes. *)
Lemma update_last (s s' : MovingStatistics.t) (v : Decimal) (clk clk' : Clock) :
  MovingStatistics.update s v clk = ((s', clk'), Ok tt) ->
  let p := (v, fst (perf_counter clk)) in
  MovingStatistics._last s'
  = (if (2 <? length (MovingStatistics._last s ++ [p]))%nat
     then tail (MovingStatistics._last s ++ [p])
     else MovingStatistics._last s ++ [p]) /\
  clk' = snd (perf_counter clk).
Proof.
  unfold MovingStatistics.update.
  destruct (dec_add _ _); [|discriminate].
  destruct (py_min _ _); [|discriminate].
  destruct (py_max _ _); [|discriminate].
  cbn. intros H. injection H as <- <-. auto.
Qed.





(** *** Minimum, maximum and average (C5) *)


Lemma feed_cons (s : MovingStatistics.t) (v : Decimal) (rest : list Decimal)
      (clk : Clock) :
  feed s (v :: rest) clk
  = match MovingStatistics.update s v clk with
    | ((s1, c1), Ok _) => feed s1 rest c1
    | (st, Raise e) => (st, Raise e)
    end.
Proof.
  unfold feed. cbn. destruct (MovingStatistics.update s v clk) as [[s1 c1] [[]|e]];
    reflexivity.
Qed.








(** ** Metric *)

(** *** The worked example of [update] (C4) *)

(** C4.  A metric built around [MovingStatistics(5)] with capacity 10 and no
    hook, updated with [Measurement(7, capacity=10)], ends with current 7,
    capacity 10 and statistics min 5, max 7, sum 12, avg 6, diff 2; this
    holds for every key, type, filter, unit hint, previous [current] and
    clock. *)
Theorem metric_update_5_then_7 :
  forall (k : string) (ty : MetricTypes) (filter : gset string)
         (hint : option string) (cur0 : Decimal) (clk : Clock),
    let '(st, clk1) := MovingStatistics.init (Some (of_int 5)) clk in
    let m := Metric.mk k ty st filter cur0 (Some (of_int 10)) hint None in
    let '((m', _), r) :=
      Metric.update m (Measurement.mk (of_int 7) (Some (of_int 10))) clk1 in
    r = Ok tt /\
    Metric.current m' = of_int 7 /\
    Metric.capacity m' = Some (of_int 10) /\
    MovingStatistics.min (Metric.stats m') = of_int 5 /\
    MovingStatistics.max (Metric.stats m') = of_int 7 /\
    MovingStatistics.sum (Metric.stats m') = of_int 12 /\
    MovingStatistics.avg (Metric.stats m') = Ok (of_int 6) /\
    MovingStatistics.diff (Metric.stats m') = Ok (of_int 2).
Proof.
  intros k ty filter hint cur0 [n rd]. cbn.
  repeat split; vm_compute; reflexivity.
Qed.

(** *** The [pct] entry (C3) *)

Lemma is_normal_not_nan (c : Decimal) : is_normal c = true -> is_nan c = false.
Proof. now destruct c. Qed.

Lemma pct_guard_spec (m : Metric.t) :
  exists g, Metric.pct_guard m = Ok g /\ (g = true <-> usable_capacity m).
Proof.
  unfold Metric.pct_guard, usable_capacity.
  destruct (Metric.capacity m) as [c|].
  - destruct (is_normal c) eqn:Hn.
    + unfold dec_gtb, compare_checked.
      rewrite (is_normal_not_nan c Hn). cbn.
      destruct (dec_cmp c (of_int 0)) eqn:Hc; eexists; (split; [reflexivity|]);
        split; try discriminate; eauto; intros (c' & [= <-] & _ & H); congruence.
    + exists false. split; [reflexivity|]. split; [discriminate|].
      intros (c' & [= <-] & H & _). congruence.
  - exists false. split; [reflexivity|]. split; [discriminate|].
    intros (c' & H & _). discriminate.
Qed.

(** The guard in plain terms: a positive normal number. *)
Lemma usable_capacity_iff (m : Metric.t) :
  usable_capacity m <->
  exists c e, Metric.capacity m = Some (Fin false c e) /\ c <> 0%N /\
              Emin <= adjusted c e.
Proof.
  unfold usable_capacity. split.
  - intros (d & Hd & Hn & Hpos). destruct d as [s c e| |]; try discriminate.
    apply dec_cmp_zero_gt in Hpos as [-> Hc].
    cbn in Hn. apply andb_prop in Hn as [_ Hn]. apply Z.leb_le in Hn. eauto.
  - intros (c & e & Hd & Hc & Hn). exists (Fin false c e). split; [exact Hd|].
    split; [|now apply dec_cmp_zero_gt].
    cbn. apply andb_true_intro. split; [|now apply Z.leb_le].
    apply negb_true_iff. now apply N.eqb_neq.
Qed.

(** The entries of a serialized metric come from the field functions. *)
Lemma to_serializable_dict_pct (m : Metric.t) (d : pydict) :
  Metric.to_serializable_dict m = Ok d ->
  exists pct, Metric.pct_field m = Ok pct /\ dict_get "pct" d = Some pct.
Proof.
  unfold Metric.to_serializable_dict.
  destruct (format_decimal q_000 (Metric.current m)); [|discriminate].
  destruct (Metric.capacity_field m); [|discriminate].
  destruct (Metric.pct_field m) as [pct|]; [|discriminate].
  destruct (MovingStatistics.to_serializable_dict _); [|discriminate].
  cbn. intros [= <-]. exists pct. split; reflexivity.
Qed.

(** C3, as amended.  Whenever [to_serializable_dict] returns, [pct] is null
    exactly when the capacity is absent, or not a normal number (zero,
    subnormal, NaN), or not greater than zero; otherwise it is
    [current / capacity * 100] quantized to two places and formatted. *)
Theorem pct_null_unless_capacity_usable :
  forall (m : Metric.t) (d : pydict),
    Metric.to_serializable_dict m = Ok d ->
    (dict_get "pct" d = Some PNone <-> ~ usable_capacity m) /\
    (forall c, Metric.capacity m = Some c -> is_normal c = true ->
               dec_cmp c (of_int 0) = Gt ->
               exists s, Metric.pct_value (Metric.current m) c = Ok s /\
                         dict_get "pct" d = Some (PStr s)).
Proof.
  intros m d Hd.
  destruct (to_serializable_dict_pct m d Hd) as (pct & Hf & Hget).
  destruct (pct_guard_spec m) as (g & Hg & Hiff).
  unfold Metric.pct_field in Hf. rewrite Hg in Hf. cbn in Hf.
  rewrite Hget. destruct g.
  - destruct (proj1 Hiff eq_refl) as (c & Hc & Hn & Hpos).
    rewrite Hc in Hf.
    destruct (Metric.pct_value (Metric.current m) c) as [s|] eqn:Hv;
      [|discriminate].
    cbn in Hf. injection Hf as <-. split.
    + split; [discriminate|]. intros H. exfalso. apply H.
      exists c. auto.
    + intros c' Hc' _ _. exists s. split; congruence.
  - injection Hf as <-. split.
    + split; [|reflexivity]. intros _ H. apply Hiff in H. discriminate.
    + intros c Hc Hn Hpos. exfalso.
      assert (H : false = true) by (apply Hiff; exists c; auto). discriminate.
Qed.

(** The amended claim at a concrete metric: 5 of capacity 10. *)
Lemma pct_null_unless_capacity_usable_witness :
  exists d,
    Metric.to_serializable_dict (example_metric (of_int 5) (Some (of_int 10)))
    = Ok d /\
    dict_get "pct" d = Some (PStr "50").
Proof.
  eexists. split; [vm_compute; reflexivity|].
  match goal with
  | |- dict_get _ ?d = _ =>
      destruct (proj2 (pct_null_unless_capacity_usable
                         (example_metric (of_int 5) (Some (of_int 10))) d
                         ltac:(vm_compute; reflexivity))
                      (of_int 10) eq_refl eq_refl eq_refl)
        as (s & Hs & Hget)
  end.
  rewrite Hget. vm_compute in Hs. now injection Hs as <-.
Defined.

(** C3, a counterexample to the claim as stated: a capacity of -1 is
    present, finite and not zero, and yet the metric serializes with a null
    [pct]. *)
Lemma pct_null_for_negative_capacity :
  let m := example_metric (of_int 5) (Some (of_int (-1))) in
  Metric.capacity m = Some (of_int (-1)) /\
  is_finite (of_int (-1)) = true /\
  is_zero (of_int (-1)) = false /\
  exists d, Metric.to_serializable_dict m = Ok d /\
            dict_get "capacity" d = Some (PStr "-1") /\
            dict_get "pct" d = Some PNone.
Proof.
  repeat split. eexists. split; [vm_compute; reflexivity|].
  split; reflexivity.
Qed.

(** An infinite capacity does not give a null [pct] either: quantizing the
    capacity entry raises before [pct] is looked at. *)
Lemma infinite_capacity_raises :
  Metric.to_serializable_dict (example_metric (of_int 5) (Some (Inf false)))
  = Raise (InvalidOperation QuantizeInf).
Proof. vm_compute. reflexivity. Qed.

(** ** StatContext *)

(** *** What one merge step does to the tables *)

Lemma update_kernel_metric_effect (cm : ContainerMeasurement.t) (kid : KernelId)
      (measure : Measurement.t) (ctx : StatContext.t) (clk : Clock) :
  let ctx' := fst (fst (StatContext.update_kernel_metric cm kid measure (ctx, clk))) in
  let metrics := default ∅ (StatContext.kernel_metrics ctx !! kid) in
  StatContext.node_metrics ctx' = StatContext.node_metrics ctx /\
  StatContext.device_metrics ctx' = StatContext.device_metrics ctx /\
  exists m',
    StatContext.kernel_metrics ctx'
    = <[kid := <[ContainerMeasurement.key cm := m']> metrics]>
        (StatContext.kernel_metrics ctx) /\
    stored_by (metrics !! ContainerMeasurement.key cm) measure clk m'.
Proof.
  unfold StatContext.update_kernel_metric.
  destruct (default ∅ (StatContext.kernel_metrics ctx !! kid)
              !! ContainerMeasurement.key cm) as [m|] eqn:Hm.
  - destruct (Metric.update m measure clk) as [[m' clk'] r] eqn:Hu. cbn.
    repeat split. exists m'. cbn. now rewrite Hu.
  - destruct clk as [n rd]. cbn. repeat split. eexists. split; reflexivity.
Qed.

Lemma update_node_metric_effect (nm : NodeMeasurement.t)
      (ctx : StatContext.t) (clk : Clock) :
  let ctx' := fst (fst (StatContext.update_node_metric nm (ctx, clk))) in
  StatContext.device_metrics ctx' = StatContext.device_metrics ctx /\
  StatContext.kernel_metrics ctx' = StatContext.kernel_metrics ctx /\
  exists m',
    StatContext.node_metrics ctx'
    = <[NodeMeasurement.key nm := m']> (StatContext.node_metrics ctx) /\
    stored_by (StatContext.node_metrics ctx !! NodeMeasurement.key nm)
              (NodeMeasurement.per_node nm) clk m'.
Proof.
  unfold StatContext.update_node_metric.
  destruct (StatContext.node_metrics ctx !! NodeMeasurement.key nm) as [m|] eqn:Hm.
  - destruct (Metric.update m (NodeMeasurement.per_node nm) clk)
      as [[m' clk'] r] eqn:Hu. cbn.
    repeat split. exists m'. cbn. now rewrite Hu.
  - destruct clk as [n rd]. cbn. repeat split. eexists. split; reflexivity.
Qed.

Lemma update_device_metric_effect (nm : NodeMeasurement.t) (dev_id : DeviceId)
      (measure : Measurement.t) (ctx : StatContext.t) (clk : Clock) :
  let ctx' := fst (fst (StatContext.update_device_metric nm (dev_id, measure)
                                                         (ctx, clk))) in
  let per_device :=
    default ∅ (StatContext.device_metrics ctx !! NodeMeasurement.key nm) in
  StatContext.node_metrics ctx' = StatContext.node_metrics ctx /\
  StatContext.kernel_metrics ctx' = StatContext.kernel_metrics ctx /\
  exists m',
    StatContext.device_metrics ctx'
    = <[NodeMeasurement.key nm := <[dev_id := m']> per_device]>
        (StatContext.device_metrics ctx) /\
    stored_by (per_device !! dev_id) measure clk m'.
Proof.
  unfold StatContext.update_device_metric.
  destruct (default ∅ (StatContext.device_metrics ctx !! NodeMeasurement.key nm)
              !! dev_id) as [m|] eqn:Hm.
  - destruct (Metric.update m measure clk) as [[m' clk'] r] eqn:Hu. cbn.
    repeat split. exists m'. cbn. now rewrite Hu.
  - destruct clk as [n rd]. cbn. repeat split. eexists. split; reflexivity.
Qed.

(** The node and device phase never touches [kernel_metrics]. *)
Lemma merge_node_phase_kernel_metrics (src : Sources) (s : StatContext.state) :
  StatContext.kernel_metrics (fst (fst (StatContext.merge_node_phase src s)))
  = StatContext.kernel_metrics (fst s).
Proof.
  unfold StatContext.merge_node_phase.
  apply (for_each_gathered_invariant
           (fun s' : StatContext.state =>
              StatContext.kernel_metrics (fst s')
              = StatContext.kernel_metrics (fst s))); [|reflexivity].
  intros nm [ctx clk] Hs. unfold StatContext.merge_node_measure.
  pose proof (update_node_metric_effect nm ctx clk) as (_ & Hk & _).
  destruct (StatContext.update_node_metric nm (ctx, clk)) as [s1 [[]|e]];
    cbn in *; [|congruence].
  apply (for_each_invariant
           (fun s' : StatContext.state =>
              StatContext.kernel_metrics (fst s')
              = StatContext.kernel_metrics (fst s))); [|congruence].
  intros [dev_id measure] [ctx2 clk2] H2.
  pose proof (update_device_metric_effect nm dev_id measure ctx2 clk2)
    as (_ & Hk2 & _).
  cbn in *. congruence.
Qed.

(** *** The capacity of a newly created metric (C9) *)

Lemma kernel_metric_created (cm : ContainerMeasurement.t) (kid : KernelId)
      (measure : Measurement.t) (ctx : StatContext.t) (clk : Clock) :
  kernel_metric ctx kid (ContainerMeasurement.key cm) = None ->
  exists ctx' clk' m,
    StatContext.update_kernel_metric cm kid measure (ctx, clk)
    = ((ctx', clk'), Ok tt) /\
    kernel_metric ctx' kid (ContainerMeasurement.key cm) = Some m /\
    Metric.capacity m = Some (Measurement.value measure) /\
    Metric.current m = Measurement.value measure.
Proof.
  unfold kernel_metric, StatContext.update_kernel_metric. intros Hnew.
  rewrite Hnew. destruct clk as [n rd]. cbn.
  eexists _, _, _. split; [reflexivity|]. cbn.
  rewrite lookup_insert_eq. cbn. rewrite lookup_insert_eq. auto.
Qed.

(** C9.  When a round meets a (kernel id, metric key) pair for the first
    time, in the full round as in the single-container round, the metric it
    creates has the measured value as its capacity, whatever capacity the
    measurement carries; the node and the device paths create their metric
    with the capacity of the measurement. *)
Theorem new_kernel_metric_capacity_is_value :
  forall (kernel_id_map : gmap ContainerId KernelId)
         (cm : ContainerMeasurement.t) (cid : ContainerId) (kid : KernelId)
         (measure : Measurement.t) (ctx : StatContext.t) (clk : Clock),
    kernel_id_map !! cid = Some kid ->
    kernel_metric ctx kid (ContainerMeasurement.key cm) = None ->
    (exists ctx' clk' m,
        StatContext.merge_container_item_full kernel_id_map cm (cid, measure)
                                              (ctx, clk)
        = ((ctx', clk'), Ok tt) /\
        kernel_metric ctx' kid (ContainerMeasurement.key cm) = Some m /\
        Metric.capacity m = Some (Measurement.value measure)) /\
    (forall last : option KernelId,
        exists ctx' clk' m,
          StatContext.merge_container_item_single kernel_id_map cid cm
                                                  (cid, measure)
                                                  ((ctx, clk), last)
          = (((ctx', clk'), Some kid), Ok tt) /\
          kernel_metric ctx' kid (ContainerMeasurement.key cm) = Some m /\
          Metric.capacity m = Some (Measurement.value measure)) /\
    (forall nm : NodeMeasurement.t,
        StatContext.node_metrics ctx !! NodeMeasurement.key nm = None ->
        exists ctx' clk' m,
          StatContext.update_node_metric nm (ctx, clk) = ((ctx', clk'), Ok tt) /\
          StatContext.node_metrics ctx' !! NodeMeasurement.key nm = Some m /\
          Metric.capacity m
          = Measurement.capacity (NodeMeasurement.per_node nm)) /\
    (forall (nm : NodeMeasurement.t) (dev_id : DeviceId) (dm : Measurement.t),
        device_metric ctx (NodeMeasurement.key nm) dev_id = None ->
        exists ctx' clk' m,
          StatContext.update_device_metric nm (dev_id, dm) (ctx, clk)
          = ((ctx', clk'), Ok tt) /\
          device_metric ctx' (NodeMeasurement.key nm) dev_id = Some m /\
          Metric.capacity m = Measurement.capacity dm).
Proof.
  intros kmap cm cid kid measure ctx clk Hres Hnew.
  destruct (kernel_metric_created cm kid measure ctx clk Hnew)
    as (ctx' & clk' & m & Hrun & Hget & Hcap & _).
  repeat split.
  - exists ctx', clk', m. unfold StatContext.merge_container_item_full.
    rewrite Hres. auto.
  - intros last. exists ctx', clk', m.
    unfold StatContext.merge_container_item_single.
    rewrite String.eqb_refl, Hres.
    cbn -[StatContext.update_kernel_metric]. rewrite Hrun. auto.
  - intros nm Hn. unfold StatContext.update_node_metric. rewrite Hn.
    destruct clk as [n rd]. cbn. eexists _, _, _. split; [reflexivity|].
    cbn. rewrite lookup_insert_eq. auto.
  - intros nm dev_id dm Hd. unfold device_metric in Hd.
    unfold StatContext.update_device_metric, device_metric. rewrite Hd.
    destruct clk as [n rd]. cbn. eexists _, _, _. split; [reflexivity|].
    cbn. rewrite lookup_insert_eq. cbn. rewrite lookup_insert_eq. auto.
Qed.

(** The claim at a concrete sample: the first measurement (3, capacity 10)
    of container c1, which belongs to kernel k1. *)
Lemma new_kernel_metric_capacity_is_value_witness :
  exists ctx' clk' m,
    StatContext.merge_container_item_full
      {["c1"%string := "k1"%string]} (example_batch [])
      ("c1"%string, Measurement.mk (of_int 3) (Some (of_int 10)))
      (StatContext.init, example_clock)
    = ((ctx', clk'), Ok tt) /\
    kernel_metric ctx' "k1" "mem" = Some m /\
    Metric.capacity m = Some (of_int 3).
Proof.
  refine (proj1 (new_kernel_metric_capacity_is_value
                   {["c1"%string := "k1"%string]} (example_batch [])
                   "c1"%string "k1"%string
                   (Measurement.mk (of_int 3) (Some (of_int 10)))
                   StatContext.init example_clock _ _));
    vm_compute; reflexivity.
Defined.

(** *** Pruning (C2) *)

Lemma lookup_foldr_delete {V : Type} (m : gmap string V) (ks : list string)
      (k : string) :
  foldr delete m ks !! k = if decide (k ∈ ks) then None else m !! k.
Proof.
  induction ks as [|k' ks IH]; cbn.
  - destruct (decide (k ∈ [])) as [H|_]; [inversion H|reflexivity].
  - destruct (decide (k' = k)) as [->|Hne].
    + rewrite lookup_delete_eq. destruct (decide (k ∈ k :: ks)) as [_|H];
        [reflexivity|]. exfalso. apply H. left.
    + rewrite lookup_delete_ne, IH by exact Hne.
      destruct (decide (k ∈ ks)) as [Hin|Hni];
        destruct (decide (k ∈ k' :: ks)) as [Hin'|Hni']; try reflexivity.
      * exfalso. apply Hni'. now right.
      * exfalso. apply elem_of_cons in Hin' as [->|Hin']; [now apply Hne|auto].
Qed.

(** After pruning a kernel id has metrics only if it had them before and is
    a key of the registry. *)
Lemma lookup_prune (registry : Registry) (ctx : StatContext.t) (kid : KernelId) :
  StatContext.kernel_metrics (StatContext.prune registry ctx) !! kid
  = if decide (kid ∈ map fst registry)
    then StatContext.kernel_metrics ctx !! kid else None.
Proof.
  unfold StatContext.prune, StatContext.used_kernel_ids_of. cbn.
  rewrite lookup_foldr_delete.
  destruct (decide (kid ∈ map fst registry)) as [Hin|Hni];
    destruct (decide (kid ∈ elements _)) as [He|He]; try reflexivity.
  - exfalso. apply elem_of_elements, elem_of_difference in He as [_ He].
    apply He. now apply elem_of_list_to_set.
  - destruct (StatContext.kernel_metrics ctx !! kid) eqn:Hk; [|reflexivity].
    exfalso. apply He, elem_of_elements, elem_of_difference. split.
    + apply elem_of_dom. eauto.
    + intros Hin. now apply elem_of_list_to_set in Hin.
Qed.





(** *** A container id the registry does not know (C1) *)

(** The single-container round skips a sample whose container id does not
    resolve: the tables, the clock and [kernel_id] stay as they are and the
    loop goes on. *)
Lemma single_round_skips_unresolved
      (kernel_id_map : gmap ContainerId KernelId) (container_id : ContainerId)
      (cm : ContainerMeasurement.t) (measure : Measurement.t)
      (st : StatContext.single_state) :
  kernel_id_map !! container_id = None ->
  StatContext.merge_container_item_single kernel_id_map container_id cm
                                          (container_id, measure) st
  = (st, Ok tt).
Proof.
  intros Hnone. destruct st as [s last].
  unfold StatContext.merge_container_item_single.
  now rewrite String.eqb_refl, Hnone.
Qed.

(** The single-container round asked about a container the registry does
    not know returns normally, with no kernel id and the tables unchanged. *)
Lemma single_round_unresolved_example :
  StatContext.collect_container_stat
    (example_source [("c2"%string, Measurement.mk (of_int 1) None)])
    [("k1"%string, "c1"%string)] "c2"%string
    (StatContext.init, example_clock)
  = ((StatContext.init, example_clock), Ok None).
Proof. vm_compute. reflexivity. Qed.

(** In the full round an item whose container id does not resolve raises
    [KeyError] and leaves the state as it is. *)
Lemma full_round_item_raises
      (kernel_id_map : gmap ContainerId KernelId) (cid : ContainerId)
      (cm : ContainerMeasurement.t) (measure : Measurement.t)
      (s : StatContext.state) :
  kernel_id_map !! cid = None ->
  StatContext.merge_container_item_full kernel_id_map cm (cid, measure) s
  = (s, Raise KeyError).
Proof.
  intros Hnone. unfold StatContext.merge_container_item_full. now rewrite Hnone.
Qed.


(** *** Every stored metric has been counted at least once (C10) *)

Lemma stats_update_count (s : MovingStatistics.t) (v : Decimal) (clk : Clock) :
  MovingStatistics._count s
  <= MovingStatistics._count (fst (fst (MovingStatistics.update s v clk))).
Proof.
  unfold MovingStatistics.update.
  destruct (dec_add _ _); [|cbn; lia].
  destruct (py_min _ _); [|cbn; lia].
  destruct (py_max _ _); cbn; lia.
Qed.

Lemma metric_update_counted (m : Metric.t) (measure : Measurement.t) (clk : Clock) :
  counted m -> counted (fst (fst (Metric.update m measure clk))).
Proof.
  unfold counted, Metric.update. intros Hm.
  pose proof (stats_update_count (Metric.stats m) (Measurement.value measure) clk)
    as Hc.
  destruct (MovingStatistics.update _ _ _) as [[st clk'] [[]|e]]; cbn in *;
    [|lia].
  destruct (Metric.current_hook m) as [hook|]; [|cbn; lia].
  destruct (hook _); cbn; lia.
Qed.

(** A stored-or-created metric is counted when the one it replaces was. *)
Lemma stored_by_counted (old : option Metric.t) (measure : Measurement.t)
      (clk : Clock) (m' : Metric.t) :
  (forall m, old = Some m -> counted m) ->
  stored_by old measure clk m' -> counted m'.
Proof.
  intros Hold Hst. destruct old as [m|]; cbn in Hst.
  - subst m'. apply metric_update_counted. auto.
  - unfold counted. rewrite Hst. destruct clk. cbn. lia.
Qed.

(** Lookup in a table of tables after one entry of one inner table was
    set. *)
Lemma lookup_nested_insert (t : gmap string (gmap string Metric.t))
      (i j i' j' : string) (m : Metric.t) :
  default ∅ (<[i := <[j := m]> (default ∅ (t !! i))]> t !! i') !! j'
  = if decide (i = i' /\ j = j') then Some m else default ∅ (t !! i') !! j'.
Proof.
  destruct (decide (i = i')) as [->|Hi].
  - rewrite lookup_insert_eq. cbn.
    destruct (decide (j = j')) as [->|Hj].
    + rewrite lookup_insert_eq. destruct (decide _) as [_|H]; [reflexivity|].
      exfalso. auto.
    + rewrite lookup_insert_ne by exact Hj.
      destruct (decide _) as [[_ H]|_]; [contradiction|reflexivity].
  - rewrite lookup_insert_ne by exact Hi.
    destruct (decide _) as [[H _]|_]; [contradiction|reflexivity].
Qed.

Lemma update_kernel_metric_counted (cm : ContainerMeasurement.t) (kid : KernelId)
      (measure : Measurement.t) (s : StatContext.state) :
  all_counted (fst s) ->
  all_counted (fst (fst (StatContext.update_kernel_metric cm kid measure s))).
Proof.
  destruct s as [ctx clk]. intros Hctx.
  pose proof (update_kernel_metric_effect cm kid measure ctx clk)
    as (Hn & Hd & m' & Hk & Hst).
  cbn [fst] in *. apply stored_by_counted in Hst.
  2:{ intros m Hm. apply Hctx. right. right. eexists _, _. exact Hm. }
  intros m [[k Hm]|[(k & d & Hm)|(kid' & k & Hm)]].
  - apply Hctx. left. exists k. congruence.
  - apply Hctx. right. left. exists k, d. unfold device_metric in *. congruence.
  - unfold kernel_metric in Hm. rewrite Hk, lookup_nested_insert in Hm.
    destruct (decide _); [congruence|].
    apply Hctx. right. right. exists kid', k. exact Hm.
Qed.

Lemma update_node_metric_counted (nm : NodeMeasurement.t) (s : StatContext.state) :
  all_counted (fst s) ->
  all_counted (fst (fst (StatContext.update_node_metric nm s))).
Proof.
  destruct s as [ctx clk]. intros Hctx.
  pose proof (update_node_metric_effect nm ctx clk) as (Hd & Hk & m' & Hn & Hst).
  cbn [fst] in *. apply stored_by_counted in Hst.
  2:{ intros m Hm. apply Hctx. left. eexists. exact Hm. }
  intros m [[k Hm]|[(k & d & Hm)|(kid' & k & Hm)]].
  - rewrite Hn in Hm.
    destruct (decide (NodeMeasurement.key nm = k)) as [Heq|Hne].
    + subst k. rewrite lookup_insert_eq in Hm. congruence.
    + rewrite lookup_insert_ne in Hm by exact Hne. apply Hctx. left. eauto.
  - apply Hctx. right. left. exists k, d. unfold device_metric in *. congruence.
  - apply Hctx. right. right. exists kid', k. unfold kernel_metric in *. congruence.
Qed.

Lemma update_device_metric_counted (nm : NodeMeasurement.t)
      (item : DeviceId * Measurement.t) (s : StatContext.state) :
  all_counted (fst s) ->
  all_counted (fst (fst (StatContext.update_device_metric nm item s))).
Proof.
  destruct s as [ctx clk], item as [dev_id measure]. intros Hctx.
  pose proof (update_device_metric_effect nm dev_id measure ctx clk)
    as (Hn & Hk & m' & Hd & Hst).
  cbn [fst] in *. apply stored_by_counted in Hst.
  2:{ intros m Hm. apply Hctx. right. left. eexists _, _. exact Hm. }
  intros m [[k Hm]|[(k & d & Hm)|(kid' & k & Hm)]].
  - apply Hctx. left. exists k. congruence.
  - unfold device_metric in Hm. rewrite Hd, lookup_nested_insert in Hm.
    destruct (decide _); [congruence|].
    apply Hctx. right. left. exists k, d. exact Hm.
  - apply Hctx. right. right. exists kid', k. unfold kernel_metric in *. congruence.
Qed.

Lemma prune_counted (registry : Registry) (ctx : StatContext.t) :
  all_counted ctx -> all_counted (StatContext.prune registry ctx).
Proof.
  intros Hctx m [[k Hm]|[(k & d & Hm)|(kid & k & Hm)]].
  - apply Hctx. left. eauto.
  - apply Hctx. right. left. eauto.
  - unfold kernel_metric in Hm. rewrite lookup_prune in Hm.
    destruct (decide _); [|cbn in Hm; rewrite lookup_empty in Hm; discriminate].
    apply Hctx. right. right. eauto.
Qed.

Lemma collect_node_stat_counted (src : Sources) (registry : Registry)
      (s : StatContext.state) :
  all_counted (fst s) ->
  all_counted (fst (fst (StatContext.collect_node_stat src registry s))).
Proof.
  intros Hs. unfold StatContext.collect_node_stat.
  assert (H1 : all_counted (fst (fst (StatContext.merge_node_phase src s)))).
  { unfold StatContext.merge_node_phase.
    apply (for_each_gathered_invariant
             (fun s' : StatContext.state => all_counted (fst s'))); [|exact Hs].
    intros nm s1 Hs1. unfold StatContext.merge_node_measure.
    pose proof (update_node_metric_counted nm s1 Hs1) as Hn.
    destruct (StatContext.update_node_metric nm s1) as [s2 [[]|e]];
      cbn [fst] in *; [|exact Hn].
    apply (for_each_invariant
             (fun s' : StatContext.state => all_counted (fst s'))); [|exact Hn].
    intros item s3. apply update_device_metric_counted. }
  destruct (StatContext.merge_node_phase src s) as [[ctx1 clk1] [[]|e]];
    cbn [fst] in *; [|exact H1].
  unfold StatContext.merge_container_phase.
  apply (for_each_gathered_invariant
           (fun s' : StatContext.state => all_counted (fst s')));
    [|now apply prune_counted].
  intros cm s1 Hs1.
  apply (for_each_invariant
           (fun s' : StatContext.state => all_counted (fst s'))); [|exact Hs1].
  intros [cid measure] s2 Hs2. unfold StatContext.merge_container_item_full.
  destruct (_ !! cid); [|exact Hs2].
  now apply update_kernel_metric_counted.
Qed.

Lemma collect_container_stat_counted (src : Sources) (registry : Registry)
      (container_id : ContainerId) (s : StatContext.state) :
  all_counted (fst s) ->
  all_counted
    (fst (fst (StatContext.collect_container_stat src registry container_id s))).
Proof.
  intros Hs. unfold StatContext.collect_container_stat.
  match goal with
  | |- context [for_each_gathered ?body ?outs ?init] =>
      assert (H : all_counted (fst (fst (fst (for_each_gathered body outs init)))));
      [|destruct (for_each_gathered body outs init) as [[s' kid] r]; exact H]
  end.
  apply (for_each_gathered_invariant
           (fun st : StatContext.single_state => all_counted (fst (fst st))));
    [|exact Hs].
  intros cm st Hst.
  apply (for_each_invariant
           (fun st : StatContext.single_state => all_counted (fst (fst st))));
    [|exact Hst].
  intros [cid measure] [s2 last] Hs2.
  unfold StatContext.merge_container_item_single.
  destruct (negb _); [exact Hs2|].
  destruct (_ !! cid) as [kid|]; [|exact Hs2].
  pose proof (update_kernel_metric_counted cm kid measure s2 Hs2) as Hk.
  destruct (StatContext.update_kernel_metric cm kid measure s2) as [s3 r].
  exact Hk.
Qed.

Lemma reachable_all_counted (ctx : StatContext.t) :
  reachable ctx -> all_counted ctx.
Proof.
  induction 1 as [|src registry ctx clk _ IH|src registry cid ctx clk _ IH].
  - intros m [[k Hm]|[(k & d & Hm)|(kid & k & Hm)]]; cbn in Hm;
      unfold device_metric, kernel_metric in *; cbn in *;
      repeat rewrite lookup_empty in Hm; cbn in Hm;
      try rewrite lookup_empty in Hm; discriminate.
  - now apply (collect_node_stat_counted src registry (ctx, clk)).
  - now apply (collect_container_stat_counted src registry cid (ctx, clk)).
Qed.

(** C10.  Every metric in a table of a reachable context has a count of at
    least 1, so its average never fails for a zero divisor: neither
    [DivisionByZero] nor the 0/0 error is raised, in particular when the
    tables are serialized. *)
Theorem resident_metrics_are_counted :
  forall (ctx : StatContext.t) (m : Metric.t),
    reachable ctx -> resident ctx m ->
    1 <= MovingStatistics._count (Metric.stats m) /\
    MovingStatistics.avg (Metric.stats m) <> Raise DivisionByZero /\
    MovingStatistics.avg (Metric.stats m)
    <> Raise (InvalidOperation DivisionUndefined).
Proof.
  intros ctx m Hr Hm.
  assert (Hc : counted m) by (eapply reachable_all_counted; eauto).
  split; [exact Hc|].
  unfold MovingStatistics.avg.
  assert (Hnz : is_zero (of_int (MovingStatistics._count (Metric.stats m))) = false).
  { unfold of_int, is_zero, counted in *. apply N.eqb_neq. lia. }
  split; intros H; eapply dec_div_zero_divisor in H; eauto; congruence.
Qed.

(** The claim at a concrete context: the metric of kernel k0 after the
    first round. *)
Lemma resident_metrics_are_counted_witness :
  exists m,
    kernel_metric (fst tables_with_k0) "k0" "mem" = Some m /\
    1 <= MovingStatistics._count (Metric.stats m) /\
    MovingStatistics.avg (Metric.stats m) <> Raise DivisionByZero.
Proof.
  eexists. split; [vm_compute; reflexivity|].
  match goal with
  | |- 1 <= MovingStatistics._count (Metric.stats ?m) /\ _ =>
      destruct (resident_metrics_are_counted (fst tables_with_k0) m)
        as (Hc & Hz & _)
  end.
  - apply (reachable_node_round _ _ StatContext.init example_clock reachable_init).
  - right. right. exists "k0"%string, "mem"%string. vm_compute. reflexivity.
  - split; assumption.
Defined.

(** * Further properties *)

(** ** Loops *)

Lemma for_each_app {S A : Type} (body : A -> S -> S * result unit)
      (l1 l2 : list A) (s : S) :
  for_each body (l1 ++ l2) s
  = match for_each body l1 s with
    | (s', Ok _) => for_each body l2 s'
    | (s', Raise e) => (s', Raise e)
    end.
Proof.
  revert s. induction l1 as [|x l1 IH]; intros s; cbn; [reflexivity|].
  destruct (body x s) as [s' [[]|e]]; auto.
Qed.

Lemma for_each_map {S A B : Type} (body : B -> S -> S * result unit) (f : A -> B)
      (l : list A) (s : S) :
  for_each body (map f l) s = for_each (fun a => body (f a)) l s.
Proof.
  revert s. induction l as [|a l IH]; intros s; cbn; [reflexivity|].
  destruct (body (f a) s) as [s' [[]|e]]; auto.
Qed.

(** Two nested loops are one loop over the pairs. *)
Lemma for_each_nested {S A B : Type} (body : A -> B -> S -> S * result unit)
      (items : A -> list B) (l : list A) (s : S) :
  for_each (fun a => for_each (body a) (items a)) l s
  = for_each (fun p => body (fst p) (snd p))
             (flat_map (fun a => map (pair a) (items a)) l) s.
Proof.
  revert s. induction l as [|a l IH]; intros s; cbn [for_each flat_map];
    [reflexivity|].
  rewrite for_each_app, for_each_map. cbn [fst snd].
  change (fun b : B => body a b) with (body a).
  destruct (for_each (body a) (items a) s) as [s' [[]|e]]; auto.
Qed.

Lemma for_each_gathered_flat {S A : Type} (body : A -> S -> S * result unit)
      (outcomes : list (result (list A))) (s : S) :
  for_each_gathered body outcomes s = for_each body (gathered outcomes) s.
Proof.
  unfold for_each_gathered, gathered. revert s.
  induction outcomes as [|o rest IH]; intros s; cbn; [reflexivity|].
  destruct o as [measures|e]; cbn.
  - rewrite for_each_app. destruct (for_each body measures s) as [s' [[]|e]]; auto.
  - apply IH.
Qed.


(** A property kept by the body on the elements of the list holds at the
    end of the loop. *)
Lemma for_each_invariant_in {S A : Type} (P : S -> Prop)
      (body : A -> S -> S * result unit) (l : list A) :
  (forall x s, In x l -> P s -> P (fst (body x s))) ->
  forall s, P s -> P (fst (for_each body l s)).
Proof.
  induction l as [|x rest IH]; intros Hbody s Hs; cbn; [exact Hs|].
  pose proof (Hbody x s (or_introl eq_refl) Hs) as Hx.
  destruct (body x s) as [s' [[]|e]]; cbn in *; [|exact Hx].
  apply IH; [|exact Hx]. intros y s2 Hy. apply Hbody. now right.
Qed.

(** When every completed step adds to what the state holds exactly what its
    element brings, a completed loop adds what the elements of the list
    bring. *)
Lemma for_each_ok_adds {S A X : Type} (has : S -> X -> Prop) (adds : A -> X -> Prop)
      (body : A -> S -> S * result unit) (l : list A) :
  (forall a s s', a ∈ l -> body a s = (s', Ok tt) ->
                  forall x, has s' x <-> has s x \/ adds a x) ->
  forall s s', for_each body l s = (s', Ok tt) ->
               forall x, has s' x <-> has s x \/ exists a, a ∈ l /\ adds a x.
Proof.
  induction l as [|a rest IH]; intros Hbody s s' Hrun x; cbn in Hrun.
  - injection Hrun as <-. split; [auto|].
    intros [H|(a & Ha & _)]; [exact H|]. now apply not_elem_of_nil in Ha.
  - destruct (body a s) as [s1 [[]|e]] eqn:Hb; [|discriminate].
    rewrite (IH ltac:(intros a' s2 s3 Hin; apply Hbody; now right) s1 s' Hrun x).
    rewrite (Hbody a s s1 ltac:(left) Hb x). split.
    + intros [[H|H]|(a' & Ha' & H)]; auto.
      * right. exists a. split; [left|exact H].
      * right. exists a'. split; [now right|exact H].
    + intros [H|(a' & Ha' & H)]; auto.
      apply elem_of_cons in Ha' as [->|Ha']; [auto|].
      right. exists a'. auto.
Qed.

(** ** Decimal arithmetic *)

(** *** Addition at one exponent *)

Lemma dec_Q_signed (s : bool) (c : N) (e : Z) :
  dec_Q (Fin s c e) = (inject_Z (signed s c) * Qpower (10 # 1) e)%Q.
Proof. reflexivity. Qed.

Lemma normalize_ops_same_exp (c1 c2 : N) (e : Z) :
  normalize_ops c1 e c2 e = ((c1, c2), e).
Proof.
  unfold normalize_ops. rewrite Z.ltb_irrefl.
  pose proof (ndigits_pos c2) as H2.
  assert (H : (ndigits c2 + e - 1 <? e + Z.min (-1) (ndigits c1 - prec - 2)) = false)
    by (apply Z.ltb_ge; lia).
  rewrite H, Z.sub_diag, pow10_0, N.mul_1_r. reflexivity.
Qed.

(** Two numbers with one exponent whose coefficients add up to fewer than
    [prec] digits are added exactly. *)
Lemma dec_add_same_exp (s1 s2 : bool) (c1 c2 : N) (e : Z) :
  Etiny <= e <= Etop -> (c1 + c2 < pow10 prec)%N ->
  exists s c,
    dec_add (Fin s1 c1 e) (Fin s2 c2 e) = Ok (Fin s c e) /\
    signed s c = signed s1 c1 + signed s2 c2 /\ (c <= c1 + c2)%N.
Proof.
  intros He Hsum.
  assert (Hfix : forall s c, (c <= c1 + c2)%N ->
                             dec_fix (Fin s c e) = Ok (Fin s c e)).
  { intros s c Hc. apply dec_fix_id; [|exact He].
    apply ndigits_below; [unfold prec; lia|lia]. }
  unfold dec_add. cbn [check_nans is_snan is_nan]. rewrite Z.min_id.
  destruct (N.eqb_spec c1 0) as [->|H1], (N.eqb_spec c2 0) as [->|H2]; cbn [andb].
  - exists (s1 && s2), 0%N. rewrite Hfix by lia. repeat split; [|lia].
    unfold signed. now destruct s1, s2.
  - assert (Hr : rescale s2 c2 e (Z.max e (e - prec - 1)) = Fin s2 c2 e).
    { replace (Z.max e (e - prec - 1)) with e by (unfold prec; lia).
      unfold rescale. apply N.eqb_neq in H2. rewrite H2.
      assert (Hge : (e >=? e) = true) by (apply Z.geb_le; lia).
      now rewrite Hge, Z.sub_diag, pow10_0, N.mul_1_r. }
    rewrite Hr. exists s2, c2. rewrite Hfix by lia. repeat split; [|lia].
    unfold signed. destruct s1; cbn; lia.
  - assert (Hr : rescale s1 c1 e (Z.max e (e - prec - 1)) = Fin s1 c1 e).
    { replace (Z.max e (e - prec - 1)) with e by (unfold prec; lia).
      unfold rescale. apply N.eqb_neq in H1. rewrite H1.
      assert (Hge : (e >=? e) = true) by (apply Z.geb_le; lia).
      now rewrite Hge, Z.sub_diag, pow10_0, N.mul_1_r. }
    rewrite Hr. exists s1, c1. rewrite Hfix by lia. repeat split; [|lia].
    unfold signed. destruct s2; cbn; lia.
  - rewrite normalize_ops_same_exp.
    destruct (Bool.eqb s1 s2) eqn:Hs.
    + apply Bool.eqb_prop in Hs. subst s2.
      exists s1, (c1 + c2)%N. rewrite Hfix by lia. repeat split; [|lia].
      unfold signed. destruct s1; lia.
    + destruct (N.eqb_spec c1 c2) as [->|Hne].
      * exists false, 0%N. rewrite Hfix by lia. repeat split; [|lia].
        unfold signed. destruct s1, s2; try discriminate; lia.
      * destruct (N.ltb_spec c1 c2) as [Hlt|Hge].
        -- exists s2, (c2 - c1)%N. rewrite Hfix by lia. repeat split; [|lia].
           unfold signed. destruct s1, s2; try discriminate; lia.
        -- exists s1, (c1 - c2)%N. rewrite Hfix by lia. repeat split; [|lia].
           unfold signed. destruct s1, s2; try discriminate; lia.
Qed.

(** The first value added to the zero of an unseeded accumulator. *)
Lemma dec_add_to_zero (s : bool) (c : N) (e : Z) :
  Etiny <= e <= 0 -> (c < pow10 prec)%N ->
  exists s', dec_add (of_int 0) (Fin s c e) = Ok (Fin s' c e) /\
             signed s' c = signed s c.
Proof.
  intros He Hc.
  assert (Hfix : forall s0, dec_fix (Fin s0 c e) = Ok (Fin s0 c e)).
  { intros s0. apply dec_fix_id; [|ctx_consts; lia].
    apply ndigits_below; [unfold prec; lia|lia]. }
  unfold dec_add, of_int. cbn [check_nans is_snan is_nan Z.ltb Z.compare Z.abs_N].
  cbn [N.eqb andb]. replace (Z.min 0 e) with e by lia.
  destruct (N.eqb_spec c 0) as [->|Hnz].
  - exists false. rewrite Hfix. split; [reflexivity|now destruct s].
  - replace (Z.max e (e - prec - 1)) with e by (unfold prec; lia).
    unfold rescale. apply N.eqb_neq in Hnz. rewrite Hnz.
    assert (Hge : (e >=? e) = true) by (apply Z.geb_le; lia).
    rewrite Hge, Z.sub_diag, pow10_0, N.mul_1_r, Hfix. eauto.
Qed.

Lemma sum_Q_cons (v : Decimal) (l : list Decimal) :
  sum_Q (v :: l) = (dec_Q v + sum_Q l)%Q.
Proof. reflexivity. Qed.

(** *** Comparisons of numbers *)

Lemma py_min_number (a b : Decimal) :
  number a -> number b -> exists r, py_min a b = Ok r /\ number r.
Proof.
  unfold number, py_min, dec_ltb, compare_checked. intros Ha Hb.
  rewrite Ha, Hb. cbn. destruct (dec_cmp b a); eauto.
Qed.

Lemma py_max_number (a b : Decimal) :
  number a -> number b -> exists r, py_max a b = Ok r /\ number r.
Proof.
  unfold number, py_max, dec_gtb, compare_checked. intros Ha Hb.
  rewrite Ha, Hb. cbn. destruct (dec_cmp b a); eauto.
Qed.

(** *** What can be quantized *)

Lemma quantize_ok_quantizable (d y : Decimal) (qs : bool) (qc : N) (k : Z) :
  quantize d (Fin qs qc (- k)) = Ok y -> quantizable k d.
Proof.
  destruct d as [s c e|s|s sg p]; unfold quantize, quantizable.
  - cbn [check_nans is_snan is_nan].
    destruct (negb _); [discriminate|].
    destruct (c =? 0)%N eqn:Hc; [intros _; left; now apply N.eqb_eq|].
    destruct (adjusted c e >? Emax); [discriminate|].
    destruct (adjusted c e - - k + 1 >? prec) eqn:Hp; [discriminate|].
    intros _. right. apply gtb_false_iff in Hp. lia.
  - cbn. discriminate.
  - unfold check_nans. destruct sg; [discriminate|reflexivity].
Qed.

Lemma format_decimal_ok_quantizable (d : Decimal) (qs : bool) (qc : N) (k : Z)
      (str : string) :
  format_decimal (Fin qs qc (- k)) d = Ok str -> quantizable k d.
Proof.
  unfold format_decimal, formatted.
  destruct (quantize d (Fin qs qc (- k))) as [y|] eqn:Hq; [|discriminate].
  intros _. eapply quantize_ok_quantizable; eauto.
Qed.

(** ** MovingStatistics *)

(** *** The count *)

(** An update counts and reads the clock exactly when it returns. *)
Lemma update_count_ticks (s : MovingStatistics.t) (v : Decimal) (clk : Clock) :
  let '((s', clk'), r) := MovingStatistics.update s v clk in
  (r = Ok tt /\ MovingStatistics._count s' = MovingStatistics._count s + 1 /\
   ticks clk' = S (ticks clk)) \/
  (is_ok r = false /\ MovingStatistics._count s' = MovingStatistics._count s /\
   clk' = clk).
Proof.
  unfold MovingStatistics.update.
  destruct (dec_add _ _); [|right; auto].
  destruct (py_min _ _); [|right; auto].
  destruct (py_max _ _); [|right; auto].
  destruct clk. left. auto.
Qed.

Lemma feed_count_ticks (vs : list Decimal) :
  forall (s : MovingStatistics.t) (clk : Clock),
    let '((s', clk'), r) := feed s vs clk in
    MovingStatistics._count s' - MovingStatistics._count s
    = Z.of_nat (ticks clk' - ticks clk) /\
    (ticks clk <= ticks clk')%nat /\
    (ticks clk' - ticks clk <= length vs)%nat /\
    (r = Ok tt -> (ticks clk' - ticks clk = length vs)%nat) /\
    (is_ok r = false -> (ticks clk' - ticks clk < length vs)%nat).
Proof.
  induction vs as [|v rest IH]; intros s clk.
  - cbn. repeat split; try lia; try discriminate.
  - rewrite feed_cons.
    pose proof (update_count_ticks s v clk) as Hu.
    destruct (MovingStatistics.update s v clk) as [[s1 c1] r1].
    destruct Hu as [(-> & Hc & Ht)|(Hr & Hc & ->)].
    + specialize (IH s1 c1). destruct (feed s1 rest c1) as [[s' clk'] r].
      destruct IH as (IH1 & IH2 & IH3 & IH4 & IH5). cbn [length].
      repeat split; try lia.
      * intros H. specialize (IH4 H). lia.
      * intros H. specialize (IH5 H). lia.
    + destruct r1 as [[]|e]; [discriminate|]. cbn [length].
      repeat split; try lia; try discriminate.
Qed.

(** X1.  The count is the number of values the accumulator accepted, and one
    clock reading is taken per accepted value: whatever the outcome of a
    run, [_count] is the number of readings drawn; it is the number of
    submitted values when the run completes and is smaller when an update
    raised. *)
Theorem count_is_number_of_accepted_values :
  forall (seed : option Decimal) (vs : list Decimal) (clk : Clock),
    let '((s, clk'), r) := run_stats seed vs clk in
    MovingStatistics._count s = Z.of_nat (ticks clk' - ticks clk) /\
    MovingStatistics._count s <= Z.of_nat (length (submitted seed vs)) /\
    (r = Ok tt ->
     MovingStatistics._count s = Z.of_nat (length (submitted seed vs))) /\
    (is_ok r = false ->
     MovingStatistics._count s < Z.of_nat (length (submitted seed vs))).
Proof.
  intros seed vs clk. unfold run_stats.
  destruct seed as [v0|]; cbn [MovingStatistics.init submitted].
  - destruct clk as [n rd]. cbn [perf_counter].
    match goal with
    | |- context [feed ?s0 vs ?c0] =>
        pose proof (feed_count_ticks vs s0 c0) as H;
        destruct (feed s0 vs c0) as [[s clk'] r]
    end.
    cbn [MovingStatistics._count ticks length] in *.
    destruct H as (H1 & H2 & H3 & H4 & H5).
    repeat split; try lia.
    + intros Hr. specialize (H4 Hr). lia.
    + intros Hr. specialize (H5 Hr). lia.
  - pose proof (feed_count_ticks vs (MovingStatistics.mk (of_int 0) 0 (Inf false)
                                                         (Inf true) []) clk) as H.
    destruct (feed _ vs clk) as [[s clk'] r].
    cbn [MovingStatistics._count] in *.
    destruct H as (H1 & H2 & H3 & H4 & H5).
    repeat split; try lia.
    + intros Hr. specialize (H4 Hr). lia.
    + intros Hr. specialize (H5 Hr). lia.
Qed.

(** X1 at a concrete run: seed 1, then 2, a NaN (rejected) and 3 (never
    reached). *)
Lemma count_is_number_of_accepted_values_witness :
  let '((s, _), r) :=
    run_stats (Some (of_int 1)) [of_int 2; NaN false false 0; of_int 3]
              example_clock in
  is_ok r = false /\ MovingStatistics._count s = 2.
Proof.
  pose proof (count_is_number_of_accepted_values
                (Some (of_int 1)) [of_int 2; NaN false false 0; of_int 3]
                example_clock) as H.
  destruct (run_stats _ _ example_clock) as [[s clk'] r] eqn:Hrun.
  destruct H as (Hc & _).
  assert (Hr : is_ok r = false /\ ticks clk' = 2%nat)
    by (vm_compute in Hrun; injection Hrun as _ <- <-; split; reflexivity).
  destruct Hr as [Hr Ht]. split; [exact Hr|]. rewrite Hc, Ht. reflexivity.
Defined.

(** *** A NaN among the values *)

(** A sum that is a NaN stays one through an update, whatever its
    outcome. *)
Lemma update_nan_sum (s : MovingStatistics.t) (v : Decimal) (clk : Clock) :
  is_nan (MovingStatistics._sum s) = true ->
  is_nan (MovingStatistics._sum (fst (fst (MovingStatistics.update s v clk)))) = true.
Proof.
  intros Hs. unfold MovingStatistics.update.
  destruct (dec_add (MovingStatistics._sum s) v) as [r|e] eqn:Ha; [|exact Hs].
  assert (Hr : is_nan r = true).
  { unfold dec_add, check_nans in Ha.
    destruct (MovingStatistics._sum s) as [| |s1 g1 p1]; try discriminate.
    destruct g1; [discriminate|]. cbn [is_snan is_nan] in Ha.
    destruct (is_snan v); [discriminate|]. injection Ha as <-.
    cbn. now destruct (ndigits p1 >? prec). }
  destruct (py_min _ _); [|exact Hr].
  destruct (py_max _ _); [|exact Hr].
  destruct clk. exact Hr.
Qed.

(** The outcome of an update with a quiet NaN. *)
Lemma update_nan_raises (s : MovingStatistics.t) (sg : bool) (p : N) (clk : Clock) :
  is_nan (MovingStatistics._sum s) = false ->
  MovingStatistics.update s (NaN sg false p) clk
  = ((MovingStatistics.mk (fix_nan (NaN sg false p))
                          (MovingStatistics._count s)
                          (MovingStatistics._min s)
                          (MovingStatistics._max s)
                          (MovingStatistics._last s), clk),
     Raise (InvalidOperation NaNComparison)).
Proof.
  intros Hs. unfold MovingStatistics.update, dec_add, check_nans.
  destruct (MovingStatistics._sum s) as [s1 c1 e1|s1|s1 g1 p1]; try discriminate;
    cbn [is_snan is_nan]; unfold py_min, dec_ltb, compare_checked;
    cbn [is_nan orb mbind result_bind MovingStatistics._min]; reflexivity.
Qed.

(** X2.  An update with a quiet NaN raises [InvalidOperation] in [min], after
    [_sum] has been replaced by the NaN: count, minimum, maximum, retained
    points and clock are as before, the sum is not.  From then on the sum
    is a NaN after every later update, whatever its outcome. *)
Theorem update_with_nan_poisons_sum :
  forall (s : MovingStatistics.t) (sg : bool) (p : N) (clk : Clock),
    is_nan (MovingStatistics._sum s) = false ->
    MovingStatistics.update s (NaN sg false p) clk
    = ((MovingStatistics.mk (fix_nan (NaN sg false p))
                            (MovingStatistics._count s)
                            (MovingStatistics._min s)
                            (MovingStatistics._max s)
                            (MovingStatistics._last s), clk),
       Raise (InvalidOperation NaNComparison)) /\
    (forall (later : list Decimal) (clk1 clk2 : Clock),
        let poisoned := fst (fst (MovingStatistics.update s (NaN sg false p) clk1)) in
        is_nan (MovingStatistics._sum (fst (fst (feed poisoned later clk2)))) = true).
Proof.
  intros s sg p clk Hs. split; [now apply update_nan_raises|].
  intros later clk1 clk2 poisoned.
  assert (Hp : is_nan (MovingStatistics._sum poisoned) = true).
  { subst poisoned. rewrite update_nan_raises by exact Hs.
    cbn. now destruct (ndigits p >? prec). }
  unfold feed.
  apply (for_each_invariant
           (fun sc : MovingStatistics.t * Clock =>
              is_nan (MovingStatistics._sum (fst sc)) = true)); [|exact Hp].
  intros v [s' c'] H. now apply update_nan_sum.
Qed.

(** X2 at a concrete accumulator: seeded with 5. *)
Lemma update_with_nan_poisons_sum_witness :
  let s := fst (MovingStatistics.init (Some (of_int 5)) example_clock) in
  fst (fst (MovingStatistics.update s (NaN false false 0) example_clock))
  = MovingStatistics.mk (NaN false false 0) 1 (of_int 5) (of_int 5)
      (MovingStatistics._last s) /\
  snd (MovingStatistics.update s (NaN false false 0) example_clock)
  = Raise (InvalidOperation NaNComparison).
Proof.
  intros s.
  destruct (update_with_nan_poisons_sum s false 0 example_clock eq_refl) as [H _].
  rewrite H. split; reflexivity.
Defined.

(** *** The running sum of aligned values *)

(** An update returns when the addition does and no NaN is compared. *)
Lemma update_returns (s : MovingStatistics.t) (v sm : Decimal) (clk : Clock) :
  dec_add (MovingStatistics._sum s) v = Ok sm ->
  number (MovingStatistics._min s) -> number (MovingStatistics._max s) ->
  number v ->
  exists s' clk',
    MovingStatistics.update s v clk = ((s', clk'), Ok tt) /\
    MovingStatistics._sum s' = sm /\
    number (MovingStatistics._min s') /\ number (MovingStatistics._max s').
Proof.
  intros Hadd Hmin Hmax Hv. unfold MovingStatistics.update. rewrite Hadd.
  cbn [MovingStatistics._min MovingStatistics._max].
  destruct (py_min_number _ _ Hmin Hv) as (mn & -> & Hmn).
  destruct (py_max_number _ _ Hmax Hv) as (mx & -> & Hmx).
  destruct clk as [n rd]. cbn. eauto 6.
Qed.

(** Feeding values written with the exponent of the sum. *)
Lemma feed_aligned (e : Z) (vs : list Decimal) :
  Etiny <= e <= 0 -> Forall (aligned e) vs ->
  forall (s : MovingStatistics.t) (clk : Clock) (sg : bool) (c : N),
    MovingStatistics._sum s = Fin sg c e ->
    number (MovingStatistics._min s) -> number (MovingStatistics._max s) ->
    (c + total_coefficient vs < pow10 prec)%N ->
    exists s' clk',
      feed s vs clk = ((s', clk'), Ok tt) /\
      aligned e (MovingStatistics._sum s') /\
      (dec_Q (MovingStatistics._sum s') == dec_Q (Fin sg c e) + sum_Q vs)%Q.
Proof.
  intros He. induction 1 as [|v rest (sv & cv & ->) _ IH];
    intros s clk sg c Hsum Hmin Hmax Hbound.
  - exists s, clk. split; [reflexivity|]. split; [rewrite Hsum; red; eauto|].
    rewrite Hsum. cbn [sum_Q fold_right]. ring.
  - cbn [total_coefficient fold_right coefficient] in Hbound.
    fold (total_coefficient rest) in Hbound.
    destruct (dec_add_same_exp sg sv c cv e) as (s1 & c1 & Hadd & Hz & Hle);
      [ctx_consts; lia|lia|].
    rewrite <- Hsum in Hadd.
    destruct (update_returns s (Fin sv cv e) _ clk Hadd Hmin Hmax eq_refl)
      as (s' & clk' & Hup & Hsum' & Hmin' & Hmax').
    destruct (IH s' clk' s1 c1 Hsum' Hmin' Hmax' ltac:(lia))
      as (s2 & clk2 & Hfeed & Hal & HQ).
    exists s2, clk2. rewrite feed_cons, Hup. split; [exact Hfeed|].
    split; [exact Hal|]. rewrite HQ, sum_Q_cons, !dec_Q_signed, Hz, inject_Z_plus.
    generalize (Qpower (10 # 1) e). intros p. ring.
Qed.

(** X3.  When the submitted values are finite numbers written with one
    exponent [e <= 0] (the same number of decimal places) and their
    coefficients add up to fewer than 28 digits, every update returns and
    the running sum is the exact sum of the values. *)
Theorem aligned_values_are_summed_exactly :
  forall (seed : option Decimal) (vs : list Decimal) (clk : Clock) (e : Z),
    Etiny <= e <= 0 ->
    Forall (aligned e) (submitted seed vs) ->
    (total_coefficient (submitted seed vs) < pow10 prec)%N ->
    exists s clk',
      run_stats seed vs clk = ((s, clk'), Ok tt) /\
      (dec_Q (MovingStatistics.sum s) == sum_Q (submitted seed vs))%Q.
Proof.
  intros seed vs clk e He Hal Hbound. unfold run_stats, MovingStatistics.sum.
  destruct seed as [v0|]; cbn [submitted MovingStatistics.init] in *.
  - inversion Hal as [|? ? (s0 & c0 & ->) Hrest]; subst.
    destruct clk as [n rd]. cbn [perf_counter].
    cbn [total_coefficient fold_right coefficient] in Hbound.
    fold (total_coefficient vs) in Hbound.
    destruct (feed_aligned e vs He Hrest
                (MovingStatistics.mk (Fin s0 c0 e) 1 (Fin s0 c0 e) (Fin s0 c0 e)
                                     [(Fin s0 c0 e, rd n)])
                {| ticks := S n; reading := rd |} s0 c0 eq_refl eq_refl eq_refl
                Hbound) as (s & clk' & Hfeed & _ & HQ).
    exists s, clk'. split; [exact Hfeed|]. rewrite HQ, sum_Q_cons. reflexivity.
  - destruct vs as [|v rest].
    + exists (MovingStatistics.mk (of_int 0) 0 (Inf false) (Inf true) []), clk.
      split; [reflexivity|]. cbn. reflexivity.
    + inversion Hal as [|? ? (sv & cv & ->) Hrest]; subst.
      cbn [total_coefficient fold_right coefficient] in Hbound.
      fold (total_coefficient rest) in Hbound.
      destruct (dec_add_to_zero sv cv e He ltac:(lia)) as (s1 & Hadd & Hz).
      destruct (update_returns
                  (MovingStatistics.mk (of_int 0) 0 (Inf false) (Inf true) [])
                  (Fin sv cv e) _ clk Hadd eq_refl eq_refl eq_refl)
        as (s' & clk' & Hup & Hsum' & Hmin' & Hmax').
      destruct (feed_aligned e rest He Hrest s' clk' s1 cv Hsum' Hmin' Hmax'
                             Hbound) as (s2 & clk2 & Hfeed & _ & HQ).
      exists s2, clk2. rewrite feed_cons, Hup. split; [exact Hfeed|].
      rewrite HQ, sum_Q_cons, !dec_Q_signed, Hz. reflexivity.
Qed.

(** X3 at a concrete run: 1.250 and -0.250 add up to 1. *)
Lemma aligned_values_are_summed_exactly_witness :
  exists s clk',
    run_stats None [Fin false 1250 (-3); Fin true 250 (-3)] example_clock
    = ((s, clk'), Ok tt) /\
    (dec_Q (MovingStatistics.sum s) == 1)%Q.
Proof.
  destruct (aligned_values_are_summed_exactly
              None [Fin false 1250 (-3); Fin true 250 (-3)] example_clock (-3))
    as (s & clk' & Hrun & HQ).
  - vm_compute. split; discriminate.
  - repeat constructor; red; eauto.
  - vm_compute. reflexivity.
  - exists s, clk'. split; [exact Hrun|]. rewrite HQ. vm_compute. reflexivity.
Defined.

(** *** The statistics dictionary *)

(** What a serialized statistics dictionary is made of. *)
Lemma stats_dict_ok (s : MovingStatistics.t) (d : pydict) :
  MovingStatistics.to_serializable_dict s = Ok d ->
  exists mn mx sm a av df dfs r rt,
    format_decimal q_000 (MovingStatistics.min s) = Ok mn /\
    format_decimal q_000 (MovingStatistics.max s) = Ok mx /\
    format_decimal q_000 (MovingStatistics.sum s) = Ok sm /\
    MovingStatistics.avg s = Ok a /\ format_decimal q_000 a = Ok av /\
    MovingStatistics.diff s = Ok df /\ format_decimal q_000 df = Ok dfs /\
    MovingStatistics.rate s = Ok r /\ format_decimal q_000 r = Ok rt /\
    d = [("min", PStr mn); ("max", PStr mx); ("sum", PStr sm);
         ("avg", PStr av); ("diff", PStr dfs); ("rate", PStr rt);
         ("version", PInt 2)]%string.
Proof.
  unfold MovingStatistics.to_serializable_dict.
  destruct (format_decimal q_000 (MovingStatistics.min s)) as [mn|]; [|discriminate].
  destruct (format_decimal q_000 (MovingStatistics.max s)) as [mx|]; [|discriminate].
  destruct (format_decimal q_000 (MovingStatistics.sum s)) as [sm|]; [|discriminate].
  cbn [mbind result_bind].
  destruct (MovingStatistics.avg s) as [a|]; [|discriminate]. cbn [mbind result_bind].
  destruct (format_decimal q_000 a) as [av|] eqn:Ha; [|discriminate].
  cbn [mbind result_bind].
  destruct (MovingStatistics.diff s) as [df|]; [|discriminate]. cbn [mbind result_bind].
  destruct (format_decimal q_000 df) as [dfs|] eqn:Hd; [|discriminate].
  cbn [mbind result_bind].
  destruct (MovingStatistics.rate s) as [r|]; [|discriminate]. cbn [mbind result_bind].
  destruct (format_decimal q_000 r) as [rt|] eqn:Hr; [|discriminate].
  cbn [mbind result_bind]. intros [= <-].
  exists mn, mx, sm, a, av, df, dfs, r, rt. repeat split; auto.
Qed.

(** X4.  The statistics serialize only if min, max, sum, avg, diff and rate
    can be quantized to three places: a quiet NaN, a zero, or a finite
    number with at most 25 integer digits.  In particular an accumulator
    that has not seen a value does not serialize: its minimum is Infinity,
    and quantizing it raises [InvalidOperation].  (The quantization comes
    first, so this does not depend on what [remove_exponent] does.) *)
Theorem serialized_stats_are_quantizable :
  (forall (s : MovingStatistics.t) (d : pydict),
      MovingStatistics.to_serializable_dict s = Ok d ->
      quantizable 3 (MovingStatistics.min s) /\
      quantizable 3 (MovingStatistics.max s) /\
      quantizable 3 (MovingStatistics.sum s) /\
      exists a df r,
        MovingStatistics.avg s = Ok a /\ quantizable 3 a /\
        MovingStatistics.diff s = Ok df /\ quantizable 3 df /\
        MovingStatistics.rate s = Ok r /\ quantizable 3 r) /\
  (forall clk : Clock,
      MovingStatistics.to_serializable_dict (fst (MovingStatistics.init None clk))
      = Raise (InvalidOperation QuantizeInf)).
Proof.
  split; [|reflexivity].
  intros s d Hd.
  apply stats_dict_ok in Hd
      as (mn & mx & sm & a & av & df & dfs & r & rt
          & Hmn & Hmx & Hsm & Ha & Hav & Hdf & Hdfs & Hr & Hrt & _).
  change q_000 with (Fin false 0 (- 3)) in *.
  repeat split; try (eapply format_decimal_ok_quantizable; eassumption).
  exists a, df, r.
  repeat split; auto; eapply format_decimal_ok_quantizable; eassumption.
Qed.

(** X4 at a concrete accumulator: seed 5, then 7. *)
Lemma serialized_stats_are_quantizable_witness :
  let s := fst (fst (run_stats (Some (of_int 5)) [of_int 7] example_clock)) in
  is_ok (MovingStatistics.to_serializable_dict s) = true /\
  quantizable 3 (MovingStatistics.min s) /\
  quantizable 3 (MovingStatistics.max s) /\
  quantizable 3 (MovingStatistics.sum s).
Proof.
  intros s.
  destruct (MovingStatistics.to_serializable_dict s) as [d|] eqn:Hd;
    [|vm_compute in Hd; discriminate].
  split; [reflexivity|].
  destruct (proj1 serialized_stats_are_quantizable s d Hd) as (H1 & H2 & H3 & _).
  auto.
Defined.

(** *** Two points taken at one reading *)

(** X5.  When the two retained points carry clock readings whose float
    difference is zero, [rate] raises: [DivisionByZero] when the two values
    differ, the 0/0 [InvalidOperation] when they do not.  The statistics
    then do not serialize, and neither does a metric that holds them,
    whatever its filter. *)
Theorem rate_needs_elapsed_time :
  forall (s : MovingStatistics.t) (v1 v2 d : Decimal) (t1 t2 : float),
    MovingStatistics._last s = [(v1, t1); (v2, t2)] ->
    is_zero (from_float (PrimFloat.sub t2 t1)) = true ->
    dec_sub v2 v1 = Ok d -> is_finite d = true ->
    MovingStatistics.rate s
    = (if is_zero d then Raise (InvalidOperation DivisionUndefined)
       else Raise DivisionByZero) /\
    is_ok (MovingStatistics.to_serializable_dict s) = false /\
    (forall m : Metric.t,
        Metric.stats m = s -> is_ok (Metric.to_serializable_dict m) = false).
Proof.
  intros s v1 v2 d t1 t2 Hlast Hz Hd Hf.
  assert (Hrate : MovingStatistics.rate s
                  = (if is_zero d then Raise (InvalidOperation DivisionUndefined)
                     else Raise DivisionByZero)).
  { unfold MovingStatistics.rate. rewrite Hlast. cbn [fst snd]. rewrite Hd.
    cbn [mbind result_bind].
    destruct (from_float (PrimFloat.sub t2 t1)) as [sz cz ez| |]; try discriminate.
    destruct d as [sd cd ed| |]; try discriminate.
    cbn [is_zero] in *. unfold dec_div. cbn [check_nans is_snan is_nan].
    rewrite Hz. reflexivity. }
  assert (Hstats : is_ok (MovingStatistics.to_serializable_dict s) = false).
  { destruct (MovingStatistics.to_serializable_dict s) as [dict|] eqn:Hs;
      [|reflexivity].
    apply stats_dict_ok in Hs
        as (mn & mx & sm & a & av & df & dfs & r & rt & H); destruct H
        as (_ & _ & _ & _ & _ & _ & _ & Hr & _).
    rewrite Hrate in Hr. destruct (is_zero d); discriminate. }
  split; [exact Hrate|]. split; [exact Hstats|].
  intros m <-. unfold Metric.to_serializable_dict.
  destruct (format_decimal q_000 (Metric.current m)); [|reflexivity].
  cbn [mbind result_bind].
  destruct (Metric.capacity_field m); [|reflexivity]. cbn [mbind result_bind].
  destruct (Metric.pct_field m); [|reflexivity]. cbn [mbind result_bind].
  destruct (MovingStatistics.to_serializable_dict (Metric.stats m));
    [discriminate|reflexivity].
Qed.

(** X5 at a concrete accumulator: the values 1 and 2, both read at 1.0. *)
Lemma rate_needs_elapsed_time_witness :
  let t := reading example_clock 1 in
  let s := MovingStatistics.mk (of_int 3) 2 (of_int 1) (of_int 2)
             [(of_int 1, t); (of_int 2, t)] in
  MovingStatistics.rate s = Raise DivisionByZero /\
  is_ok (MovingStatistics.to_serializable_dict s) = false.
Proof.
  intros t s.
  destruct (rate_needs_elapsed_time s (of_int 1) (of_int 2) (of_int 1) t t)
    as (H1 & H2 & _); try reflexivity.
  split; [exact H1|exact H2].
Defined.

(** ** Metric *)

(** *** A sequence of updates *)

(** [Metric.update] assigns neither key, type, filter, unit hint nor
    hook. *)
Lemma metric_update_static (m : Metric.t) (measure : Measurement.t) (clk : Clock) :
  same_static m (fst (fst (Metric.update m measure clk))).
Proof.
  unfold Metric.update, same_static.
  destruct (MovingStatistics.update _ _ _) as [[st clk'] [[]|e]]; cbn; auto.
  destruct (Metric.current_hook m) as [hook|]; cbn; auto.
  destruct (hook _); cbn; auto.
Qed.

Lemma same_static_refl (m : Metric.t) : same_static m m.
Proof. unfold same_static. auto. Qed.

Lemma same_static_trans (m1 m2 m3 : Metric.t) :
  same_static m1 m2 -> same_static m2 m3 -> same_static m1 m3.
Proof. unfold same_static. intuition congruence. Qed.

(** The capacity after [Metric.update], whatever its outcome. *)
Lemma metric_update_capacity (m : Metric.t) (measure : Measurement.t) (clk : Clock) :
  Metric.capacity (fst (fst (Metric.update m measure clk)))
  = match Measurement.capacity measure with
    | Some c => Some c
    | None => Metric.capacity m
    end.
Proof.
  unfold Metric.update.
  destruct (MovingStatistics.update _ _ _) as [[st clk'] [[]|e]]; cbn; auto.
  destruct (Metric.current_hook m) as [hook|]; cbn; auto.
  destruct (hook _); cbn; auto.
Qed.






(** *** The newest point after an update *)

(** The retained points after an update: extended and trimmed when it
    returns, untouched when it raises. *)
Lemma stats_update_last_cases (s : MovingStatistics.t) (v : Decimal) (clk : Clock) :
  let '((s', _), r) := MovingStatistics.update s v clk in
  (r = Ok tt /\
   MovingStatistics._last s'
   = (let l := MovingStatistics._last s ++ [(v, fst (perf_counter clk))] in
      if (2 <? length l)%nat then tail l else l)) \/
  (is_ok r = false /\ MovingStatistics._last s' = MovingStatistics._last s).
Proof.
  unfold MovingStatistics.update.
  destruct (dec_add _ _); [|right; auto].
  destruct (py_min _ _); [|right; auto].
  destruct (py_max _ _); [|right; auto].
  destruct clk. left. auto.
Qed.

Lemma trimmed_window (l : list (Decimal * float)) (p : Decimal * float) :
  (length l <= 2)%nat ->
  let l' := if (2 <? length (l ++ [p]))%nat then tail (l ++ [p]) else l ++ [p] in
  (1 <= length l' <= 2)%nat /\ last l' = Some p.
Proof.
  destruct l as [|a [|b [|c rest]]]; cbn; intros H; try lia; auto with lia.
Qed.

Lemma last_trimmed {A : Type} (l : list A) (p : A) :
  last (if (2 <? length (l ++ [p]))%nat then tail (l ++ [p]) else l ++ [p])
  = Some p.
Proof.
  destruct (2 <? length (l ++ [p]))%nat eqn:Hlen; [|apply last_snoc].
  destruct l as [|a l']; [discriminate|]. cbn. apply last_snoc.
Qed.

(** [current] and the retained points move together. *)
Lemma metric_update_newest (m : Metric.t) (measure : Measurement.t) (clk : Clock) :
  (length (MovingStatistics._last (Metric.stats m)) <= 2)%nat ->
  let '((m', _), r) := Metric.update m measure clk in
  let stays :=
    MovingStatistics._last (Metric.stats m')
    = MovingStatistics._last (Metric.stats m) /\
    Metric.current m' = Metric.current m in
  let moves :=
    (1 <= length (MovingStatistics._last (Metric.stats m')) <= 2)%nat /\
    newest (Metric.stats m') = Some (Measurement.value measure) /\
    (Metric.current_hook m = None ->
     Metric.current m' = Measurement.value measure) in
  (r = Ok tt -> moves) /\ (stays \/ moves).
Proof.
  intros Hlen. unfold Metric.update.
  pose proof (stats_update_last_cases (Metric.stats m)
                (Measurement.value measure) clk) as Hu.
  destruct (MovingStatistics.update _ _ _) as [[st clk'] r].
  destruct Hu as [[-> Hl]|[Hr Hl]].
  - pose proof (trimmed_window _ (Measurement.value measure, fst (perf_counter clk))
                               Hlen) as [Hb Hn].
    cbv zeta in Hl, Hb, Hn. rewrite <- Hl in Hb, Hn.
    assert (Hnew : newest st = Some (Measurement.value measure))
      by (unfold newest; now rewrite Hn).
    destruct (Metric.current_hook m) as [hook|].
    + destruct (hook _); cbn; (split; [|right]); repeat split; auto;
        try discriminate; tauto.
    + cbn. split; [|right]; repeat split; auto; tauto.
  - destruct r as [[]|e]; [discriminate|]. cbn. split; [discriminate|].
    left. auto.
Qed.

(** After an update that returns, the measured value is the newest point. *)
Lemma metric_update_ok_newest (m m' : Metric.t) (measure : Measurement.t)
      (clk clk' : Clock) :
  Metric.update m measure clk = ((m', clk'), Ok tt) ->
  newest (Metric.stats m') = Some (Measurement.value measure) /\
  (Metric.current_hook m' = None -> Metric.current m' = Measurement.value measure).
Proof.
  unfold Metric.update.
  destruct (MovingStatistics.update _ _ _) as [[st c1] [[]|e]] eqn:Hu;
    [|discriminate].
  apply update_last in Hu as [Hl _]. cbv zeta in Hl.
  assert (Hn : newest st = Some (Measurement.value measure))
    by (unfold newest; now rewrite Hl, last_trimmed).
  destruct (Metric.current_hook m) as [hook|] eqn:Hh.
  - destruct (hook _); [|discriminate]. intros [= <- _]. cbn.
    split; [exact Hn|discriminate].
  - intros [= <- _]. cbn. auto.
Qed.

(** *** The serialized metric *)

(** The keys that pass the filter, renamed. *)
Lemma filtered_stats_keys (filter : gset string) (d : pydict) :
  map fst (Metric.filtered_stats filter d)
  = map (fun k => ("stats." ++ k)%string)
        (List.filter (fun k => bool_decide (k ∈ filter)) (map fst d)).
Proof.
  unfold Metric.filtered_stats. induction d as [|[k v] rest IH]; [reflexivity|].
  cbn. destruct (bool_decide (k ∈ filter)); cbn; now rewrite IH.
Qed.

(** What a serialized metric is made of. *)
Lemma metric_dict_ok (m : Metric.t) (d : pydict) :
  Metric.to_serializable_dict m = Ok d ->
  exists cur cap pct st,
    format_decimal q_000 (Metric.current m) = Ok cur /\
    Metric.capacity_field m = Ok cap /\
    Metric.pct_field m = Ok pct /\
    MovingStatistics.to_serializable_dict (Metric.stats m) = Ok st /\
    d = [("current", PStr cur); ("capacity", cap); ("pct", pct);
         ("unit_hint", Metric.opt_str (Metric.unit_hint m))]%string
        ++ Metric.filtered_stats (Metric.stats_filter m) st.
Proof.
  unfold Metric.to_serializable_dict.
  destruct (format_decimal q_000 (Metric.current m)) as [cur|]; [|discriminate].
  destruct (Metric.capacity_field m) as [cap|]; [|discriminate].
  destruct (Metric.pct_field m) as [pct|]; [|discriminate].
  destruct (MovingStatistics.to_serializable_dict _) as [st|]; [|discriminate].
  cbn. intros [= <-]. exists cur, cap, pct, st. auto.
Qed.

Lemma filter_NoDup {A : Type} (f : A -> bool) (l : list A) :
  NoDup l -> NoDup (List.filter f l).
Proof.
  induction 1 as [|x l Hx _ IH]; cbn; [constructor|].
  destruct (f x); [|exact IH]. constructor; [|exact IH].
  intros Hin. apply list_elem_of_In, List.filter_In in Hin as [Hin _].
  now apply Hx, list_elem_of_In.
Qed.

(** X7.  A serialized metric has the keys current, capacity, pct and
    unit_hint, in this order, followed by [stats.<name>] for those names of
    the statistics dictionary (min, max, sum, avg, diff, rate, version, in
    this order) that are in [stats_filter]; other names in the filter are
    ignored.  The keys are pairwise distinct, the unit hint is passed
    through, and [stats.version] is 2 when it is selected. *)
Theorem serialized_metric_keys :
  forall (m : Metric.t) (d : pydict),
    Metric.to_serializable_dict m = Ok d ->
    map fst d
    = metric_names
      ++ map (fun k => ("stats." ++ k)%string)
             (List.filter (fun k => bool_decide (k ∈ Metric.stats_filter m))
                          stat_names) /\
    NoDup (map fst d) /\
    dict_get "unit_hint" d = Some (Metric.opt_str (Metric.unit_hint m)) /\
    (dict_get "stats.version" d
     = if bool_decide ("version"%string ∈ Metric.stats_filter m)
       then Some (PInt 2) else None).
Proof.
  intros m d Hd.
  apply metric_dict_ok in Hd as (cur & cap & pct & st & _ & _ & _ & Hst & ->).
  apply stats_dict_ok in Hst
      as (mn & mx & sm & a & av & df & dfs & r & rt & H).
  destruct H as (_ & _ & _ & _ & _ & _ & _ & _ & _ & ->).
  assert (Hkeys :
            map fst ([("current", PStr cur); ("capacity", cap); ("pct", pct);
                      ("unit_hint", Metric.opt_str (Metric.unit_hint m))]%string
                     ++ Metric.filtered_stats (Metric.stats_filter m)
                          [("min", PStr mn); ("max", PStr mx); ("sum", PStr sm);
                           ("avg", PStr av); ("diff", PStr dfs); ("rate", PStr rt);
                           ("version", PInt 2)]%string)
            = metric_names
              ++ map (fun k => ("stats." ++ k)%string)
                   (List.filter (fun k => bool_decide (k ∈ Metric.stats_filter m))
                                stat_names)).
  { rewrite map_app, filtered_stats_keys. reflexivity. }
  split; [exact Hkeys|]. split; [|split].
  - rewrite Hkeys. apply NoDup_app. split; [|split].
    + apply (bool_decide_unpack _). vm_compute. reflexivity.
    + intros k Hk Hin. apply list_elem_of_fmap in Hin as (k' & -> & _).
      apply list_elem_of_In in Hk. cbn in Hk. intuition discriminate.
    + apply NoDup_fmap_2; [intros k1 k2 H; now injection H|].
      apply filter_NoDup. apply (bool_decide_unpack _). vm_compute. reflexivity.
  - reflexivity.
  - unfold Metric.filtered_stats. cbn.
    repeat match goal with
           | |- context [bool_decide ?P] => destruct (bool_decide P); cbn
           end; reflexivity.
Qed.

(** X7 at a concrete metric whose filter selects max and an unknown
    name. *)
Lemma serialized_metric_keys_witness :
  let m := Metric.mk "mem" USAGE
             (fst (MovingStatistics.init (Some (of_int 5)) example_clock))
             {["max"%string; "bogus"%string]} (of_int 5) None None None in
  match Metric.to_serializable_dict m with
  | Ok d => map fst d
            = ["current"; "capacity"; "pct"; "unit_hint"; "stats.max"]%string
  | Raise _ => False
  end.
Proof.
  intros m.
  destruct (Metric.to_serializable_dict m) as [d|] eqn:Hd;
    [|vm_compute in Hd; discriminate].
  rewrite (proj1 (serialized_metric_keys m d Hd)). vm_compute. reflexivity.
Defined.

(** X8.  A metric whose current value is infinite, or finite, not zero and of
    26 or more integer digits, does not serialize: quantizing the first
    entry raises [InvalidOperation].  When a metric serializes, current and
    capacity can be quantized to three places and the statistics serialize
    too: they are computed, and must succeed, also when [stats_filter]
    selects none of them. *)
Theorem metric_serialization_needs_quantizable_numbers :
  forall m : Metric.t,
    (forall s, Metric.current m = Inf s ->
               Metric.to_serializable_dict m
               = Raise (InvalidOperation QuantizeInf)) /\
    (forall s c e,
        Metric.current m = Fin s c e -> c <> 0%N ->
        prec <= adjusted c e + 3 -> adjusted c e <= Emax ->
        Metric.to_serializable_dict m
        = Raise (InvalidOperation QuantizePrecision)) /\
    (forall d,
        Metric.to_serializable_dict m = Ok d ->
        quantizable 3 (Metric.current m) /\
        (forall c, Metric.capacity m = Some c -> quantizable 3 c) /\
        is_ok (MovingStatistics.to_serializable_dict (Metric.stats m)) = true).
Proof.
  intros m. split; [|split].
  - intros s Hc. unfold Metric.to_serializable_dict. rewrite Hc. reflexivity.
  - intros s c e Hc Hnz Hp He. unfold Metric.to_serializable_dict. rewrite Hc.
    unfold format_decimal, formatted, quantize, q_000.
    cbn [check_nans is_snan is_nan].
    assert (H0 : (c =? 0)%N = false) by now apply N.eqb_neq.
    assert (H1 : (adjusted c e >? Emax) = false) by now apply gtb_false_iff.
    assert (H2 : (adjusted c e - -3 + 1 >? prec) = true)
      by (apply Z.gtb_lt; lia).
    cbn [negb andb Z.leb]. rewrite H0, H1, H2. reflexivity.
  - intros d Hd.
    apply metric_dict_ok in Hd as (cur & cap & pct & st & Hcur & Hcap & _ & Hst & _).
    split; [|split].
    + change q_000 with (Fin false 0 (- 3)) in Hcur.
      eapply format_decimal_ok_quantizable; eauto.
    + intros c Hc. unfold Metric.capacity_field in Hcap. rewrite Hc in Hcap.
      destruct (format_decimal q_000 c) as [str|] eqn:Hf; [|discriminate].
      change q_000 with (Fin false 0 (- 3)) in Hf.
      eapply format_decimal_ok_quantizable; eauto.
    + now rewrite Hst.
Qed.

(** X8 at a concrete metric: a current value of 10^25. *)
Lemma metric_serialization_needs_quantizable_numbers_witness :
  Metric.to_serializable_dict
    (example_metric (Fin false 1 25) None)
  = Raise (InvalidOperation QuantizePrecision).
Proof.
  apply (proj1 (proj2 (metric_serialization_needs_quantizable_numbers
                         (example_metric (Fin false 1 25) None)))
               false 1%N 25); [reflexivity|discriminate| |];
    vm_compute; discriminate.
Defined.

(** ** StatContext *)

(** *** Timestamps *)

(** Calls for other keys leave the timestamp of a key alone and advance the
    clock by one reading each. *)
Lemma touch_timestamps_spec (keys : list string) (k : string) :
  k ∉ keys ->
  forall (ts : gmap string float) (clk : Clock),
    fst (touch_timestamps keys (ts, clk)) !! k = ts !! k /\
    ticks (snd (touch_timestamps keys (ts, clk))) = (ticks clk + length keys)%nat /\
    reading (snd (touch_timestamps keys (ts, clk))) = reading clk.
Proof.
  unfold touch_timestamps.
  induction keys as [|k' rest IH]; intros Hni ts clk; cbn [foldl length].
  - cbn. repeat split; lia.
  - apply not_elem_of_cons in Hni as [Hne Hni].
    assert (Hstep : fst (StatContext.update_timestamp ts k' clk)
                    = (<[k' := reading clk (ticks clk)]> ts,
                       {| ticks := S (ticks clk); reading := reading clk |})).
    { unfold StatContext.update_timestamp. destruct clk as [n rd]. cbn.
      now destruct (ts !! k'). }
    cbn [fst snd]. rewrite Hstep.
    destruct (IH Hni (<[k' := reading clk (ticks clk)]> ts)
                 {| ticks := S (ticks clk); reading := reading clk |})
      as (H1 & H2 & H3).
    rewrite H1, H2, H3. cbn [ticks reading].
    rewrite lookup_insert_ne by congruence. repeat split; lia.
Qed.

(** X9.  [update_timestamp] returns the clock reading it takes and, for a key
    without a recorded timestamp, NaN as the interval.  Called again for
    the same key, after any number of calls for other keys, it returns the
    float difference between its reading and the reading of the earlier
    call for that key, and records its own reading. *)
Theorem update_timestamp_interval :
  forall (timestamps : gmap string float) (k : string) (others : list string)
         (clk : Clock),
    k ∉ others ->
    let '(st1, (now1, first)) := StatContext.update_timestamp timestamps k clk in
    let st2 := touch_timestamps others st1 in
    let '(st3, (now2, interval)) := StatContext.update_timestamp (fst st2) k (snd st2) in
    now1 = reading clk (ticks clk) /\
    (timestamps !! k = None -> first = PrimFloat.nan) /\
    now2 = reading clk (ticks clk + 1 + length others)%nat /\
    interval = PrimFloat.sub now2 now1 /\
    fst st3 !! k = Some now2.
Proof.
  intros ts k others clk Hni.
  assert (Hstep : StatContext.update_timestamp ts k clk
                  = ((<[k := reading clk (ticks clk)]> ts,
                      {| ticks := S (ticks clk); reading := reading clk |}),
                     (reading clk (ticks clk),
                      match ts !! k with
                      | Some last => PrimFloat.sub (reading clk (ticks clk)) last
                      | None => PrimFloat.nan
                      end))).
  { unfold StatContext.update_timestamp. destruct clk as [n rd]. cbn.
    now destruct (ts !! k). }
  rewrite Hstep. cbv zeta.
  destruct (touch_timestamps_spec others k Hni
              (<[k := reading clk (ticks clk)]> ts)
              {| ticks := S (ticks clk); reading := reading clk |})
    as (H1 & H2 & H3).
  destruct (touch_timestamps others _) as [ts2 clk2]. cbn [fst snd] in *.
  rewrite lookup_insert_eq in H1. cbn [ticks reading] in H2, H3.
  unfold StatContext.update_timestamp. destruct clk2 as [n2 rd2]. cbn [perf_counter].
  cbn [ticks reading] in H2, H3. subst n2 rd2. rewrite H1.
  cbn [fst]. rewrite lookup_insert_eq.
  replace (ticks clk + 1 + length others)%nat
    with (S (ticks clk) + length others)%nat by lia.
  repeat split. intros Hnone. now rewrite Hnone.
Qed.

(** X9 at concrete calls: cpu, then mem and io, then cpu again. *)
Lemma update_timestamp_interval_witness :
  let '(st1, _) := StatContext.update_timestamp ∅ "cpu" example_clock in
  let st2 := touch_timestamps ["mem"%string; "io"%string] st1 in
  let '(_, (now2, interval)) := StatContext.update_timestamp (fst st2) "cpu" (snd st2) in
  now2 = reading example_clock 3 /\
  interval = PrimFloat.sub (reading example_clock 3) (reading example_clock 0).
Proof.
  pose proof (update_timestamp_interval ∅ "cpu" ["mem"%string; "io"%string]
                                        example_clock) as H.
  destruct (StatContext.update_timestamp ∅ "cpu" example_clock) as [st1 [now1 first]].
  cbv zeta in *.
  destruct (StatContext.update_timestamp _ "cpu" _) as [st3 [now2 interval]].
  destruct H as (H1 & _ & H2 & H3 & _).
  - intros Hin. apply elem_of_cons in Hin as [Hin|Hin]; [discriminate|].
    apply elem_of_cons in Hin as [Hin|Hin]; [discriminate|].
    now apply not_elem_of_nil in Hin.
  - split; [exact H2|]. rewrite H3, H2, H1. reflexivity.
Defined.

(** *** The map from container ids to kernel ids *)

Lemma build_kernel_id_map_snoc (registry : Registry) (kid : KernelId)
      (cid : ContainerId) :
  StatContext.build_kernel_id_map (registry ++ [(kid, cid)])
  = <[cid := kid]> (StatContext.build_kernel_id_map registry).
Proof. unfold StatContext.build_kernel_id_map. now rewrite foldl_app. Qed.

(** The kernel of a container id is the one of its last registry entry. *)
Lemma build_kernel_id_map_lookup (registry : Registry) (cid : ContainerId)
      (kid : KernelId) :
  StatContext.build_kernel_id_map registry !! cid = Some kid <->
  exists before after,
    registry = before ++ (kid, cid) :: after /\ cid ∉ map snd after.
Proof.
  induction registry as [|[k c] l IH] using rev_ind.
  - cbn. rewrite lookup_empty. split; [discriminate|].
    intros (before & after & H & _). now destruct before.
  - rewrite build_kernel_id_map_snoc.
    destruct (decide (c = cid)) as [->|Hne].
    + rewrite lookup_insert_eq. split.
      * intros [= ->]. exists l, []. split; [reflexivity|]. cbn. apply not_elem_of_nil.
      * intros (before & after & H & Hni).
        destruct after as [|x after'] using rev_ind.
        -- apply app_inj_tail in H as [_ H]. congruence.
        -- exfalso. clear IHafter'.
           change (before ++ (kid, cid) :: after' ++ [x])
             with (before ++ ((kid, cid) :: after') ++ [x]) in H.
           rewrite app_assoc in H. apply app_inj_tail in H as [_ <-].
           apply Hni. rewrite map_app. apply elem_of_app. right. cbn. constructor.
    + rewrite lookup_insert_ne by exact Hne. rewrite IH. split.
      * intros (before & after & -> & Hni).
        exists before, (after ++ [(k, c)]). split.
        -- now rewrite <- app_assoc.
        -- rewrite map_app. intros Hin. apply elem_of_app in Hin as [Hin|Hin];
             [contradiction|].
           cbn in Hin. apply list_elem_of_singleton in Hin. congruence.
      * intros (before & after & H & Hni).
        destruct after as [|x after'] using rev_ind.
        -- apply app_inj_tail in H as [_ H]. congruence.
        -- clear IHafter'.
           change (before ++ (kid, cid) :: after' ++ [x])
             with (before ++ ((kid, cid) :: after') ++ [x]) in H.
           rewrite app_assoc in H. apply app_inj_tail in H as [-> <-].
           exists before, after'. split; [reflexivity|].
           intros Hin. apply Hni. rewrite map_app. apply elem_of_app. now left.
Qed.

Lemma build_kernel_id_map_none (registry : Registry) (cid : ContainerId) :
  StatContext.build_kernel_id_map registry !! cid = None <->
  cid ∉ StatContext.container_ids_of registry.
Proof.
  unfold StatContext.container_ids_of.
  induction registry as [|[k c] l IH] using rev_ind.
  - cbn. rewrite lookup_empty. split; [intros _; apply not_elem_of_nil|auto].
  - rewrite build_kernel_id_map_snoc, map_app, not_elem_of_app. cbn.
    destruct (decide (c = cid)) as [->|Hne].
    + rewrite lookup_insert_eq. split; [discriminate|].
      intros [_ H]. exfalso. apply H. constructor.
    + rewrite lookup_insert_ne by exact Hne. rewrite IH. split; [|tauto].
      intros H. split; [exact H|]. intros Hin.
      apply list_elem_of_singleton in Hin. congruence.
Qed.

(** X10.  [kernel_id_map] sends a container id to the kernel of the last
    registry entry with this container id, and has no entry exactly for the
    container ids that are not in the registry.  For a sample of a container
    of the registry, the merge step of the full round is the update of the
    metric of a kernel registered with this container. *)
Theorem kernel_id_map_last_entry_wins :
  forall (registry : Registry) (cid : ContainerId),
    (forall kid : KernelId,
        StatContext.build_kernel_id_map registry !! cid = Some kid <->
        exists before after,
          registry = before ++ (kid, cid) :: after /\ cid ∉ map snd after) /\
    (StatContext.build_kernel_id_map registry !! cid = None <->
     cid ∉ StatContext.container_ids_of registry) /\
    (cid ∈ StatContext.container_ids_of registry ->
     forall cm measure s,
     exists kid,
       (kid, cid) ∈ registry /\
       StatContext.merge_container_item_full
         (StatContext.build_kernel_id_map registry) cm (cid, measure) s
       = StatContext.update_kernel_metric cm kid measure s).
Proof.
  intros registry cid. split; [|split].
  - intros kid. apply build_kernel_id_map_lookup.
  - apply build_kernel_id_map_none.
  - intros Hin cm measure s.
    destruct (StatContext.build_kernel_id_map registry !! cid) as [kid|] eqn:Hk.
    + exists kid. split.
      * apply build_kernel_id_map_lookup in Hk as (before & after & -> & _).
        apply elem_of_app. right. constructor.
      * unfold StatContext.merge_container_item_full. now rewrite Hk.
    + apply build_kernel_id_map_none in Hk. contradiction.
Qed.

(** X10 at a concrete registry in which two kernels name container c1. *)
Lemma kernel_id_map_last_entry_wins_witness :
  let registry := [("k1", "c1"); ("k2", "c2"); ("k3", "c1")]%string in
  StatContext.build_kernel_id_map registry !! "c1"%string = Some "k3"%string.
Proof.
  intros registry.
  apply (proj1 (kernel_id_map_last_entry_wins registry "c1"%string) "k3"%string).
  exists [("k1", "c1"); ("k2", "c2")]%string, []. split; [reflexivity|].
  cbn. apply not_elem_of_nil.
Defined.

(** *** A plugin that fails *)


(** *** A full round whose node phase raises *)

(** X12.  When merging the node and device measures raises, the full round
    ends there with that exception: [kernel_metrics] is as it was, so no
    stale kernel is pruned and no container sample is merged. *)
Theorem failed_node_phase_skips_the_container_phase :
  forall (src : Sources) (registry : Registry) (s : StatContext.state) (e : exn),
    snd (StatContext.merge_node_phase src s) = Raise e ->
    StatContext.collect_node_stat src registry s
    = StatContext.merge_node_phase src s /\
    StatContext.kernel_metrics
      (fst (fst (StatContext.collect_node_stat src registry s)))
    = StatContext.kernel_metrics (fst s).
Proof.
  intros src registry s e He.
  assert (H : StatContext.collect_node_stat src registry s
              = StatContext.merge_node_phase src s).
  { unfold StatContext.collect_node_stat.
    destruct (StatContext.merge_node_phase src s) as [[ctx1 clk1] [[]|e']];
      [discriminate|reflexivity]. }
  split; [exact H|]. rewrite H. apply merge_node_phase_kernel_metrics.
Qed.

(** X12 at a concrete round: the hook of the node metric raises at the second
    measure, and the metrics of kernel k0, which is not in the registry,
    survive. *)
Lemma failed_node_phase_skips_the_container_phase_witness :
  let failing := Some (fun _ : Metric.view => Raise PluginError : result Decimal) in
  let src := {| gather_node_measures :=
                  [Ok [example_node_batch 1 failing; example_node_batch 2 failing]];
                gather_container_measures := fun _ => [] |} in
  snd (StatContext.collect_node_stat src [] tables_with_k0) = Raise PluginError /\
  is_Some (StatContext.kernel_metrics
             (fst (fst (StatContext.collect_node_stat src [] tables_with_k0)))
             !! "k0"%string).
Proof.
  intros failing src.
  destruct (failed_node_phase_skips_the_container_phase
              src [] tables_with_k0 PluginError) as [H1 H2].
  - vm_compute. reflexivity.
  - split.
    + rewrite H1. vm_compute. reflexivity.
    + rewrite H2. vm_compute. eauto.
Defined.

(** *** The tables after a merge step *)

(** The tables after each merge step, whatever its outcome. *)
Lemma update_node_metric_tables (nm : NodeMeasurement.t)
      (ctx : StatContext.t) (clk : Clock) :
  fst (fst (StatContext.update_node_metric nm (ctx, clk)))
  = StatContext.mk
      (<[NodeMeasurement.key nm :=
           merged (StatContext.node_metrics ctx !! NodeMeasurement.key nm)
                  (new_node_metric nm clk) (NodeMeasurement.per_node nm) clk]>
         (StatContext.node_metrics ctx))
      (StatContext.device_metrics ctx) (StatContext.kernel_metrics ctx).
Proof.
  unfold StatContext.update_node_metric.
  destruct (StatContext.node_metrics ctx !! NodeMeasurement.key nm) as [m|].
  - cbn [merged]. destruct (Metric.update m _ clk) as [[m' clk'] r]. reflexivity.
  - destruct clk. reflexivity.
Qed.

Lemma update_device_metric_tables (nm : NodeMeasurement.t) (dev_id : DeviceId)
      (measure : Measurement.t) (ctx : StatContext.t) (clk : Clock) :
  let per_device :=
    default ∅ (StatContext.device_metrics ctx !! NodeMeasurement.key nm) in
  fst (fst (StatContext.update_device_metric nm (dev_id, measure) (ctx, clk)))
  = StatContext.mk
      (StatContext.node_metrics ctx)
      (<[NodeMeasurement.key nm :=
           <[dev_id := merged (per_device !! dev_id)
                              (new_device_metric nm measure clk) measure clk]>
             per_device]>
         (StatContext.device_metrics ctx))
      (StatContext.kernel_metrics ctx).
Proof.
  unfold StatContext.update_device_metric. cbv zeta.
  destruct (default ∅ (StatContext.device_metrics ctx !! NodeMeasurement.key nm)
              !! dev_id) as [m|].
  - cbn [merged]. destruct (Metric.update m _ clk) as [[m' clk'] r]. reflexivity.
  - destruct clk. reflexivity.
Qed.

Lemma update_kernel_metric_tables (cm : ContainerMeasurement.t) (kid : KernelId)
      (measure : Measurement.t) (ctx : StatContext.t) (clk : Clock) :
  let metrics := default ∅ (StatContext.kernel_metrics ctx !! kid) in
  fst (fst (StatContext.update_kernel_metric cm kid measure (ctx, clk)))
  = StatContext.mk
      (StatContext.node_metrics ctx) (StatContext.device_metrics ctx)
      (<[kid :=
           <[ContainerMeasurement.key cm :=
               merged (metrics !! ContainerMeasurement.key cm)
                      (new_kernel_metric cm measure clk) measure clk]>
             metrics]>
         (StatContext.kernel_metrics ctx)).
Proof.
  unfold StatContext.update_kernel_metric. cbv zeta.
  destruct (default ∅ (StatContext.kernel_metrics ctx !! kid)
              !! ContainerMeasurement.key cm) as [m|].
  - cbn [merged]. destruct (Metric.update m _ clk) as [[m' clk'] r]. reflexivity.
  - destruct clk. reflexivity.
Qed.

(** A step of the single-container round is a skip, which leaves the state
    alone, or a kernel step for the kernel of the container. *)
Lemma merge_container_item_single_tables
      (kernel_id_map : gmap ContainerId KernelId) (container_id : ContainerId)
      (cm : ContainerMeasurement.t) (item : ContainerId * Measurement.t)
      (st : StatContext.single_state) :
  fst (StatContext.merge_container_item_single
         kernel_id_map container_id cm item st)
  = st \/
  exists kid,
    kernel_id_map !! container_id = Some kid /\
    fst item = container_id /\
    fst (fst (StatContext.merge_container_item_single
                kernel_id_map container_id cm item st))
    = fst (StatContext.update_kernel_metric cm kid (snd item) (fst st)) /\
    snd (fst (StatContext.merge_container_item_single
                kernel_id_map container_id cm item st)) = Some kid.
Proof.
  destruct st as [s last], item as [cid measure].
  unfold StatContext.merge_container_item_single.
  destruct (String.eqb cid container_id) eqn:Heq; cbn [negb]; [|now left].
  apply String.eqb_eq in Heq. subst cid.
  destruct (kernel_id_map !! container_id) as [kid|] eqn:Hk; [|now left].
  right. exists kid. cbn [fst snd].
  destruct (StatContext.update_kernel_metric cm kid measure s) as [s' r].
  cbn. repeat split; reflexivity.
Qed.

(** *** Properties kept by the rounds *)

Section Rounds.

Variable P : StatContext.t -> Prop.
Variable registry : Registry.
Variable touched : KernelId -> Prop.

Hypothesis P_node : forall nm ctx clk,
    P ctx -> P (fst (fst (StatContext.update_node_metric nm (ctx, clk)))).
Hypothesis P_device : forall nm item ctx clk,
    P ctx -> P (fst (fst (StatContext.update_device_metric nm item (ctx, clk)))).
Hypothesis P_kernel : forall cm kid measure ctx clk,
    touched kid -> P ctx ->
    P (fst (fst (StatContext.update_kernel_metric cm kid measure (ctx, clk)))).
Hypothesis P_prune : forall ctx, P ctx -> P (StatContext.prune registry ctx).

(** A property kept by the merge steps is kept by the phases of the full
    round and by the single-container round, whatever their outcome. *)
Lemma merge_node_phase_keeps (src : Sources) (s : StatContext.state) :
  P (fst s) -> P (fst (fst (StatContext.merge_node_phase src s))).
Proof.
  unfold StatContext.merge_node_phase.
  apply (for_each_gathered_invariant (fun s' : StatContext.state => P (fst s'))).
  intros nm [ctx clk] Hs. unfold StatContext.merge_node_measure.
  pose proof (P_node nm ctx clk Hs) as Hn.
  destruct (StatContext.update_node_metric nm (ctx, clk)) as [s2 [[]|e]];
    cbn [fst] in *; [|exact Hn].
  apply (for_each_invariant (fun s' : StatContext.state => P (fst s')));
    [|exact Hn].
  intros item [ctx3 clk3]. apply P_device.
Qed.

Lemma merge_container_phase_keeps (src : Sources) (s : StatContext.state) :
  (forall cid kid,
      StatContext.build_kernel_id_map registry !! cid = Some kid -> touched kid) ->
  P (fst s) -> P (fst (fst (StatContext.merge_container_phase src registry s))).
Proof.
  intros Htouched. unfold StatContext.merge_container_phase.
  apply (for_each_gathered_invariant (fun s' : StatContext.state => P (fst s'))).
  intros cm s1 Hs1.
  apply (for_each_invariant (fun s' : StatContext.state => P (fst s')));
    [|exact Hs1].
  intros [cid measure] [ctx clk] Hs2. unfold StatContext.merge_container_item_full.
  destruct (_ !! cid) as [kid|] eqn:Hk; [|exact Hs2]. apply P_kernel; eauto.
Qed.

Lemma collect_node_stat_keeps (src : Sources) (s : StatContext.state) :
  (forall cid kid,
      StatContext.build_kernel_id_map registry !! cid = Some kid -> touched kid) ->
  P (fst s) -> P (fst (fst (StatContext.collect_node_stat src registry s))).
Proof.
  intros Htouched Hs. unfold StatContext.collect_node_stat.
  pose proof (merge_node_phase_keeps src s Hs) as H1.
  destruct (StatContext.merge_node_phase src s) as [[ctx1 clk1] [[]|e]];
    cbn [fst] in *; [|exact H1].
  apply merge_container_phase_keeps; [exact Htouched|]. cbn [fst]. now apply P_prune.
Qed.

Lemma collect_container_stat_keeps (src : Sources) (container_id : ContainerId)
      (s : StatContext.state) :
  (forall kid,
      StatContext.build_kernel_id_map registry !! container_id = Some kid ->
      touched kid) ->
  P (fst s) ->
  P (fst (fst (StatContext.collect_container_stat src registry container_id s))).
Proof.
  intros Htouched Hs. unfold StatContext.collect_container_stat.
  match goal with
  | |- context [for_each_gathered ?body ?outs ?init] =>
      assert (H : P (fst (fst (fst (for_each_gathered body outs init)))));
      [|destruct (for_each_gathered body outs init) as [[s' kid] r]; exact H]
  end.
  apply (for_each_gathered_invariant
           (fun st : StatContext.single_state => P (fst (fst st)))); [|exact Hs].
  intros cm st Hst.
  apply (for_each_invariant
           (fun st : StatContext.single_state => P (fst (fst st)))); [|exact Hst].
  intros item [[ctx clk] last] Hs2.
  destruct (merge_container_item_single_tables
              (StatContext.build_kernel_id_map registry) container_id cm item
              ((ctx, clk), last)) as [H|(kid & Hk & _ & H & _)].
  - exact (eq_ind_r (fun z : StatContext.single_state => P (fst (fst z))) Hs2 H).
  - refine (eq_ind_r (fun z : StatContext.state => P (fst z)) _ H).
    apply P_kernel; eauto.
Qed.

End Rounds.

(** *** Invariants of the stored metrics *)

Section Invariant.

Variable Q : table -> MetricKey -> Metric.t -> Prop.

Hypothesis Q_update : forall t k m measure clk,
    Q t k m -> Q t k (fst (fst (Metric.update m measure clk))).
Hypothesis Q_node : forall nm clk,
    Q NodeTable (NodeMeasurement.key nm) (new_node_metric nm clk).
Hypothesis Q_device : forall nm measure clk,
    Q DeviceTable (NodeMeasurement.key nm) (new_device_metric nm measure clk).
Hypothesis Q_kernel : forall cm measure clk,
    Q KernelTable (ContainerMeasurement.key cm) (new_kernel_metric cm measure clk).

Lemma merged_keeps (t : table) (k : MetricKey) (old : option Metric.t)
      (fresh : Metric.t) (measure : Measurement.t) (clk : Clock) :
  (forall m, old = Some m -> Q t k m) -> Q t k fresh ->
  Q t k (merged old fresh measure clk).
Proof. intros Hold Hfresh. destruct old as [m|]; cbn; auto. Qed.

Lemma update_node_metric_resident (nm : NodeMeasurement.t)
      (ctx : StatContext.t) (clk : Clock) :
  all_resident Q ctx ->
  all_resident Q (fst (fst (StatContext.update_node_metric nm (ctx, clk)))).
Proof.
  intros (Hn & Hd & Hk). rewrite update_node_metric_tables.
  split; [|split]; cbn [StatContext.node_metrics]; auto.
  intros k m Hm. destruct (decide (NodeMeasurement.key nm = k)) as [<-|Hne].
  - rewrite lookup_insert_eq in Hm. injection Hm as <-.
    apply merged_keeps; auto.
  - rewrite lookup_insert_ne in Hm by exact Hne. auto.
Qed.

Lemma update_device_metric_resident (nm : NodeMeasurement.t)
      (item : DeviceId * Measurement.t) (ctx : StatContext.t) (clk : Clock) :
  all_resident Q ctx ->
  all_resident Q (fst (fst (StatContext.update_device_metric nm item (ctx, clk)))).
Proof.
  intros (Hn & Hd & Hk). destruct item as [dev_id measure].
  rewrite update_device_metric_tables.
  split; [|split]; auto.
  intros k d m Hm. unfold device_metric in Hm. cbn [StatContext.device_metrics] in Hm.
  rewrite lookup_nested_insert in Hm.
  destruct (decide _) as [[<- <-]|_]; [|eauto].
  injection Hm as <-. apply merged_keeps; auto. intros m Hm. eapply Hd. exact Hm.
Qed.

Lemma update_kernel_metric_resident (cm : ContainerMeasurement.t) (kid : KernelId)
      (measure : Measurement.t) (ctx : StatContext.t) (clk : Clock) :
  all_resident Q ctx ->
  all_resident Q
    (fst (fst (StatContext.update_kernel_metric cm kid measure (ctx, clk)))).
Proof.
  intros (Hn & Hd & Hk). rewrite update_kernel_metric_tables.
  split; [|split]; auto.
  intros kid' k m Hm. unfold kernel_metric in Hm.
  cbn [StatContext.kernel_metrics] in Hm.
  rewrite lookup_nested_insert in Hm.
  destruct (decide _) as [[<- <-]|_]; [|eauto].
  injection Hm as <-. apply merged_keeps; auto. intros m Hm. eapply Hk. exact Hm.
Qed.

Lemma prune_resident (registry : Registry) (ctx : StatContext.t) :
  all_resident Q ctx -> all_resident Q (StatContext.prune registry ctx).
Proof.
  intros (Hn & Hd & Hk). split; [|split]; auto.
  intros kid k m Hm. unfold kernel_metric in Hm. rewrite lookup_prune in Hm.
  destruct (decide _); [eauto|].
  cbn in Hm. rewrite lookup_empty in Hm. discriminate.
Qed.

(** A property that holds for every new metric and is kept by
    [Metric.update] holds for every metric of a reachable context. *)
Lemma reachable_all_resident (ctx : StatContext.t) :
  reachable ctx -> all_resident Q ctx.
Proof.
  induction 1 as [|src registry ctx clk _ IH|src registry cid ctx clk _ IH].
  - split; [|split]; intros *; unfold device_metric, kernel_metric; cbn;
      rewrite ?lookup_empty; cbn; rewrite ?lookup_empty; discriminate.
  - apply (collect_node_stat_keeps (all_resident Q) registry (fun _ => True)); auto.
    + apply update_node_metric_resident.
    + intros nm item. apply update_device_metric_resident.
    + intros cm kid measure ctx' clk' _. apply update_kernel_metric_resident.
    + apply prune_resident.
  - apply (collect_container_stat_keeps (all_resident Q) registry (fun _ => True));
      auto.
    intros cm kid measure ctx' clk' _. apply update_kernel_metric_resident.
Qed.

End Invariant.

(** X13.  In a reachable context every stored metric has, as its [key]
    field, the metric key it is stored under, in each of the three
    tables. *)
Theorem stored_metrics_carry_their_key :
  forall ctx : StatContext.t,
    reachable ctx ->
    (forall k m, StatContext.node_metrics ctx !! k = Some m -> Metric.key m = k) /\
    (forall k d m, device_metric ctx k d = Some m -> Metric.key m = k) /\
    (forall kid k m, kernel_metric ctx kid k = Some m -> Metric.key m = k).
Proof.
  intros ctx Hr.
  apply (reachable_all_resident (fun _ k m => Metric.key m = k)); auto.
  intros t k m measure clk <-. apply metric_update_static.
Qed.

(** X13 at a concrete context: the metric of kernel k0 after a first
    round. *)
Lemma stored_metrics_carry_their_key_witness :
  exists m,
    kernel_metric (fst tables_with_k0) "k0" "mem" = Some m /\
    Metric.key m = "mem"%string.
Proof.
  destruct (kernel_metric (fst tables_with_k0) "k0" "mem") as [m|] eqn:Hm;
    [|vm_compute in Hm; discriminate].
  exists m. split; [reflexivity|].
  apply (proj2 (proj2 (stored_metrics_carry_their_key
                         (fst tables_with_k0)
                         (reachable_node_round _ _ StatContext.init example_clock
                                               reachable_init)))
               "k0"%string "mem"%string m Hm).
Defined.

(** X14.  Every metric stored in a reachable context retains one or two
    points, and, if it has no hook, its [current] is the value of the newest
    retained point, also after updates that raised. *)
Theorem current_is_the_newest_point :
  forall (ctx : StatContext.t) (m : Metric.t),
    reachable ctx -> resident ctx m ->
    (1 <= length (MovingStatistics._last (Metric.stats m)) <= 2)%nat /\
    (Metric.current_hook m = None ->
     newest (Metric.stats m) = Some (Metric.current m)).
Proof.
  intros ctx m Hr Hm.
  assert (H : all_resident
                (fun _ _ m =>
                   (1 <= length (MovingStatistics._last (Metric.stats m)) <= 2)%nat /\
                   (Metric.current_hook m = None ->
                    newest (Metric.stats m) = Some (Metric.current m))) ctx);
    [apply reachable_all_resident; [| | | |exact Hr]
    |destruct H as (Hn & Hd & Hk)].
  - intros t k m0 measure clk [Hb Hc].
    pose proof (metric_update_newest m0 measure clk ltac:(lia)) as Hu.
    pose proof (metric_update_static m0 measure clk) as (_ & _ & _ & _ & Hh).
    destruct (Metric.update m0 measure clk) as [[m' clk'] r]. cbn [fst] in *.
    destruct Hu as [_ [[Hl Hcur]|(Hb' & Hnew & Hcur)]].
    + unfold newest in *. rewrite Hl, Hcur, Hh. auto.
    + split; [exact Hb'|]. intros Hnone. rewrite Hh in Hnone.
      rewrite Hnew, (Hcur Hnone). reflexivity.
  - intros nm [n rd]. cbn. auto with lia.
  - intros nm measure [n rd]. cbn. auto with lia.
  - intros cm measure [n rd]. cbn. auto with lia.
  - destruct Hm as [[k Hm]|[(k & d & Hm)|(kid & k & Hm)]]; eauto.
Qed.

(** X14 at a concrete context: the metric of kernel k0 after a first
    round. *)
Lemma current_is_the_newest_point_witness :
  exists m,
    kernel_metric (fst tables_with_k0) "k0" "mem" = Some m /\
    newest (Metric.stats m) = Some (Metric.current m).
Proof.
  destruct (kernel_metric (fst tables_with_k0) "k0" "mem") as [m|] eqn:Hm;
    [|vm_compute in Hm; discriminate].
  exists m. split; [reflexivity|].
  apply (current_is_the_newest_point (fst tables_with_k0) m).
  - apply (reachable_node_round _ _ StatContext.init example_clock reachable_init).
  - right. right. exists "k0"%string, "mem"%string. exact Hm.
  - vm_compute in Hm. injection Hm as <-. reflexivity.
Defined.

(** X15.  Every kernel metric of a reachable context has a capacity: it is
    created with the measured value as capacity, and no update clears
    it. *)
Theorem kernel_metrics_have_a_capacity :
  forall (ctx : StatContext.t) (kid : KernelId) (k : MetricKey) (m : Metric.t),
    reachable ctx -> kernel_metric ctx kid k = Some m ->
    is_Some (Metric.capacity m).
Proof.
  intros ctx kid k m Hr Hm.
  assert (H : all_resident
                (fun t _ m => t = KernelTable -> is_Some (Metric.capacity m)) ctx);
    [apply reachable_all_resident; [| | | |exact Hr]
    |destruct H as (_ & _ & Hk)]; try discriminate.
  - intros t k0 m0 measure clk Hq Ht. rewrite metric_update_capacity.
    destruct (Measurement.capacity measure); eauto.
  - intros cm measure clk _. cbn. eauto.
  - eapply Hk; eauto.
Qed.

(** X15 at a concrete context: the metric of kernel k0 after a first
    round. *)
Lemma kernel_metrics_have_a_capacity_witness :
  exists m,
    kernel_metric (fst tables_with_k0) "k0" "mem" = Some m /\
    is_Some (Metric.capacity m).
Proof.
  destruct (kernel_metric (fst tables_with_k0) "k0" "mem") as [m|] eqn:Hm;
    [|vm_compute in Hm; discriminate].
  exists m. split; [reflexivity|].
  apply (kernel_metrics_have_a_capacity (fst tables_with_k0) "k0" "mem" m);
    [|exact Hm].
  apply (reachable_node_round _ _ StatContext.init example_clock reachable_init).
Defined.

(** *** What a round keeps *)

(** The steps of the rounds keep what [persists] asks for. *)
Lemma persists_refl (keep : KernelId -> Prop) (ctx : StatContext.t) :
  persists keep ctx ctx.
Proof.
  split; [|split]; intros; eexists; (split; [eassumption|apply same_static_refl]).
Qed.

Lemma merged_static (old : option Metric.t) (fresh : Metric.t)
      (measure : Measurement.t) (clk : Clock) (m : Metric.t) :
  old = Some m -> same_static m (merged old fresh measure clk).
Proof. intros ->. apply metric_update_static. Qed.

Lemma persists_node_step (keep : KernelId -> Prop) (ctx0 : StatContext.t)
      (nm : NodeMeasurement.t) (ctx : StatContext.t) (clk : Clock) :
  persists keep ctx0 ctx ->
  persists keep ctx0 (fst (fst (StatContext.update_node_metric nm (ctx, clk)))).
Proof.
  intros (Hn & Hd & Hk). rewrite update_node_metric_tables.
  split; [|split]; auto.
  intros k m Hm. cbn [StatContext.node_metrics].
  destruct (Hn k m Hm) as (m1 & Hm1 & Hs1).
  destruct (decide (NodeMeasurement.key nm = k)) as [<-|Hne].
  - rewrite lookup_insert_eq. eexists. split; [reflexivity|].
    eapply same_static_trans; [exact Hs1|]. now apply merged_static.
  - rewrite lookup_insert_ne by exact Hne. eauto.
Qed.

Lemma persists_device_step (keep : KernelId -> Prop) (ctx0 : StatContext.t)
      (nm : NodeMeasurement.t) (item : DeviceId * Measurement.t)
      (ctx : StatContext.t) (clk : Clock) :
  persists keep ctx0 ctx ->
  persists keep ctx0
    (fst (fst (StatContext.update_device_metric nm item (ctx, clk)))).
Proof.
  intros (Hn & Hd & Hk). destruct item as [dev_id measure].
  rewrite update_device_metric_tables.
  split; [|split]; auto.
  intros k d m Hm. unfold device_metric. cbn [StatContext.device_metrics].
  destruct (Hd k d m Hm) as (m1 & Hm1 & Hs1).
  rewrite lookup_nested_insert.
  destruct (decide _) as [[<- <-]|_]; [|eauto].
  eexists. split; [reflexivity|].
  eapply same_static_trans; [exact Hs1|]. now apply merged_static.
Qed.

Lemma persists_kernel_step (keep : KernelId -> Prop) (ctx0 : StatContext.t)
      (cm : ContainerMeasurement.t) (kid : KernelId) (measure : Measurement.t)
      (ctx : StatContext.t) (clk : Clock) :
  persists keep ctx0 ctx ->
  persists keep ctx0
    (fst (fst (StatContext.update_kernel_metric cm kid measure (ctx, clk)))).
Proof.
  intros (Hn & Hd & Hk). rewrite update_kernel_metric_tables.
  split; [|split]; auto.
  intros kid' k m Hkeep Hm. unfold kernel_metric. cbn [StatContext.kernel_metrics].
  destruct (Hk kid' k m Hkeep Hm) as (m1 & Hm1 & Hs1).
  rewrite lookup_nested_insert.
  destruct (decide _) as [[<- <-]|_]; [|eauto].
  eexists. split; [reflexivity|].
  eapply same_static_trans; [exact Hs1|]. now apply merged_static.
Qed.

Lemma persists_prune (registry : Registry) (ctx0 ctx : StatContext.t) :
  persists (fun kid => kid ∈ map fst registry) ctx0 ctx ->
  persists (fun kid => kid ∈ map fst registry) ctx0 (StatContext.prune registry ctx).
Proof.
  intros (Hn & Hd & Hk). split; [|split]; auto.
  intros kid k m Hkeep Hm. unfold kernel_metric. rewrite lookup_prune.
  destruct (decide _) as [_|Hni]; [|contradiction]. eauto.
Qed.

(** X16.  Whatever its outcome, a full round keeps every node metric, every
    device metric and every kernel metric of a kernel of the registry, under
    the same keys and with the same key, type, filter, unit hint and hook;
    the single-container round keeps every metric in this way.  So a later
    batch cannot change the type, filter, unit hint or hook of a metric, and
    nothing but the pruning of kernels removes one. *)
Theorem metrics_persist_with_their_static_fields :
  forall (src : Sources) (registry : Registry) (container_id : ContainerId)
         (ctx : StatContext.t) (clk : Clock),
    persists (fun kid => kid ∈ map fst registry) ctx
             (fst (fst (StatContext.collect_node_stat src registry (ctx, clk)))) /\
    persists (fun _ => True) ctx
             (fst (fst (StatContext.collect_container_stat
                          src registry container_id (ctx, clk)))).
Proof.
  intros src registry container_id ctx clk. split.
  - apply (collect_node_stat_keeps
             (persists (fun kid => kid ∈ map fst registry) ctx) registry
             (fun _ => True)); auto.
    + intros nm ctx1 clk1. apply persists_node_step.
    + intros nm item ctx1 clk1. apply persists_device_step.
    + intros cm kid measure ctx1 clk1 _. apply persists_kernel_step.
    + apply persists_prune.
    + apply persists_refl.
  - apply (collect_container_stat_keeps (persists (fun _ => True) ctx) registry
                                        (fun _ => True)); auto.
    + intros cm kid measure ctx1 clk1 _. apply persists_kernel_step.
    + apply persists_refl.
Qed.

(** X16 at a concrete round: the metric of kernel k0 through a second full
    round. *)
Lemma metrics_persist_with_their_static_fields_witness :
  let src := example_source [("c0"%string, Measurement.mk (of_int 2) None)] in
  let registry := [("k0"%string, "c0"%string)] in
  exists m m',
    kernel_metric (fst tables_with_k0) "k0" "mem" = Some m /\
    kernel_metric (fst (fst (StatContext.collect_node_stat
                               src registry tables_with_k0))) "k0" "mem"
    = Some m' /\
    same_static m m'.
Proof.
  intros src registry.
  destruct (kernel_metric (fst tables_with_k0) "k0" "mem") as [m|] eqn:Hm;
    [|vm_compute in Hm; discriminate].
  destruct (proj1 (metrics_persist_with_their_static_fields
                     src registry "c0"%string
                     (fst tables_with_k0) (snd tables_with_k0)))
    as (_ & _ & Hk).
  destruct (Hk "k0"%string "mem"%string m) as (m' & Hm' & Hs).
  - cbn. constructor.
  - exact Hm.
  - exists m, m'. split; [reflexivity|]. split; [|exact Hs].
    rewrite <- Hm'. reflexivity.
Defined.

(** *** What a completed full round stores *)

(** After a node step that returns, the measured value is the newest point
    of the stored metric. *)
Lemma update_node_metric_ok (nm : NodeMeasurement.t) (s s' : StatContext.state) :
  StatContext.update_node_metric nm s = (s', Ok tt) ->
  exists m,
    StatContext.node_metrics (fst s') !! NodeMeasurement.key nm = Some m /\
    newest (Metric.stats m)
    = Some (Measurement.value (NodeMeasurement.per_node nm)) /\
    (Metric.current_hook m = None ->
     Metric.current m = Measurement.value (NodeMeasurement.per_node nm)).
Proof.
  destruct s as [ctx clk]. unfold StatContext.update_node_metric.
  destruct (StatContext.node_metrics ctx !! NodeMeasurement.key nm) as [m|].
  - destruct (Metric.update m _ clk) as [[m' clk'] r] eqn:Hu.
    intros [= <- ->]. cbn. rewrite lookup_insert_eq.
    exists m'. split; [reflexivity|]. eapply metric_update_ok_newest; eauto.
  - destruct clk as [n rd]. cbn. intros [= <-]. cbn. rewrite lookup_insert_eq.
    eexists. split; [reflexivity|]. cbn. auto.
Qed.

(** The device loop leaves [node_metrics] alone. *)
Lemma merge_node_measure_node_table (nm : NodeMeasurement.t) (s : StatContext.state) :
  StatContext.node_metrics (fst (fst (StatContext.merge_node_measure nm s)))
  = StatContext.node_metrics (fst (fst (StatContext.update_node_metric nm s))).
Proof.
  unfold StatContext.merge_node_measure.
  destruct (StatContext.update_node_metric nm s) as [s1 [[]|e]]; [|reflexivity].
  cbn [fst].
  apply (for_each_invariant
           (fun s' : StatContext.state =>
              StatContext.node_metrics (fst s') = StatContext.node_metrics (fst s1)));
    [|reflexivity].
  intros [dev_id measure] [ctx clk] H.
  rewrite update_device_metric_tables. exact H.
Qed.

Lemma merge_node_measure_other_key (nm : NodeMeasurement.t) (s : StatContext.state)
      (k : MetricKey) :
  NodeMeasurement.key nm <> k ->
  StatContext.node_metrics (fst (fst (StatContext.merge_node_measure nm s))) !! k
  = StatContext.node_metrics (fst s) !! k.
Proof.
  intros Hne. rewrite merge_node_measure_node_table. destruct s as [ctx clk].
  rewrite update_node_metric_tables. cbn. now rewrite lookup_insert_ne.
Qed.

(** The container phase leaves [node_metrics] and [device_metrics] alone. *)
Lemma container_phase_node_table (src : Sources) (registry : Registry)
      (s : StatContext.state) :
  StatContext.node_metrics
    (fst (fst (StatContext.merge_container_phase src registry s)))
  = StatContext.node_metrics (fst s).
Proof.
  apply (merge_container_phase_keeps
           (fun ctx => StatContext.node_metrics ctx = StatContext.node_metrics (fst s))
           registry (fun _ => True)); auto.
  intros cm kid measure ctx clk _ H. rewrite update_kernel_metric_tables. exact H.
Qed.

Lemma container_phase_device_table (src : Sources) (registry : Registry)
      (s : StatContext.state) :
  StatContext.device_metrics
    (fst (fst (StatContext.merge_container_phase src registry s)))
  = StatContext.device_metrics (fst s).
Proof.
  apply (merge_container_phase_keeps
           (fun ctx => StatContext.device_metrics ctx
                       = StatContext.device_metrics (fst s))
           registry (fun _ => True)); auto.
  intros cm kid measure ctx clk _ H. rewrite update_kernel_metric_tables. exact H.
Qed.

(** X17.  After a full round that returns, the node metric of a reported key
    has the value of the last node measure reported for this key in the
    round (by the plugins that did not fail, in their order) as its newest
    point, and as [current] if it has no hook. *)
Theorem node_metric_holds_the_last_reported_value :
  forall (src : Sources) (registry : Registry) (s s' : StatContext.state)
         (before after : list NodeMeasurement.t) (nm : NodeMeasurement.t),
    StatContext.collect_node_stat src registry s = (s', Ok tt) ->
    gathered (gather_node_measures src) = before ++ nm :: after ->
    Forall (fun nm' => NodeMeasurement.key nm' <> NodeMeasurement.key nm) after ->
    exists m,
      StatContext.node_metrics (fst s') !! NodeMeasurement.key nm = Some m /\
      newest (Metric.stats m)
      = Some (Measurement.value (NodeMeasurement.per_node nm)) /\
      (Metric.current_hook m = None ->
       Metric.current m = Measurement.value (NodeMeasurement.per_node nm)).
Proof.
  intros src registry s s' before after nm Hrun Hsplit Hafter.
  unfold StatContext.collect_node_stat in Hrun.
  destruct (StatContext.merge_node_phase src s) as [[ctx1 clk1] [[]|e]] eqn:Hnode;
    [|discriminate].
  pose proof (container_phase_node_table src registry
                (StatContext.prune registry ctx1, clk1)) as Htable.
  rewrite Hrun in Htable. cbn [fst StatContext.prune StatContext.node_metrics]
    in Htable.
  rewrite Htable. clear Hrun Htable s'.
  unfold StatContext.merge_node_phase in Hnode.
  rewrite for_each_gathered_flat, Hsplit, for_each_app in Hnode.
  destruct (for_each StatContext.merge_node_measure before s) as [s1 [[]|e]];
    [|discriminate].
  cbn [for_each] in Hnode.
  destruct (StatContext.merge_node_measure nm s1) as [s2 [[]|e]] eqn:Hnm;
    [|discriminate].
  assert (Hs2 : exists m,
             StatContext.node_metrics (fst s2) !! NodeMeasurement.key nm = Some m /\
             newest (Metric.stats m)
             = Some (Measurement.value (NodeMeasurement.per_node nm)) /\
             (Metric.current_hook m = None ->
              Metric.current m = Measurement.value (NodeMeasurement.per_node nm))).
  { pose proof (merge_node_measure_node_table nm s1) as Ht.
    rewrite Hnm in Ht. cbn [fst] in Ht. rewrite Ht.
    unfold StatContext.merge_node_measure in Hnm.
    destruct (StatContext.update_node_metric nm s1) as [sa [[]|e]] eqn:Hu;
      [|discriminate].
    cbn [fst]. eapply update_node_metric_ok; eauto. }
  destruct Hs2 as (m & Hm & Hnew & Hcur). exists m. split; [|auto].
  assert (H : StatContext.node_metrics
                (fst (fst (for_each StatContext.merge_node_measure after s2)))
              !! NodeMeasurement.key nm = Some m).
  { apply (for_each_invariant_in
             (fun s' : StatContext.state =>
                StatContext.node_metrics (fst s') !! NodeMeasurement.key nm
                = Some m)); [|exact Hm].
    intros nm' s3 Hin H3. rewrite merge_node_measure_other_key; [exact H3|].
    rewrite List.Forall_forall in Hafter. now apply Hafter. }
  rewrite Hnode in H. exact H.
Qed.

(** X17 at a concrete round: three measures of cpu from two plugins, with a
    failed plugin in between. *)
Lemma node_metric_holds_the_last_reported_value_witness :
  let nm v := NodeMeasurement.mk "cpu" USAGE (Measurement.mk (of_int v) None)
                                 [] None ∅ None in
  let src := {| gather_node_measures := [Ok [nm 1; nm 2]; Raise PluginError; Ok [nm 3]];
                gather_container_measures := fun _ => [] |} in
  exists m,
    StatContext.node_metrics
      (fst (fst (StatContext.collect_node_stat
                   src [] (StatContext.init, example_clock)))) !! "cpu"%string
    = Some m /\
    Metric.current m = of_int 3.
Proof.
  intros nm src.
  destruct (StatContext.collect_node_stat src [] (StatContext.init, example_clock))
    as [s' r] eqn:Hrun.
  assert (Hr : r = Ok tt) by (vm_compute in Hrun; congruence). subst r.
  destruct (node_metric_holds_the_last_reported_value
              src [] (StatContext.init, example_clock) s' [nm 1; nm 2] [] (nm 3)
              Hrun eq_refl ltac:(constructor)) as (m & Hm & _ & Hcur).
  exists m. split; [exact Hm|]. apply Hcur.
  vm_compute in Hrun. injection Hrun as <-. vm_compute in Hm.
  injection Hm as <-. reflexivity.
Defined.

Lemma is_Some_lookup_insert {V : Type} (t : gmap string V) (i j : string) (v : V) :
  is_Some (<[i := v]> t !! j) <-> is_Some (t !! j) \/ i = j.
Proof.
  destruct (decide (i = j)) as [->|Hne].
  - rewrite lookup_insert_eq. split; eauto.
  - rewrite lookup_insert_ne by exact Hne. split; [auto|]. intros [H|H]; tauto.
Qed.

Lemma update_device_metric_has (nm : NodeMeasurement.t)
      (item : DeviceId * Measurement.t) (s : StatContext.state)
      (k : MetricKey) (d : DeviceId) :
  is_Some (device_metric (fst (fst (StatContext.update_device_metric nm item s))) k d)
  <-> is_Some (device_metric (fst s) k d) \/
      (NodeMeasurement.key nm = k /\ fst item = d).
Proof.
  destruct s as [ctx clk], item as [dev_id measure].
  rewrite update_device_metric_tables. unfold device_metric.
  cbn [StatContext.device_metrics fst]. rewrite lookup_nested_insert.
  destruct (decide _) as [[<- <-]|Hne]; split; eauto.
  intros [H|H]; tauto.
Qed.

Lemma update_kernel_metric_has (cm : ContainerMeasurement.t) (kid0 : KernelId)
      (measure : Measurement.t) (s : StatContext.state)
      (kid : KernelId) (k : MetricKey) :
  is_Some (kernel_metric
             (fst (fst (StatContext.update_kernel_metric cm kid0 measure s))) kid k)
  <-> is_Some (kernel_metric (fst s) kid k) \/
      (kid0 = kid /\ ContainerMeasurement.key cm = k).
Proof.
  destruct s as [ctx clk].
  rewrite update_kernel_metric_tables. unfold kernel_metric.
  cbn [StatContext.kernel_metrics fst]. rewrite lookup_nested_insert.
  destruct (decide _) as [[<- <-]|Hne]; split; eauto.
  intros [H|H]; tauto.
Qed.

Lemma merge_node_measure_device_table (nm : NodeMeasurement.t)
      (s s' : StatContext.state) :
  StatContext.merge_node_measure nm s = (s', Ok tt) ->
  forall k d,
    is_Some (device_metric (fst s') k d)
    <-> is_Some (device_metric (fst s) k d) \/
        (NodeMeasurement.key nm = k /\
         exists measure, (d, measure) ∈ NodeMeasurement.per_device nm).
Proof.
  unfold StatContext.merge_node_measure. intros Hrun k d.
  pose proof (update_node_metric_tables nm (fst s) (snd s)) as Ht.
  rewrite <- surjective_pairing in Ht.
  destruct (StatContext.update_node_metric nm s) as [s1 [[]|e]]; [|discriminate].
  cbn [fst] in Ht.
  rewrite (for_each_ok_adds
             (fun (s : StatContext.state) (x : MetricKey * DeviceId) =>
                is_Some (device_metric (fst s) (fst x) (snd x)))
             (fun (item : DeviceId * Measurement.t) (x : MetricKey * DeviceId) =>
                NodeMeasurement.key nm = fst x /\ fst item = snd x)
             _ _ ltac:(intros item s2 s3 _ Hb x;
                       apply (f_equal fst) in Hb; cbn [fst] in Hb; subst s3;
                       apply update_device_metric_has)
             s1 s' Hrun (k, d)).
  cbn [fst snd]. unfold device_metric at 2. rewrite Ht.
  cbn [StatContext.device_metrics]. fold (device_metric (fst s) k d).
  split; (intros [H|H]; [now left|right]).
  - destruct H as ([d' measure] & Hin & Hk & Hd). cbn in Hd. subst d'. eauto.
  - destruct H as (Hk & measure & Hin). exists (d, measure). auto.
Qed.

Lemma merge_node_measure_has_node (nm : NodeMeasurement.t) (s : StatContext.state)
      (k : MetricKey) :
  is_Some (StatContext.node_metrics
             (fst (fst (StatContext.merge_node_measure nm s))) !! k)
  <-> is_Some (StatContext.node_metrics (fst s) !! k) \/ NodeMeasurement.key nm = k.
Proof.
  rewrite merge_node_measure_node_table. destruct s as [ctx clk].
  rewrite update_node_metric_tables. cbn [StatContext.node_metrics fst].
  apply is_Some_lookup_insert.
Qed.

Lemma merge_container_batch_has (kernel_id_map : gmap ContainerId KernelId)
      (cm : ContainerMeasurement.t) (s s' : StatContext.state) :
  for_each (StatContext.merge_container_item_full kernel_id_map cm)
           (ContainerMeasurement.per_container cm) s = (s', Ok tt) ->
  forall kid k,
    is_Some (kernel_metric (fst s') kid k)
    <-> is_Some (kernel_metric (fst s) kid k) \/
        (ContainerMeasurement.key cm = k /\
         exists cid measure,
           (cid, measure) ∈ ContainerMeasurement.per_container cm /\
           kernel_id_map !! cid = Some kid).
Proof.
  intros Hrun kid k.
  assert (Hstep : forall (item : ContainerId * Measurement.t)
                         (s2 s3 : StatContext.state),
             item ∈ ContainerMeasurement.per_container cm ->
             StatContext.merge_container_item_full kernel_id_map cm item s2
             = (s3, Ok tt) ->
             forall x : KernelId * MetricKey,
               is_Some (kernel_metric (fst s3) (fst x) (snd x))
               <-> is_Some (kernel_metric (fst s2) (fst x) (snd x)) \/
                   (kernel_id_map !! fst item = Some (fst x) /\
                    ContainerMeasurement.key cm = snd x)).
  { intros [cid measure] s2 s3 _ Hb [kid' k']. cbn [fst snd].
    unfold StatContext.merge_container_item_full in Hb.
    destruct (kernel_id_map !! cid) as [kid0|]; [|discriminate].
    apply (f_equal fst) in Hb. cbn [fst] in Hb. subst s3.
    rewrite update_kernel_metric_has.
    split; (intros [H|[H1 H2]]; [now left|right]); split; congruence. }
  rewrite (for_each_ok_adds
             (fun (s : StatContext.state) (x : KernelId * MetricKey) =>
                is_Some (kernel_metric (fst s) (fst x) (snd x)))
             (fun (item : ContainerId * Measurement.t) (x : KernelId * MetricKey) =>
                kernel_id_map !! fst item = Some (fst x) /\
                ContainerMeasurement.key cm = snd x)
             _ _ Hstep s s' Hrun (kid, k)).
  cbn [fst snd]. split; (intros [H|H]; [now left|right]).
  - destruct H as ([cid measure] & Hin & Hk & Hkey). cbn in Hk. eauto.
  - destruct H as (Hkey & cid & measure & Hin & Hk).
    exists (cid, measure). auto.
Qed.

(** X18.  After a full round that returns, the tables hold what they held
    before and what was reported, and nothing else: a node metric exists
    for a key exactly when it existed before or a node measure with this key
    was reported; a device metric for a key and a device exactly when it
    existed before or a node measure with this key reported the device; a
    kernel metric for a kernel and a key exactly when it existed before and
    the kernel is in the registry, or a batch with this key holds a sample
    of a container that [kernel_id_map] sends to this kernel. *)
Theorem completed_full_round_stores_what_was_reported :
  forall (src : Sources) (registry : Registry) (ctx ctx' : StatContext.t)
         (clk clk' : Clock),
    StatContext.collect_node_stat src registry (ctx, clk) = ((ctx', clk'), Ok tt) ->
    let measures := gathered (gather_node_measures src) in
    let batches :=
      gathered (gather_container_measures
                  src (StatContext.container_ids_of registry)) in
    (forall k,
        is_Some (StatContext.node_metrics ctx' !! k) <->
        is_Some (StatContext.node_metrics ctx !! k) \/
        exists nm, nm ∈ measures /\ NodeMeasurement.key nm = k) /\
    (forall k d,
        is_Some (device_metric ctx' k d) <->
        is_Some (device_metric ctx k d) \/
        exists nm measure,
          nm ∈ measures /\ NodeMeasurement.key nm = k /\
          (d, measure) ∈ NodeMeasurement.per_device nm) /\
    (forall kid k,
        is_Some (kernel_metric ctx' kid k) <->
        (kid ∈ map fst registry /\ is_Some (kernel_metric ctx kid k)) \/
        exists cm cid measure,
          cm ∈ batches /\ ContainerMeasurement.key cm = k /\
          (cid, measure) ∈ ContainerMeasurement.per_container cm /\
          StatContext.build_kernel_id_map registry !! cid = Some kid).
Proof.
  intros src registry ctx ctx' clk clk' Hrun measures batches.
  unfold StatContext.collect_node_stat in Hrun.
  destruct (StatContext.merge_node_phase src (ctx, clk))
    as [[ctx1 clk1] [[]|e]] eqn:Hnode; [|discriminate].
  pose proof (merge_node_phase_kernel_metrics src (ctx, clk)) as Hk1.
  rewrite Hnode in Hk1. cbn [fst] in Hk1.
  pose proof (container_phase_node_table
                src registry (StatContext.prune registry ctx1, clk1)) as Hn2.
  pose proof (container_phase_device_table
                src registry (StatContext.prune registry ctx1, clk1)) as Hd2.
  rewrite Hrun in Hn2, Hd2.
  cbn [fst StatContext.prune StatContext.node_metrics StatContext.device_metrics]
    in Hn2, Hd2.
  unfold StatContext.merge_node_phase in Hnode.
  rewrite for_each_gathered_flat in Hnode. fold measures in Hnode.
  unfold StatContext.merge_container_phase in Hrun.
  rewrite for_each_gathered_flat in Hrun. fold batches in Hrun.
  split; [|split].
  - intros k. rewrite Hn2.
    apply (for_each_ok_adds
             (fun (s : StatContext.state) (k : MetricKey) =>
                is_Some (StatContext.node_metrics (fst s) !! k))
             (fun (nm : NodeMeasurement.t) (k : MetricKey) =>
                NodeMeasurement.key nm = k)
             _ _ ltac:(intros nm s2 s3 _ Hb x;
                       apply (f_equal fst) in Hb; cbn [fst] in Hb; subst s3;
                       apply merge_node_measure_has_node)
             (ctx, clk) (ctx1, clk1) Hnode k).
  - intros k d. unfold device_metric at 1. rewrite Hd2.
    fold (device_metric ctx1 k d).
    rewrite (for_each_ok_adds
               (fun (s : StatContext.state) (x : MetricKey * DeviceId) =>
                  is_Some (device_metric (fst s) (fst x) (snd x)))
               (fun (nm : NodeMeasurement.t) (x : MetricKey * DeviceId) =>
                  NodeMeasurement.key nm = fst x /\
                  exists measure, (snd x, measure) ∈ NodeMeasurement.per_device nm)
               _ _ ltac:(intros nm s2 s3 _ Hb x;
                         apply (merge_node_measure_device_table nm s2 s3 Hb))
               (ctx, clk) (ctx1, clk1) Hnode (k, d)).
    cbn [fst snd]. split; (intros [H|H]; [now left|right]).
    + destruct H as (nm & Hin & Hkey & measure & Hd). eauto 6.
    + destruct H as (nm & measure & Hin & Hkey & Hd). eauto 6.
  - intros kid k.
    rewrite (for_each_ok_adds
               (fun (s : StatContext.state) (x : KernelId * MetricKey) =>
                  is_Some (kernel_metric (fst s) (fst x) (snd x)))
               (fun (cm : ContainerMeasurement.t) (x : KernelId * MetricKey) =>
                  ContainerMeasurement.key cm = snd x /\
                  exists cid measure,
                    (cid, measure) ∈ ContainerMeasurement.per_container cm /\
                    StatContext.build_kernel_id_map registry !! cid = Some (fst x))
               _ _ ltac:(intros cm s2 s3 _ Hb x;
                         apply (merge_container_batch_has _ cm s2 s3 Hb))
               (StatContext.prune registry ctx1, clk1) (ctx', clk') Hrun (kid, k)).
    cbn [fst snd]. unfold kernel_metric. rewrite lookup_prune, Hk1.
    split; intros [H|H].
    + left. destruct (decide (kid ∈ map fst registry)); [auto|].
      cbn in H. rewrite lookup_empty in H. now destruct H.
    + right. destruct H as (cm & Hin & Hkey & cid & measure & Hi & Hm). eauto 8.
    + left. destruct H as [Hreg H].
      destruct (decide (kid ∈ map fst registry)); [exact H|contradiction].
    + right. destruct H as (cm & cid & measure & Hin & Hkey & Hi & Hm). eauto 8.
Qed.

(** X18 at a concrete round: kernel k1 is reported, kernel k0 has left the
    registry. *)
Lemma completed_full_round_stores_what_was_reported_witness :
  let src := example_source [("c1"%string, Measurement.mk (of_int 2) None)] in
  let registry := [("k1"%string, "c1"%string)] in
  let ctx' := fst (fst (StatContext.collect_node_stat src registry tables_with_k0)) in
  is_Some (kernel_metric ctx' "k1" "mem") /\
  ~ is_Some (kernel_metric ctx' "k0" "mem").
Proof.
  intros src registry ctx'.
  destruct (StatContext.collect_node_stat src registry tables_with_k0)
    as [[ctx1 clk1] r] eqn:Hrun.
  assert (Hr : r = Ok tt) by (vm_compute in Hrun; congruence). subst r.
  subst ctx'. cbn [fst].
  destruct tables_with_k0 as [ctx0 clk0] eqn:H0.
  destruct (completed_full_round_stores_what_was_reported
              src registry ctx0 ctx1 clk0 clk1 Hrun) as (_ & _ & Hk).
  split.
  - apply Hk. right. exists (example_batch [("c1"%string, Measurement.mk (of_int 2) None)]),
      "c1"%string, (Measurement.mk (of_int 2) None).
    split; [cbn; left|]. split; [reflexivity|]. split; [left|].
    vm_compute. reflexivity.
  - intros H. apply Hk in H as [[Hreg _]|H].
    + cbn in Hreg. apply list_elem_of_singleton in Hreg. discriminate.
    + destruct H as (cm & cid & measure & Hin & _ & Hi & Hm).
      cbn in Hin. apply list_elem_of_singleton in Hin. subst cm.
      cbn in Hi. apply list_elem_of_singleton in Hi. injection Hi as -> ->.
      vm_compute in Hm. discriminate.
Defined.

(** *** The single-container round *)

(** X19.  Whatever its outcome, the single-container round leaves
    [node_metrics], [device_metrics] and the metrics of every kernel other
    than the one that [kernel_id_map] gives for the container as they
    were. *)
Theorem container_round_is_local :
  forall (src : Sources) (registry : Registry) (container_id : ContainerId)
         (ctx : StatContext.t) (clk : Clock),
    let ctx' := fst (fst (StatContext.collect_container_stat
                            src registry container_id (ctx, clk))) in
    StatContext.node_metrics ctx' = StatContext.node_metrics ctx /\
    StatContext.device_metrics ctx' = StatContext.device_metrics ctx /\
    (forall kid : KernelId,
        StatContext.build_kernel_id_map registry !! container_id <> Some kid ->
        StatContext.kernel_metrics ctx' !! kid
        = StatContext.kernel_metrics ctx !! kid).
Proof.
  intros src registry container_id ctx clk.
  apply (collect_container_stat_keeps
           (fun ctx' =>
              StatContext.node_metrics ctx' = StatContext.node_metrics ctx /\
              StatContext.device_metrics ctx' = StatContext.device_metrics ctx /\
              (forall kid : KernelId,
                  StatContext.build_kernel_id_map registry !! container_id
                  <> Some kid ->
                  StatContext.kernel_metrics ctx' !! kid
                  = StatContext.kernel_metrics ctx !! kid))
           registry
           (fun kid => StatContext.build_kernel_id_map registry !! container_id
                       = Some kid)); auto.
  intros cm kid measure ctx1 clk1 Hk (Hn & Hd & Hother).
  rewrite update_kernel_metric_tables. cbn. split; [exact Hn|]. split; [exact Hd|].
  intros kid' Hne. rewrite lookup_insert_ne by congruence. auto.
Qed.

(** X19 at a concrete round for container c1: the metrics of kernel k0 are
    untouched. *)
Lemma container_round_is_local_witness :
  let src := example_source [("c1"%string, Measurement.mk (of_int 2) None)] in
  let registry := [("k0", "c0"); ("k1", "c1")]%string in
  let ctx' := fst (fst (StatContext.collect_container_stat
                          src registry "c1"%string tables_with_k0)) in
  StatContext.kernel_metrics ctx' !! "k0"%string
  = StatContext.kernel_metrics (fst tables_with_k0) !! "k0"%string /\
  is_Some (StatContext.kernel_metrics ctx' !! "k1"%string).
Proof.
  intros src registry ctx'. split.
  - apply (container_round_is_local src registry "c1"%string
                                    (fst tables_with_k0) (snd tables_with_k0)).
    vm_compute. discriminate.
  - vm_compute. eauto.
Defined.

(** The kernel id of the single-container round, if any, is the kernel of
    the container, and has metrics. *)
Lemma container_round_kernel_id (src : Sources) (registry : Registry)
      (container_id : ContainerId) (s : StatContext.state) :
  let out := StatContext.collect_container_stat src registry container_id s in
  forall kid,
    snd out = Ok (Some kid) ->
    StatContext.build_kernel_id_map registry !! container_id = Some kid /\
    exists metrics,
      StatContext.kernel_metrics (fst (fst out)) !! kid = Some metrics /\
      metrics <> ∅.
Proof.
  unfold StatContext.collect_container_stat.
  set (I := fun st : StatContext.single_state =>
              forall kid, snd st = Some kid ->
                          StatContext.build_kernel_id_map registry !! container_id
                          = Some kid /\
                          exists metrics,
                            StatContext.kernel_metrics (fst (fst st)) !! kid
                            = Some metrics /\ metrics <> ∅).
  match goal with
  | |- context [for_each_gathered ?body ?outs ?init] =>
      assert (H : I (fst (for_each_gathered body outs init)));
      [|destruct (for_each_gathered body outs init) as [[s' last] r]]
  end.
  - apply (for_each_gathered_invariant I); [|intros kid; discriminate].
    intros cm st Hst. apply (for_each_invariant I); [|exact Hst].
    intros item [[ctx clk] last] Hi.
    destruct (merge_container_item_single_tables
                (StatContext.build_kernel_id_map registry) container_id cm item
                ((ctx, clk), last)) as [H|(kid & Hk & _ & H & Hlast)].
    + exact (eq_ind_r I Hi H).
    + intros kid' Hkid'.
      pose proof (eq_trans (eq_sym Hkid') Hlast) as E. injection E as ->.
      split; [exact Hk|].
      refine (eq_ind_r
                (fun z : StatContext.state =>
                   exists metrics,
                     StatContext.kernel_metrics (fst z) !! kid = Some metrics /\
                     metrics <> ∅) _ H).
      cbv beta. cbn [fst snd]. rewrite update_kernel_metric_tables. cbn.
      rewrite lookup_insert_eq. eexists. split; [reflexivity|].
      apply insert_non_empty.
  - cbn. intros kid Hr. destruct r as [[]|e]; [|discriminate].
    cbn in Hr. injection Hr as ->. apply (H kid). reflexivity.
Qed.

(** X20.  When the locked block of [collect_container_stat] completes with a
    kernel id, this is the kernel that [kernel_id_map] gives for the
    container, the pair is an entry of the registry, and
    [self.kernel_metrics[kernel_id]] (line 438) exists, so that this lookup
    does not raise [KeyError]; the mapping is not empty and is the one
    returned. *)
Theorem container_round_result :
  forall (src : Sources) (registry : Registry) (container_id : ContainerId)
         (s : StatContext.state) (ctx' : StatContext.t) (clk' : Clock)
         (kid : KernelId),
    StatContext.collect_container_stat src registry container_id s
    = ((ctx', clk'), Ok (Some kid)) ->
    StatContext.build_kernel_id_map registry !! container_id = Some kid /\
    (kid, container_id) ∈ registry /\
    exists metrics,
      StatContext.kernel_table ctx' (Some kid) = Ok metrics /\
      metrics <> ∅ /\
      StatContext.returned_metrics ctx' (Some kid) = metrics.
Proof.
  intros src registry container_id s ctx' clk' kid Hrun.
  pose proof (container_round_kernel_id src registry container_id s kid) as H.
  cbv zeta in H. rewrite Hrun in H. cbn [fst snd] in H.
  destruct (H eq_refl) as (Hk & metrics & Hm & Hne).
  split; [exact Hk|]. split.
  - apply build_kernel_id_map_lookup in Hk as (before & after & -> & _).
    apply elem_of_app. right. constructor.
  - exists metrics. unfold StatContext.kernel_table, StatContext.returned_metrics.
    rewrite Hm. auto.
Qed.

(** X20 at a concrete round for container c0 of kernel k0. *)
Lemma container_round_result_witness :
  let src := example_source [("c0"%string, Measurement.mk (of_int 2) None)] in
  let registry := [("k0"%string, "c0"%string)] in
  exists metrics,
    StatContext.kernel_table
      (fst (fst (StatContext.collect_container_stat
                   src registry "c0"%string tables_with_k0)))
      (Some "k0"%string) = Ok metrics /\
    metrics <> ∅.
Proof.
  intros src registry.
  destruct (StatContext.collect_container_stat src registry "c0"%string
                                               tables_with_k0)
    as [[ctx' clk'] r] eqn:Hrun.
  assert (Hr : r = Ok (Some "k0"%string)) by (vm_compute in Hrun; congruence).
  subst r.
  destruct (container_round_result src registry "c0"%string tables_with_k0
                                   ctx' clk' "k0"%string Hrun)
    as (_ & _ & metrics & Hm & Hne & _).
  exists metrics. cbn [fst]. split; assumption.
Defined.



(** After a kernel step that returns, the measured value is the newest
    point of the stored metric. *)
Lemma update_kernel_metric_ok (cm : ContainerMeasurement.t) (kid : KernelId)
      (measure : Measurement.t) (s s' : StatContext.state) :
  StatContext.update_kernel_metric cm kid measure s = (s', Ok tt) ->
  exists m,
    kernel_metric (fst s') kid (ContainerMeasurement.key cm) = Some m /\
    newest (Metric.stats m) = Some (Measurement.value measure) /\
    (Metric.current_hook m = None -> Metric.current m = Measurement.value measure).
Proof.
  destruct s as [ctx clk]. unfold StatContext.update_kernel_metric, kernel_metric.
  destruct (default ∅ (StatContext.kernel_metrics ctx !! kid)
              !! ContainerMeasurement.key cm) as [m|].
  - destruct (Metric.update m _ clk) as [[m' clk'] r] eqn:Hu.
    intros [= <- ->]. cbn. rewrite lookup_insert_eq. cbn. rewrite lookup_insert_eq.
    exists m'. split; [reflexivity|]. eapply metric_update_ok_newest; eauto.
  - destruct clk as [n rd]. cbn. intros [= <-]. cbn.
    rewrite lookup_insert_eq. cbn. rewrite lookup_insert_eq.
    eexists. split; [reflexivity|]. cbn. auto.
Qed.

Lemma merge_container_item_single_other_key
      (kernel_id_map : gmap ContainerId KernelId) (container_id : ContainerId)
      (cm : ContainerMeasurement.t) (item : ContainerId * Measurement.t)
      (st : StatContext.single_state) (kid : KernelId) (k : MetricKey) :
  ContainerMeasurement.key cm <> k ->
  kernel_metric (fst (fst (fst (StatContext.merge_container_item_single
                                  kernel_id_map container_id cm item st)))) kid k
  = kernel_metric (fst (fst st)) kid k.
Proof.
  intros Hne.
  destruct (merge_container_item_single_tables kernel_id_map container_id cm item st)
    as [H|(kid0 & _ & _ & H & _)].
  - exact (eq_ind_r (fun z : StatContext.single_state =>
                       kernel_metric (fst (fst z)) kid k
                       = kernel_metric (fst (fst st)) kid k) eq_refl H).
  - refine (eq_ind_r (fun z : StatContext.state =>
                        kernel_metric (fst z) kid k
                        = kernel_metric (fst (fst st)) kid k) _ H).
    destruct st as [[ctx clk] last]. cbn [fst snd].
    rewrite update_kernel_metric_tables. unfold kernel_metric.
    cbn [StatContext.kernel_metrics]. rewrite lookup_nested_insert.
    destruct (decide _) as [[_ Heq]|_]; [contradiction|reflexivity].
Qed.

(** X22.  When the single-container round completes with a kernel id, the
    returned mapping holds, for every metric key with a sample, a metric
    that has the value of the last sample reported for this key as its
    newest point, and as [current] if it has no hook. *)
Theorem container_round_returns_the_last_reported_value :
  forall (src : Sources) (registry : Registry) (container_id : ContainerId)
         (s : StatContext.state) (ctx' : StatContext.t) (clk' : Clock)
         (kid : KernelId)
         (before after : list (ContainerMeasurement.t
                               * (ContainerId * Measurement.t)))
         (cm : ContainerMeasurement.t) (measure : Measurement.t),
    StatContext.collect_container_stat src registry container_id s
    = ((ctx', clk'), Ok (Some kid)) ->
    samples (gathered (gather_container_measures src [container_id]))
    = before ++ (cm, (container_id, measure)) :: after ->
    Forall (fun p => ContainerMeasurement.key (fst p) <> ContainerMeasurement.key cm)
           after ->
    exists m,
      StatContext.returned_metrics ctx' (Some kid) !! ContainerMeasurement.key cm
      = Some m /\
      newest (Metric.stats m) = Some (Measurement.value measure) /\
      (Metric.current_hook m = None -> Metric.current m = Measurement.value measure).
Proof.
  intros src registry container_id s ctx' clk' kid before after cm measure
         Hrun Hsplit Hafter.
  pose proof (container_round_kernel_id src registry container_id s kid) as Hk.
  cbv zeta in Hk. rewrite Hrun in Hk. destruct (Hk eq_refl) as [Hmap _]. clear Hk.
  unfold StatContext.collect_container_stat in Hrun.
  rewrite for_each_gathered_flat in Hrun.
  rewrite (for_each_nested
             (StatContext.merge_container_item_single
                (StatContext.build_kernel_id_map registry) container_id)
             ContainerMeasurement.per_container) in Hrun.
  fold (samples (gathered (gather_container_measures src [container_id]))) in Hrun.
  rewrite Hsplit, for_each_app in Hrun.
  match type of Hrun with
  | context [for_each ?body before ?init] =>
      set (step := body) in *;
      destruct (for_each step before init) as [[s1 last1] [[]|e]]
  end; [|cbn in Hrun; discriminate].
  cbn [for_each] in Hrun. set (st1 := (s1, last1)) in *.
  destruct (step (cm, (container_id, measure)) st1) as [[s2 last2] [[]|e]] eqn:Hstep;
    [|cbn in Hrun; discriminate].
  set (st2 := (s2, last2)) in *.
  assert (Hst2 : exists m,
             kernel_metric (fst (fst st2)) kid (ContainerMeasurement.key cm) = Some m /\
             newest (Metric.stats m) = Some (Measurement.value measure) /\
             (Metric.current_hook m = None ->
              Metric.current m = Measurement.value measure)).
  { subst step st1 st2. cbn [fst snd] in Hstep.
    unfold StatContext.merge_container_item_single in Hstep.
    rewrite String.eqb_refl, Hmap in Hstep. cbn [negb] in Hstep.
    destruct (StatContext.update_kernel_metric cm kid measure s1) as [s2' r] eqn:Hu.
    injection Hstep as <- _ ->. cbn [fst]. eapply update_kernel_metric_ok; eauto. }
  destruct Hst2 as (m & Hm & Hnew & Hcur). exists m. split; [|auto].
  assert (H : kernel_metric (fst (fst (fst (for_each step after st2))))
                            kid (ContainerMeasurement.key cm) = Some m).
  { apply (for_each_invariant_in
             (fun st : StatContext.single_state =>
                kernel_metric (fst (fst st)) kid (ContainerMeasurement.key cm)
                = Some m)); [|exact Hm].
    intros [cm' item] st Hin Hst. subst step. cbn [fst snd].
    rewrite merge_container_item_single_other_key; [exact Hst|].
    rewrite List.Forall_forall in Hafter. apply (Hafter _ Hin). }
  destruct (for_each step after st2) as [[[ctx2 clk2] last3] r2].
  cbn in Hrun. destruct r2 as [[]|e]; cbn in Hrun; [|discriminate].
  injection Hrun as -> _ _. exact H.
Qed.

(** X22 at a concrete round: two samples of mem for container c0. *)
Lemma container_round_returns_the_last_reported_value_witness :
  let src := example_source [("c0"%string, Measurement.mk (of_int 2) None);
                             ("c0"%string, Measurement.mk (of_int 3) None)] in
  let registry := [("k0"%string, "c0"%string)] in
  let out := StatContext.collect_container_stat src registry "c0"%string
                                                tables_with_k0 in
  exists m,
    StatContext.returned_metrics (fst (fst out)) (Some "k0"%string) !! "mem"%string
    = Some m /\
    Metric.current m = of_int 3.
Proof.
  intros src registry out.
  destruct out as [[ctx' clk'] r] eqn:Hrun. subst out.
  assert (Hr : r = Ok (Some "k0"%string)) by (vm_compute in Hrun; congruence).
  subst r.
  destruct (container_round_returns_the_last_reported_value
              src registry "c0"%string tables_with_k0 ctx' clk' "k0"%string
              [(example_batch [("c0"%string, Measurement.mk (of_int 2) None);
                               ("c0"%string, Measurement.mk (of_int 3) None)],
                ("c0"%string, Measurement.mk (of_int 2) None))]
              []
              (example_batch [("c0"%string, Measurement.mk (of_int 2) None);
                              ("c0"%string, Measurement.mk (of_int 3) None)])
              (Measurement.mk (of_int 3) None)
              Hrun eq_refl ltac:(constructor)) as (m & Hm & _ & Hcur).
  exists m. cbn [fst]. split; [exact Hm|]. apply Hcur.
  vm_compute in Hrun. injection Hrun as <- _. vm_compute in Hm.
  injection Hm as <-. reflexivity.
Defined.
